(** * Learnkit collaboration core: real-time fabric and canvas persistence

  A shallow embedding of the server code of the Learnkit repository:

  - the WebSocket registry, fan-out, liveness probe and session handler
    of the routes module;
  - the operations [updateCanvasVisibility], [updateCanvas] and
    [replaceCanvasState] of the [DatabaseStorage] class;
  - the [GET] and [PUT /api/canvases/:id/state] handlers;
  - the operations [deleteCanvas], [isCollaborator] and
    [userHasAccessToCanvas] of the class, and the handlers of
    [GET] and [DELETE /api/canvases/:id] and of
    [PUT /api/canvases/:id/visibility].

  JavaScript [Map]s are insertion-ordered association lists, objects
  with string keys are [gmap string _], sockets live in a heap indexed
  by an identity, and every effect (frames sent, sockets closed, rows
  written) is explicit state passing over a world record. *)

From Stdlib Require Import ZArith Lia.
From stdpp Require Import base decidable option list gmap strings fin_maps pretty.

Local Open Scope string_scope.
Local Open Scope Z_scope.
Local Open Scope list_scope.
Local Open Scope stdpp_scope.

(** ** JavaScript values that reach the code under study *)

Module Js.

(** Primitive values: what a JSON body can put in a scalar position,
    plus [undefined] for an absent property. *)
Inductive Atom :=
| AUndef
| ANull
| ABool (b : bool)
| ANum (z : Z)
| AStr (s : string).

#[global] Instance Atom_eq_dec : EqDecision Atom.
Proof. solve_decision. Defined.

(** [!!v] of JavaScript. *)
Definition truthy (v : Atom) : bool :=
  match v with
  | AUndef | ANull => false
  | ABool b => b
  | ANum z => negb (Z.eqb z 0)
  | AStr s => negb (String.eqb s "")
  end.

(** [String(v)] and [v.toString()] on the primitives. *)
Definition String (v : Atom) : string :=
  match v with
  | AUndef => "undefined"
  | ANull => "null"
  | ABool true => "true"
  | ABool false => "false"
  | ANum z => pretty z
  | AStr s => s
  end.

(** [a || b] *)
Definition or (a b : Atom) : Atom := if truthy a then a else b.

(** Objects used as records with string keys. *)
Abbreviation Obj := (gmap string Atom).

(** [o.k]: an absent key reads as [undefined]. *)
Definition prop (o : Obj) (k : string) : Atom := default AUndef (o !! k).

(** [k in o] *)
Definition has_key (o : Obj) (k : string) : bool := bool_decide (is_Some (o !! k)).

(** [{...a, ...b}]: the right operand wins on common keys. *)
Definition spread (a b : Obj) : Obj := b ∪ a.

(** What survives [JSON.parse (JSON.stringify o)]: properties whose value
    is [undefined] are not written. *)
Definition json_roundtrip (o : Obj) : Obj := filter (λ kv, kv.2 ≠ AUndef) o.

(** [Number.prototype.toString] then truthiness of a numeric column. *)
Definition truthyZ (z : Z) : bool := negb (Z.eqb z 0).

(** [s.includes(pat)] *)
Definition includes (pat s : string) : bool :=
  match String.index 0 pat s with Some _ => true | None => false end.

End Js.

(** ** Insertion-ordered maps ([Map] of JavaScript) *)

Module JsMap.
Section jsmap.
Context {K V : Type} `{EqDecision K}.

Fixpoint get (k : K) (m : list (K * V)) : option V :=
  match m with
  | [] => None
  | (k', v) :: m' => if decide (k = k') then Some v else get k m'
  end.

Definition has (k : K) (m : list (K * V)) : bool :=
  match get k m with Some _ => true | None => false end.

(** [m.set(k, v)]: an existing key keeps its position. *)
Fixpoint set (k : K) (v : V) (m : list (K * V)) : list (K * V) :=
  match m with
  | [] => [(k, v)]
  | (k', v') :: m' =>
      if decide (k = k') then (k, v) :: m' else (k', v') :: set k v m'
  end.

(** [m.delete(k)] *)
Fixpoint delete (k : K) (m : list (K * V)) : list (K * V) :=
  match m with
  | [] => []
  | (k', v') :: m' =>
      if decide (k = k') then delete k m' else (k', v') :: delete k m'
  end.

Definition keys (m : list (K * V)) : list K := m.*1.

Definition size (m : list (K * V)) : nat := length m.

(** Representation invariant of a [Map]: one entry per key. *)
Definition wf (m : list (K * V)) : Prop := NoDup (keys m).

End jsmap.
End JsMap.

(** ** The real-time fabric (routes module) *)

Module Realtime.

(** [WebSocket.CONNECTING | OPEN | CLOSING | CLOSED] *)
Inductive ReadyState := WS_CONNECTING | WS_OPEN | WS_CLOSING | WS_CLOSED.

#[global] Instance ReadyState_eq_dec : EqDecision ReadyState.
Proof. solve_decision. Defined.

(** Identity of a socket object; the registry stores references. *)
Abbreviation SockId := nat.

(** [interface ExtendedWebSocket]. The last three fields are not
    properties of the object: they say how the transport underneath
    answers [send], [ping] and [close] (whether the call throws). *)
Record ExtendedWebSocket := mkSocket {
  readyState : ReadyState;
  isAlive : option bool;
  ws_userId : option Z;
  ws_canvasId : option Z;
  ws_username : option string;
  send_throws : bool;
  ping_throws : bool;
  close_throws : bool
}.

(** The payloads the server builds; [Date.now()] stamps are left out. *)
Inductive Payload :=
| PEstablished
| PError (error : string)
| PAcknowledged (connectedUsers : list Z)
| PActiveUsers (users : list Z)
| PUser (userId : Z) (username : option string)
| PUserId (userId : Z)
| PTimestamp
| PClient (raw : string).

#[global] Instance Payload_eq_dec : EqDecision Payload.
Proof. solve_decision. Defined.

(** [interface WebSocketMessage], as the server sends it. A [username]
    that is [undefined] is not written by [JSON.stringify]. *)
Record WebSocketMessage := mkMsg {
  msg_type : string;
  msg_payload : Payload;
  msg_canvasId : Z;
  msg_userId : Z;
  msg_username : option string
}.

#[global] Instance WebSocketMessage_eq_dec : EqDecision WebSocketMessage.
Proof. solve_decision. Defined.

(** The result of [JSON.stringify] on a message. *)
Inductive Frame := Stringified (m : WebSocketMessage).

#[global] Instance Frame_eq_dec : EqDecision Frame.
Proof. solve_decision. Defined.

(** What [JSON.parse] finds in a client frame: the declared fields of
    [WebSocketMessage], each possibly absent; the payload is opaque. *)
Record Envelope := mkEnvelope {
  in_type : option string;
  in_payload : string;
  in_canvasId : option Z;
  in_userId : option Z;
  in_username : option string
}.

(** A raw inbound frame: not JSON at all, the JSON literal [null] (on
    which a property read throws), or a value whose properties can be
    read. *)
Inductive Inbound :=
| Unparseable
| ParsedNull
| Parsed (data : Envelope).

(** Observable effects, oldest first in the log. The boolean says
    whether the call returned ([true]) or threw ([false]). *)
Inductive Event :=
| EvStringify (m : WebSocketMessage)
| EvSend (s : SockId) (frame : Frame) (ok : bool)
| EvClose (s : SockId) (code : Z) (reason : string) (ok : bool)
| EvPing (s : SockId) (ok : bool)
| EvTerminate (s : SockId).

#[global] Instance Event_eq_dec : EqDecision Event.
Proof. solve_decision. Defined.

(** Process-wide state: the socket objects, [wss.clients], the
    registry [canvasConnections] and the effect log. *)
Record World := mkWorld {
  sockets : gmap SockId ExtendedWebSocket;
  clients : list SockId;
  canvasConnections : list (Z * list (Z * SockId));
  log : list Event
}.

Definition emit (e : Event) (w : World) : World :=
  mkWorld (sockets w) (clients w) (canvasConnections w) (log w ++ [e]).

Definition with_sockets (f : gmap SockId ExtendedWebSocket → gmap SockId ExtendedWebSocket)
    (w : World) : World :=
  mkWorld (f (sockets w)) (clients w) (canvasConnections w) (log w).

Definition with_registry (f : list (Z * list (Z * SockId)) → list (Z * list (Z * SockId)))
    (w : World) : World :=
  mkWorld (sockets w) (clients w) (f (canvasConnections w)) (log w).

Definition with_clients (f : list SockId → list SockId) (w : World) : World :=
  mkWorld (sockets w) (f (clients w)) (canvasConnections w) (log w).

Definition set_isAlive (b : bool) (k : ExtendedWebSocket) : ExtendedWebSocket :=
  mkSocket (readyState k) (Some b) (ws_userId k) (ws_canvasId k) (ws_username k)
           (send_throws k) (ping_throws k) (close_throws k).

Definition set_readyState (r : ReadyState) (k : ExtendedWebSocket) : ExtendedWebSocket :=
  mkSocket r (isAlive k) (ws_userId k) (ws_canvasId k) (ws_username k)
           (send_throws k) (ping_throws k) (close_throws k).

Definition set_identity (u c : Z) (n : option string) (k : ExtendedWebSocket)
    : ExtendedWebSocket :=
  mkSocket (readyState k) (isAlive k) (Some u) (Some c) n
           (send_throws k) (ping_throws k) (close_throws k).

(** [function getCanvasConnections(canvasId)]: creates the inner map on
    first use. The returned reference is the entry of the registry, so
    the model returns the world and reads the entry with [connectionsOf]. *)
Definition getCanvasConnections (canvasId : Z) (w : World) : World :=
  if JsMap.has canvasId (canvasConnections w) then w
  else with_registry (JsMap.set canvasId []) w.

Definition connectionsOf (canvasId : Z) (w : World) : list (Z * SockId) :=
  default [] (JsMap.get canvasId (canvasConnections w)).

(** A mutation through the reference [getCanvasConnections] returned. *)
Definition update_connections (canvasId : Z)
    (f : list (Z * SockId) → list (Z * SockId)) (w : World) : World :=
  with_registry (JsMap.set canvasId (f (connectionsOf canvasId w))) w.

(** [function isSocketConnected(socket)] *)
Definition isSocketConnected (socket : option ExtendedWebSocket) : bool :=
  match socket with
  | Some k => bool_decide (readyState k = WS_OPEN)
  | None => false
  end.

(** [socket.send(data)] inside a [try]: the boolean is [false] when the
    call threw. *)
Definition socket_send (s : SockId) (frame : Frame) (w : World) : bool * World :=
  match sockets w !! s with
  | Some k => let ok := negb (send_throws k) in (ok, emit (EvSend s frame ok) w)
  | None => (false, w)
  end.

(** [JSON.stringify(m)] followed by [socket.send], both inside one
    [try { } catch { }] whose handler only logs. *)
Definition try_send_json (s : SockId) (m : WebSocketMessage) (w : World) : World :=
  (socket_send s (Stringified m) (emit (EvStringify m) w)).2.

(** [function safeSendMessage(socket, message, userId)]; [message] is a
    string already ([inl]) or an object still to be serialised ([inr]). *)
Definition safeSendMessage (s : SockId) (message : Frame + WebSocketMessage)
    (w : World) : bool * World :=
  if negb (isSocketConnected (sockets w !! s)) then (false, w)
  else match message with
       | inl messageString => socket_send s messageString w
       | inr m => socket_send s (Stringified m) (emit (EvStringify m) w)
       end.

(** Local variables of one [broadcastToCanvas] call. *)
Record Tally := mkTally {
  successCount : nat;
  closedCount : nat;
  skippedCount : nat;
  toRemove : list Z
}.

(** The callback given to [connections.forEach] in [broadcastToCanvas]. *)
Definition broadcast_visit (messageString : Frame) (excludeUserId : option Z)
    (st : Tally * World) (entry : Z * SockId) : Tally * World :=
  let '(t, w) := st in
  let '(userId, s) := entry in
  if bool_decide (excludeUserId = Some userId) then
    (mkTally (successCount t) (closedCount t) (S (skippedCount t)) (toRemove t), w)
  else match sockets w !! s with
  | None =>
      (mkTally (successCount t) (closedCount t) (skippedCount t) (toRemove t ++ [userId]), w)
  | Some k =>
      if negb (isSocketConnected (Some k)) then
        if bool_decide (readyState k = WS_CLOSED ∨ readyState k = WS_CLOSING) then
          (mkTally (successCount t) (S (closedCount t)) (skippedCount t)
                   (toRemove t ++ [userId]), w)
        else (t, w)
      else
        let '(ok, w') := safeSendMessage s (inl messageString) w in
        if ok then
          (mkTally (S (successCount t)) (closedCount t) (skippedCount t) (toRemove t), w')
        else
          (mkTally (successCount t) (closedCount t) (skippedCount t)
                   (toRemove t ++ [userId]), w')
  end.

(** The [forEach] pass of [broadcastToCanvas]. *)
Definition broadcast_pass (messageString : Frame) (excludeUserId : option Z)
    (connections : list (Z * SockId)) (w : World) : Tally * World :=
  foldl (broadcast_visit messageString excludeUserId) (mkTally 0 0 0 [], w) connections.

(** [for (const userId of toRemove) connections.delete(userId)] *)
Definition broadcast_cleanup (canvasId : Z) (toRemove : list Z) (w : World) : World :=
  foldl (λ w userId, update_connections canvasId (JsMap.delete userId) w) w toRemove.

(** [function broadcastToCanvas(canvasId, message, excludeUserId?)] *)
Definition broadcastToCanvas (canvasId : Z) (message : WebSocketMessage)
    (excludeUserId : option Z) (w : World) : World :=
  let w := getCanvasConnections canvasId w in
  let connections := connectionsOf canvasId w in
  if bool_decide (JsMap.size connections = 0%nat) then w
  else
    let w := emit (EvStringify message) w in
    let messageString := Stringified message in
    let '(t, w) := broadcast_pass messageString excludeUserId connections w in
    broadcast_cleanup canvasId (toRemove t) w.

(** [ws.close(code, reason)] inside a [try]: an open socket starts its
    closing handshake. *)
Definition socket_close (s : SockId) (code : Z) (reason : string) (w : World) : World :=
  match sockets w !! s with
  | Some k =>
      if close_throws k then emit (EvClose s code reason false) w
      else
        emit (EvClose s code reason true)
             (with_sockets
                (alter (λ k, if bool_decide (readyState k = WS_OPEN)
                             then set_readyState WS_CLOSING k else k) s) w)
  | None => w
  end.

(** [ws.terminate()]: the connection is destroyed at once; the [close]
    event follows later. *)
Definition socket_terminate (s : SockId) (w : World) : World :=
  emit (EvTerminate s)
       (with_sockets
          (alter (λ k, if bool_decide (readyState k = WS_CLOSED)
                       then k else set_readyState WS_CLOSING k) s) w).

(** [function heartbeat(this)], the [pong] handler. [lastActivity] is
    written here and read nowhere; it is not modelled. *)
Definition heartbeat (s : SockId) (w : World) : World :=
  let w := with_sockets (alter (set_isAlive true) s) w in
  match sockets w !! s with
  | Some k =>
      if bool_decide (readyState k = WS_OPEN) then
        try_send_json s
          (mkMsg "heartbeat-ack" PTimestamp (default 0 (ws_canvasId k))
                 (default 0 (ws_userId k)) (Some "server")) w
      else w
  | None => w
  end.


(** The callback given to [wss.clients.forEach] in [pingInterval]. *)
Definition ping_visit (w : World) (s : SockId) : World :=
  match sockets w !! s with
  | None => w
  | Some k =>
      if bool_decide (isAlive k = Some false) then socket_terminate s w
      else
        let w := with_sockets (alter (set_isAlive false) s) w in
        if ping_throws k then socket_terminate s (emit (EvPing s false) w)
        else emit (EvPing s true) w
  end.

(** One firing of [pingInterval]. *)
Definition pingInterval (w : World) : World := foldl ping_visit w (clients w).

(** [wss.on('connection', ...)] up to the installation of the handlers. *)
Definition onConnection (s : SockId) (send_t ping_t close_t : bool) (w : World) : World :=
  match sockets w !! s with
  | Some _ => w
  | None =>
      let k := mkSocket WS_OPEN (Some true) None None None send_t ping_t close_t in
      let w := with_clients (λ l, l ++ [s]) (with_sockets (insert s k) w) in
      try_send_json s
        (mkMsg "server-connection-established" PEstablished 0 0 (Some "server")) w
  end.

(** [!data.canvasId], [!data.userId] *)
Definition falsyNum (o : option Z) : bool :=
  match o with Some z => Z.eqb z 0 | None => true end.

(** [!data.type] *)
Definition falsyStr (o : option string) : bool :=
  match o with Some s => String.eqb s "" | None => true end.

(** The replacement block of the message handler: look up the entry of
    [(canvasId, userId)], close and remove a different socket found
    there, then store this one. *)
Definition registerConnection (canvasId userId : Z) (s : SockId) (w : World) : World :=
  let w := getCanvasConnections canvasId w in
  let w :=
    match JsMap.get userId (connectionsOf canvasId w) with
    | Some existingConnection =>
        if bool_decide (existingConnection ≠ s) then
          update_connections canvasId (JsMap.delete userId)
            (socket_close existingConnection 1000 "Replaced by newer connection" w)
        else w
    | None => w
    end in
  update_connections canvasId (JsMap.set userId s) w.

(** The [switch (data.type)] of the message handler. *)
Definition dispatch (s : SockId) (data : Envelope) (canvasId userId : Z) (w : World)
    : World :=
  let ty := default "" (in_type data) in
  if String.eqb ty "join-canvas" then
    let canvasUsers := connectionsOf canvasId w in
    let w :=
      if negb (JsMap.has userId canvasUsers)
         || bool_decide (JsMap.get userId canvasUsers ≠ Some s)
      then update_connections canvasId (JsMap.set userId s) w else w in
    let activeUsers :=
      filter (λ id, id ≠ userId) (JsMap.keys (connectionsOf canvasId w)) in
    let w := try_send_json s
               (mkMsg "active-users" (PActiveUsers activeUsers) canvasId 0 (Some "server")) w in
    broadcastToCanvas canvasId
      (mkMsg "user-joined" (PUser userId (in_username data)) canvasId userId
             (in_username data)) (Some userId) w
  else if String.eqb ty "leave-canvas" then
    let w := broadcastToCanvas canvasId
               (mkMsg "user-left" (PUser userId (in_username data)) canvasId userId
                      (in_username data)) (Some userId) w in
    if JsMap.has userId (connectionsOf canvasId w)
    then update_connections canvasId (JsMap.delete userId) w else w
  else if String.eqb ty "canvas-update" then
    broadcastToCanvas canvasId
      (mkMsg "canvas-update" (PClient (in_payload data)) canvasId userId
             (in_username data)) (Some userId) w
  else if String.eqb ty "cursor-position" then
    broadcastToCanvas canvasId
      (mkMsg "cursor-position" (PClient (in_payload data)) canvasId userId
             (in_username data)) (Some userId) w
  else if String.eqb ty "heartbeat" then
    with_sockets (alter (set_isAlive true) s) w
  else w.

(** [typedWs.on('message', ...)]. The closure variables [currentUserId]
    and [currentCanvasId] are assigned and never read; they are not
    modelled. *)
Definition onMessage (s : SockId) (message : Inbound) (w : World) : World :=
  match sockets w !! s with
  | None => w
  | Some k =>
      if negb (bool_decide (readyState k = WS_OPEN)) then w
      else match message with
      | Unparseable =>
          try_send_json s
            (mkMsg "error" (PError "Invalid JSON message format") 0 0 (Some "server")) w
      | ParsedNull => w
      | Parsed data =>
          if falsyNum (in_canvasId data) || falsyNum (in_userId data)
             || falsyStr (in_type data)
          then
            try_send_json s
              (mkMsg "error"
                 (PError "Message missing required fields (canvasId, userId, or type)")
                 (default 0 (in_canvasId data)) (default 0 (in_userId data))
                 (Some "server")) w
          else
            let canvasId := default 0 (in_canvasId data) in
            let userId := default 0 (in_userId data) in
            let w := with_sockets
                       (alter (λ k, set_isAlive true
                                      (set_identity userId canvasId (in_username data) k)) s)
                       w in
            let w := registerConnection canvasId userId s w in
            let w := try_send_json s
                       (mkMsg "connection-acknowledged"
                          (PAcknowledged (JsMap.keys (connectionsOf canvasId w)))
                          canvasId userId (in_username data)) w in
            dispatch s data canvasId userId w
      end
  end.

(** The inner [users.forEach] of the fallback scan in the [close]
    handler. The callback deletes from the map it iterates, so each
    entry is looked up again when its turn comes: an entry deleted
    meanwhile is not visited. *)
Definition close_scan_users (s : SockId) (canvasId : Z) (w : World) : World :=
  foldl (λ w (entry : Z * SockId),
           match JsMap.get entry.1 (connectionsOf canvasId w) with
           | Some socket =>
               if bool_decide (socket = s) then
                 broadcastToCanvas canvasId
                   (mkMsg "user-left" (PUserId entry.1) canvasId entry.1 (Some "")) None
                   (update_connections canvasId (JsMap.delete entry.1) w)
               else w
           | None => w
           end)
        w (connectionsOf canvasId w).

(** The outer [canvasConnections.forEach] of the fallback scan. *)
Definition close_scan (s : SockId) (w : World) : World :=
  foldl (λ w (entry : Z * list (Z * SockId)), close_scan_users s entry.1 w)
        w (canvasConnections w).

(** [typedWs.on('close', ...)] *)
Definition onClose (s : SockId) (w : World) : World :=
  match sockets w !! s with
  | None => w
  | Some k =>
      match ws_userId k, ws_canvasId k with
      | Some userId, Some canvasId =>
          if Js.truthyZ userId && Js.truthyZ canvasId then
            let w := getCanvasConnections canvasId w in
            if JsMap.has userId (connectionsOf canvasId w) then
              broadcastToCanvas canvasId
                (mkMsg "user-left" (PUserId userId) canvasId userId
                       (Some (default "" (ws_username k)))) None
                (update_connections canvasId (JsMap.delete userId) w)
            else close_scan s w
          else close_scan s w
      | _, _ => close_scan s w
      end
  end.

(** What the transport does when a connection ends: the socket becomes
    [CLOSED], leaves [wss.clients], and its [close] handler runs. *)
Definition closeEvent (s : SockId) (w : World) : World :=
  onClose s
    (with_clients (filter (λ c, c ≠ s))
       (with_sockets (alter (set_readyState WS_CLOSED) s) w)).

(** What the event loop can deliver to the server. *)
Inductive Input :=
| Connect (s : SockId) (send_t ping_t close_t : bool)
| Message (s : SockId) (message : Inbound)
| Pong (s : SockId)
| CloseEvent (s : SockId)
| Tick.

Definition step (w : World) (i : Input) : World :=
  match i with
  | Connect s a b c => onConnection s a b c w
  | Message s m => onMessage s m w
  | Pong s => heartbeat s w
  | CloseEvent s => closeEvent s w
  | Tick => pingInterval w
  end.

Definition run (w : World) (inputs : list Input) : World := foldl step w inputs.

(** The server just started: no socket, empty registry. *)
Definition initial : World := mkWorld ∅ [] [] [].

(** *** Vocabulary of the fan-out properties *)

(** The events a call appended to the log. *)
Definition new_events (w w' : World) : list Event := drop (length (log w)) (log w').

Definition is_stringify (e : Event) : bool :=
  match e with EvStringify _ => true | _ => false end.

(** How many times [JSON.stringify] ran. *)
Definition stringify_count (evs : list Event) : nat := length (filter is_stringify evs).

(** The entries of a canvas a broadcast hands to [socket.send]: every
    key but the excluded one whose socket is open. *)
Definition recipient (w : World) (excludeUserId : option Z) (entry : Z * SockId) : bool :=
  negb (bool_decide (excludeUserId = Some entry.1))
  && isSocketConnected (sockets w !! entry.2).

(** The entries a broadcast marks for removal: no socket object, a
    socket that is closed or closing, or an open socket whose [send]
    threw. A socket that is still connecting is not among them. *)
Definition delivery_failed (w : World) (excludeUserId : option Z) (entry : Z * SockId)
    : bool :=
  negb (bool_decide (excludeUserId = Some entry.1))
  && match sockets w !! entry.2 with
     | None => true
     | Some k =>
         match readyState k with
         | WS_CLOSED | WS_CLOSING => true
         | WS_OPEN => send_throws k
         | WS_CONNECTING => false
         end
     end.

(** The [send] event of one recipient. *)
Definition send_event (w : World) (frame : Frame) (entry : Z * SockId) : Event :=
  EvSend entry.2 frame
         (match sockets w !! entry.2 with Some k => negb (send_throws k) | None => false end).

Definition is_send_to (s : SockId) (frame : Frame) (e : Event) : bool :=
  match e with
  | EvSend s' f _ => bool_decide (s' = s) && bool_decide (f = frame)
  | _ => false
  end.

(** Number of [send] calls on socket [s] carrying [frame]. *)
Definition sends_to (s : SockId) (frame : Frame) (evs : list Event) : nat :=
  length (filter (is_send_to s frame) evs).

(** Delivery part of the fan-out contract, for a call that excluded
    user [u] and moved the world from [w] to [w']: the socket registered
    for [u] (and for nobody else on the canvas) gets no frame, every
    open socket registered for another user (and only once on the
    canvas) gets the frame exactly once, and no other frame is sent. *)
Definition fanout_delivery (w : World) (c : Z) (m : WebSocketMessage) (u : Z)
    (w' : World) : Prop :=
  let conns := connectionsOf c w in
  let evs := new_events w w' in
  (∀ s, JsMap.get u conns = Some s →
        (∀ v, v ≠ u → JsMap.get v conns ≠ Some s) →
        ∀ f, sends_to s f evs = 0%nat)
  ∧ (∀ v s k, v ≠ u → JsMap.get v conns = Some s →
              sockets w !! s = Some k → readyState k = WS_OPEN →
              (∀ v', v' ≠ v → JsMap.get v' conns ≠ Some s) →
              sends_to s (Stringified m) evs = 1%nat)
  ∧ (∀ s f ok, EvSend s f ok ∈ evs → f = Stringified m).

(** Clean-up part of the fan-out contract: the [forEach] pass leaves
    the registry as it found it, whatever the entries and the world,
    and after the call the canvas holds exactly the entries whose
    delivery did not fail while every other canvas is as before. *)
Definition fanout_cleanup (w : World) (c : Z) (m : WebSocketMessage) (u : Z)
    (w' : World) : Prop :=
  (∀ conns w0,
      canvasConnections (broadcast_pass (Stringified m) (Some u) conns w0).2
      = canvasConnections w0)
  ∧ connectionsOf c w'
    = filter (λ e, negb (delivery_failed w (Some u) e)) (connectionsOf c w)
  ∧ (∀ c', c ≠ c' → connectionsOf c' w' = connectionsOf c' w).

(** The fan-out contract with the number of serialisations left as a
    parameter. *)
Definition fanout_contract (serialisations : list (Z * SockId) → nat) : Prop :=
  ∀ w c m u,
    JsMap.wf (connectionsOf c w) →
    let w' := broadcastToCanvas c m (Some u) w in
    fanout_delivery w c m u w'
    ∧ stringify_count (new_events w w') = serialisations (connectionsOf c w)
    ∧ fanout_cleanup w c m u w'.

(** The contract as the specification words it: one serialisation for
    every broadcast. *)
Definition fanout_as_specified : Prop := fanout_contract (λ _, 1%nat).

(** *** Vocabulary of the registry and liveness properties *)

(** At most one channel per (canvasId, userId): both levels of the
    registry are maps, and every registered reference is a socket object. *)
Definition registry_wf (w : World) : Prop :=
  JsMap.wf (canvasConnections w)
  ∧ (∀ c, JsMap.wf (connectionsOf c w))
  ∧ (∀ c u s, JsMap.get u (connectionsOf c w) = Some s → is_Some (sockets w !! s)).

(** The registrations of user [u] on canvas [c]. *)
Definition registrations (c u : Z) (w : World) : list (Z * SockId) :=
  filter (λ e, e.1 = u) (connectionsOf c w).

(** The [isAlive] flag of socket [s], if the socket exists and has one. *)
Definition alive_of (w : World) (s : SockId) : option bool :=
  sockets w !! s ≫= isAlive.



(** *** Vocabulary of the session-handler properties *)

(** The validation of the message handler: a frame that is not JSON, or
    a parsed value without a truthy [canvasId], [userId] or [type]. *)
Definition rejected (message : Inbound) : bool :=
  match message with
  | Unparseable => true
  | ParsedNull => false
  | Parsed data =>
      falsyNum (in_canvasId data) || falsyNum (in_userId data) || falsyStr (in_type data)
  end.

(** The minimal shape in the words of the specification: a frame
    carries a message kind, a canvasId, a userId and a username. *)
Definition carries_minimal_shape (message : Inbound) : Prop :=
  match message with
  | Parsed data =>
      is_Some (in_type data) ∧ is_Some (in_canvasId data)
      ∧ is_Some (in_userId data) ∧ is_Some (in_username data)
  | _ => False
  end.

(** Rejection of the frames that [malformed] singles out, arriving on
    an open socket: one [error] envelope goes back to the sender and
    nothing else happens (no socket, client list or registry change). *)
Definition rejection_contract (malformed : Inbound → Prop) : Prop :=
  ∀ w s k message,
    sockets w !! s = Some k → readyState k = WS_OPEN → malformed message →
    let w' := onMessage s message w in
    sockets w' = sockets w
    ∧ clients w' = clients w
    ∧ canvasConnections w' = canvasConnections w
    ∧ ∃ m, msg_type m = "error"
           ∧ new_events w w'
             = [EvStringify m; EvSend s (Stringified m) (negb (send_throws k))].

(** The effect of a join of user [u] on canvas [c], sent by the socket
    [s] that is registered for that pair (the JOINED state), when the
    join kind on the wire is [kind]: [s] stays registered, receives one
    [active-users] reply listing the other user ids of the canvas, and
    every open socket registered for one other user receives one
    [user-joined] event, which [s] itself does not receive. *)
Definition join_contract (kind : string) : Prop :=
  ∀ w s k data c u,
    registry_wf w →
    sockets w !! s = Some k → readyState k = WS_OPEN →
    in_type data = Some kind →
    in_canvasId data = Some c → c ≠ 0 →
    in_userId data = Some u → u ≠ 0 →
    JsMap.get u (connectionsOf c w) = Some s →
    (∀ v, v ≠ u → JsMap.get v (connectionsOf c w) ≠ Some s) →
    let w' := onMessage s (Parsed data) w in
    let evs := new_events w w' in
    let others := filter (λ id, id ≠ u) (JsMap.keys (connectionsOf c w)) in
    let joined := mkMsg "user-joined" (PUser u (in_username data)) c u (in_username data) in
    JsMap.get u (connectionsOf c w') = Some s
    ∧ sends_to s (Stringified (mkMsg "active-users" (PActiveUsers others) c 0
                                     (Some "server"))) evs = 1%nat
    ∧ sends_to s (Stringified joined) evs = 0%nat
    ∧ ∀ v t kt,
        v ≠ u → JsMap.get v (connectionsOf c w) = Some t →
        sockets w !! t = Some kt → readyState kt = WS_OPEN →
        (∀ v', v' ≠ v → JsMap.get v' (connectionsOf c w) ≠ Some t) →
        sends_to t (Stringified joined) evs = 1%nat.

(** No socket is [OPEN] in [w'] that was not [OPEN] in [w]. *)
Definition none_reopened (w w' : World) : Prop :=
  ∀ s k', sockets w' !! s = Some k' → readyState k' = WS_OPEN →
          ∃ k, sockets w !! s = Some k ∧ readyState k = WS_OPEN.

(** [w'] has the clients and the [isAlive] flags of [w], at least its
    socket objects, and no socket it reopened. *)
Record frame (w w' : World) : Prop := mkFrame {
  fr_clients : clients w' = clients w;
  fr_alive : ∀ s, alive_of w' s = alive_of w s;
  fr_heap : ∀ s, is_Some (sockets w !! s) → is_Some (sockets w' !! s);
  fr_open : none_reopened w w'
}.

(** [w'] has the clients of [w], at least its socket objects, and the
    same [isAlive] flag on socket [s]. *)
Definition quiet_for (s : SockId) (w w' : World) : Prop :=
  clients w' = clients w
  ∧ alive_of w' s = alive_of w s
  ∧ ∀ t, is_Some (sockets w !! t) → is_Some (sockets w' !! t).

(** The fan-out looks at [readyState] and at the transport only. *)
Definition same_transport (w1 w2 : World) : Prop :=
  ∀ t, (λ k, (readyState k, send_throws k)) <$> sockets w1 !! t
       = (λ k, (readyState k, send_throws k)) <$> sockets w2 !! t.


(** [wss.clients] is a set of socket objects. *)
Definition clients_wf (w : World) : Prop :=
  NoDup (clients w) ∧ ∀ s, s ∈ clients w → is_Some (sockets w !! s).

(** What one probe cycle does to client [s]: a socket still marked
    not-alive is terminated; any other is sent a ping, and terminated
    at once when the ping throws. *)
Definition probe_events (w : World) (s : SockId) : list Event :=
  match sockets w !! s with
  | None => []
  | Some k =>
      if bool_decide (isAlive k = Some false) then [EvTerminate s]
      else if ping_throws k then [EvPing s false; EvTerminate s]
      else [EvPing s true]
  end.


(** *** Vocabulary of the session properties *)

(** The kinds the [switch] of the message handler fans out. *)
Definition fanned_out (kind : string) : Prop :=
  kind ∈ ["join-canvas"; "leave-canvas"; "canvas-update"; "cursor-position"].

(** Every registration of [w'] was in [w] already. *)
Definition only_removes (w w' : World) : Prop :=
  ∀ c u t, JsMap.get u (connectionsOf c w') = Some t →
           JsMap.get u (connectionsOf c w) = Some t.

(** Socket [s] is registered with no canvas. *)
Definition unregistered (s : SockId) (w : World) : Prop :=
  ∀ c u, JsMap.get u (connectionsOf c w) ≠ Some s.

(** The socket carries a truthy [userId] and [canvasId], and the
    canvas has an entry for the user: the first branch of the [close]
    handler applies. *)
Definition stored_pair_registered (k : ExtendedWebSocket) (w : World) : Prop :=
  ∃ u c, ws_userId k = Some u ∧ ws_canvasId k = Some c ∧ u ≠ 0 ∧ c ≠ 0
         ∧ is_Some (JsMap.get u (connectionsOf c w)).

(** Socket [s] is open and its [send] does not throw. *)
Definition deliverable (s : SockId) (w : World) : Prop :=
  ∃ k, sockets w !! s = Some k ∧ readyState k = WS_OPEN ∧ send_throws k = false.

(** The registry is well formed, socket [s] holds the pair
    (canvasId, userId), and frames can be delivered to it. *)
Definition held (c u : Z) (s : SockId) (w : World) : Prop :=
  registry_wf w ∧ JsMap.get u (connectionsOf c w) = Some s ∧ deliverable s w.

(** The event speaks for the pair (canvasId, userId): a parsed frame
    that names it, or the close of a socket that carries it. *)
Definition speaks_for (c u : Z) (w : World) (i : Input) : Prop :=
  match i with
  | Message _ (Parsed data) => in_canvasId data = Some c ∧ in_userId data = Some u
  | CloseEvent t =>
      ∃ k, sockets w !! t = Some k ∧ ws_canvasId k = Some c ∧ ws_userId k = Some u
  | _ => False
  end.

(** *** Vocabulary of the amended registry and liveness properties *)

(** The copies of one fan-out that socket [s] is handed: one for each
    entry of the canvas, under a key other than the excluded one, that
    holds [s] while [s] is open. *)
Definition copies_for (w : World) (excludeUserId : option Z) (conns : list (Z * SockId))
    (s : SockId) : nat :=
  length (filter (λ e, e.2 = s ∧ recipient w excludeUserId e) conns).




End Realtime.

(** ** The store (class [DatabaseStorage]) *)

Module Storage.
Import Js.

(** *** Tables of [shared/schema.ts] (the columns the code reads or writes) *)

Record CanvasRow := mkCanvas {
  cv_id : Z;
  cv_name : string;
  cv_userId : option Z;
  cv_updatedAt : Z;
  cv_visibility : string;
  cv_isPublic : bool
}.

(** [canvas_elements]; the [jsonb] columns hold objects. *)
Record ElementRow := mkElementRow {
  el_id : Z;
  el_canvasId : Z;
  el_type : string;
  el_element_type : string;
  el_content : Obj;
  el_position : Obj;
  el_size : Obj;
  el_style : Obj;
  el_original_question : string
}.

(** [connections]; [source_id] and [target_id] are nullable. *)
Record ConnectionRow := mkConnectionRow {
  cn_id : Z;
  cn_canvasId : Z;
  cn_sourceId : option Z;
  cn_targetId : option Z;
  cn_type : string;
  cn_animated : bool;
  cn_style : Obj
}.

(** The database and what surrounds it: the tables, the two [serial]
    counters the code depends on, the wall clock read by [new Date()],
    the number of statements issued so far, and the environment's
    answer to the [n]-th statement ([true]: it throws). *)
Record Db := mkDb {
  canvases : list CanvasRow;
  canvas_elements : list ElementRow;
  connections : list ConnectionRow;
  collaborators : list (Z * Z);
  next_element_id : Z;
  next_connection_id : Z;
  clock : Z;
  queries : nat;
  fails : nat → bool
}.

(** No statement ever fails. *)
Definition healthy (db : Db) : Prop := ∀ n, fails db n = false.

(** *** Computations that read and write the database and may throw *)

Definition M (A : Type) : Type := Db → option A * Db.

Definition ret {A} (a : A) : M A := λ db, (Some a, db).

Definition throw {A} : M A := λ db, (None, db).

Definition bind {A B} (m : M A) (f : A → M B) : M B :=
  λ db, match m db with
        | (Some a, db') => f a db'
        | (None, db') => (None, db')
        end.

(** [try { m } catch { handler }]: what [m] wrote before throwing stays. *)
Definition catch {A} (m : M A) (handler : M A) : M A :=
  λ db, match m db with
        | (Some a, db') => (Some a, db')
        | (None, db') => handler db'
        end.

Notation "'let*' x := m 'in' k" := (bind m (λ x, k))
  (at level 10, x name, m at level 100, k at level 200).

(** The statement counter moves on. *)
Definition bump (db : Db) : Db :=
  mkDb (canvases db) (canvas_elements db) (connections db) (collaborators db)
       (next_element_id db) (next_connection_id db) (clock db) (S (queries db)) (fails db).

(** One SQL statement: it is counted, and either throws or runs. *)
Definition statement {A} (run : Db → A * Db) : M A :=
  λ db,
    if fails db (queries db) then (None, bump db)
    else let '(a, db2) := run (bump db) in (Some a, db2).

Definition with_canvases (f : list CanvasRow → list CanvasRow) (db : Db) : Db :=
  mkDb (f (canvases db)) (canvas_elements db) (connections db) (collaborators db)
       (next_element_id db) (next_connection_id db) (clock db) (queries db) (fails db).

Definition with_elements (f : list ElementRow → list ElementRow) (db : Db) : Db :=
  mkDb (canvases db) (f (canvas_elements db)) (connections db) (collaborators db)
       (next_element_id db) (next_connection_id db) (clock db) (queries db) (fails db).

Definition with_connections (f : list ConnectionRow → list ConnectionRow) (db : Db) : Db :=
  mkDb (canvases db) (canvas_elements db) (f (connections db)) (collaborators db)
       (next_element_id db) (next_connection_id db) (clock db) (queries db) (fails db).

(** *** Canvas operations *)

(** [getCanvas(id)] *)
Definition getCanvas (id : Z) : M (option CanvasRow) :=
  statement (λ db, (list_find (λ r, cv_id r = id) (canvases db) ≫= (λ p, Some p.2), db)).

(** [Partial<Canvas>], the argument of [.set(...)]. *)
Record CanvasPatch := mkPatch {
  set_name : option string;
  set_visibility : option string;
  set_isPublic : option bool;
  set_updatedAt : option Z
}.

Definition apply_patch (p : CanvasPatch) (r : CanvasRow) : CanvasRow :=
  mkCanvas (cv_id r) (default (cv_name r) (set_name p)) (cv_userId r)
           (default (cv_updatedAt r) (set_updatedAt p))
           (default (cv_visibility r) (set_visibility p))
           (default (cv_isPublic r) (set_isPublic p)).

(** [UPDATE canvases SET ... WHERE id = ... RETURNING *] *)
Definition update_canvases (id : Z) (p : CanvasPatch) (db : Db) : list CanvasRow * Db :=
  (apply_patch p <$> filter (λ r, cv_id r = id) (canvases db),
   with_canvases (fmap (λ r, if bool_decide (cv_id r = id) then apply_patch p r else r)) db).

(** [updateCanvas(id, data)] *)
Definition updateCanvas (id : Z) (data : CanvasPatch) : M (option CanvasRow) :=
  let* updated := statement (update_canvases id data) in ret (head updated).

(** [updateCanvasVisibility(id, visibility)] *)
Definition updateCanvasVisibility (id : Z) (visibility : string) : M (option CanvasRow) :=
  if negb (bool_decide (visibility ∈ ["private"; "collaborative"; "public"])) then throw
  else
    let isPublic := bool_decide (visibility = "public") in
    λ db,
      (let* updated :=
         statement (update_canvases id
                      (mkPatch None (Some visibility) (Some isPublic) (Some (clock db)))) in
       ret (head updated)) db.

(** [isCollaborator(canvasId, userId)]: an error counts as "no". *)
Definition isCollaborator (canvasId userId : Z) : M bool :=
  catch (statement (λ db, (bool_decide ((canvasId, userId) ∈ collaborators db), db)))
        (ret false).

(** [userHasAccessToCanvas(userId, canvasId)] *)
Definition userHasAccessToCanvas (userId canvasId : Z) : M bool :=
  catch
    (let* canvas := getCanvas canvasId in
     match canvas with
     | None => ret false
     | Some canvas =>
         if bool_decide (cv_userId canvas = Some userId) then ret true
         else if String.eqb (cv_visibility canvas) "public" || cv_isPublic canvas
         then ret true
         else isCollaborator canvasId userId
     end)
    (ret false).

(** *** What a client submits *)

(** [el.data] *)
Record ElementData := mkData {
  d_type : Atom;
  d_originalQuestion : Atom;
  d_content : option Obj
}.

(** One entry of [elements]: an object whose payloads, when present,
    are objects with scalar properties. Payloads sent as JSON text and
    [null] entries are outside the model. *)
Record Element := mkElement {
  e_id : Atom;
  e_type : Atom;
  e_data : option ElementData;
  e_style : option Obj;
  e_position : option Obj;
  e_size : option Obj
}.

(** One entry of [edgeConnections]. *)
Record Edge := mkEdge {
  c_source : Atom;
  c_target : Atom;
  c_type : Atom;
  c_animated : Atom;
  c_style : option Obj
}.

(** *** [replaceCanvasState] *)

(** The two maps of the reconciler: [clientIdToDbId] and [additionalIdMap]. *)
Record IdMaps := mkMaps {
  clientIdToDbId : gmap string Z;
  additionalIdMap : gmap string string
}.

(** [if (o.k) additionalIdMap.set(String(o.k), clientId)] *)
Definition harvest (o : Obj) (k : string) (clientId : string)
    (additional : gmap string string) : gmap string string :=
  if truthy (prop o k) then <[String (prop o k) := clientId]> additional else additional.

(** The alias harvest of one element: [clientId] and [_clientId] of the
    content, then [clientId] of the style. *)
Definition harvest_element (el : Element) (additional : gmap string string)
    : gmap string string :=
  let clientId := String (e_id el) in
  let additional :=
    match e_data el ≫= d_content with
    | Some contentData =>
        harvest contentData "_clientId" clientId
          (harvest contentData "clientId" clientId additional)
    | None => additional
    end in
  match e_style el with
  | Some styleData => harvest styleData "clientId" clientId additional
  | None => additional
  end.

(** The row written for one element, before the store numbers it. *)
Definition element_row (canvasId : Z) (el : Element) (dbId : Z) : ElementRow :=
  let clientId := String (e_id el) in
  let contentType :=
    match e_data el with
    | Some d => if truthy (d_type d) then d_type d else AStr "text"
    | None => AStr "text"
    end in
  let originalQuestion :=
    match e_data el with
    | Some d => if truthy (d_originalQuestion d) then d_originalQuestion d else AStr ""
    | None => AStr ""
    end in
  let styleObj := <["clientId" := AStr clientId]> (default ∅ (e_style el)) in
  let contentObj :=
    <["_clientId" := AStr clientId]>
      (<["clientId" := AStr clientId]> (default ∅ (e_data el ≫= d_content))) in
  let position :=
    default (<["x" := ANum 0]> (<["y" := ANum 0]> ∅)) (e_position el) in
  let size :=
    default (<["width" := ANum 300]> (<["height" := ANum 200]> ∅)) (e_size el) in
  mkElementRow dbId canvasId (String (e_type el)) (String contentType)
               (json_roundtrip contentObj) (json_roundtrip position)
               (json_roundtrip size) (json_roundtrip styleObj)
               (String originalQuestion).

(** [INSERT INTO canvas_elements ... RETURNING id] *)
Definition insert_element (canvasId : Z) (el : Element) : M Z :=
  statement (λ db,
    let dbId := next_element_id db in
    (dbId,
     mkDb (canvases db) (canvas_elements db ++ [element_row canvasId el dbId])
          (connections db) (collaborators db) (dbId + 1) (next_connection_id db)
          (clock db) (queries db) (fails db))).

(** The [for (const el of elements)] loop. *)
Fixpoint insert_elements (canvasId : Z) (elements : list Element) (maps : IdMaps)
    : M IdMaps :=
  match elements with
  | [] => ret maps
  | el :: rest =>
      if negb (truthy (e_type el)) then insert_elements canvasId rest maps
      else
        let clientId := String (e_id el) in
        let additional := harvest_element el (additionalIdMap maps) in
        let* dbId := insert_element canvasId el in
        insert_elements canvasId rest
          (mkMaps (<[clientId := dbId]> (clientIdToDbId maps)) additional)
  end.

(** The elements the loop does not skip. *)
Definition typed (el : Element) : bool := truthy (e_type el).

(** The map [clientIdToDbId] and the aliases once the loop is over, for
    a store that hands out the ids [next], [next + 1], ... *)
Fixpoint element_maps (next : Z) (elements : list Element) (maps : IdMaps) : IdMaps :=
  match elements with
  | [] => maps
  | el :: rest =>
      if negb (truthy (e_type el)) then element_maps next rest maps
      else element_maps (next + 1) rest
             (mkMaps (<[String (e_id el) := next]> (clientIdToDbId maps))
                     (harvest_element el (additionalIdMap maps)))
  end.

(** [resolveClientId(id)] *)
Definition resolveClientId (maps : IdMaps) (id : string) : option string :=
  if bool_decide (is_Some (clientIdToDbId maps !! id)) then Some id
  else additionalIdMap maps !! id.

(** [!resolvedSourceId] on a [string | null]. *)
Definition unresolved (r : option string) : bool :=
  match r with Some s => String.eqb s "" | None => true end.

(** The id a connection's style offers for one endpoint: [idKey]
    ([sourceId] or [targetId]), overridden by [clientKey]. *)
Definition fromStyle (style : option Obj) (idKey clientKey : string) : option string :=
  match style with
  | None => None
  | Some style =>
      let fromId := if truthy (prop style idKey)
                    then Some (String (prop style idKey)) else None in
      if truthy (prop style clientKey) then Some (String (prop style clientKey))
      else fromId
  end.

(** One endpoint in the preprocessing loop: the value of [conn.source]
    (or [conn.target]) when the iteration is over. *)
Definition resolve_endpoint (maps : IdMaps) (original : Atom) (styleId : option string)
    : Atom :=
  if unresolved (resolveClientId maps (String original)) then
    match styleId with
    | Some fromSt =>
        match resolveClientId maps fromSt with
        | Some r => if String.eqb r "" then original else AStr r
        | None => original
        end
    | None => original
    end
  else original.

(** The preprocessing loop body: it assigns to [conn.source] and
    [conn.target]. *)
Definition preprocess (maps : IdMaps) (conn : Edge) : Edge :=
  if negb (truthy (c_source conn)) || negb (truthy (c_target conn)) then conn
  else
    mkEdge (resolve_endpoint maps (c_source conn)
              (fromStyle (c_style conn) "sourceId" "sourceClientId"))
           (resolve_endpoint maps (c_target conn)
              (fromStyle (c_style conn) "targetId" "targetClientId"))
           (c_type conn) (c_animated conn) (c_style conn).

(** The predicate given to [edgeConnections.filter]. *)
Definition valid_connection (maps : IdMaps) (conn : Edge) : bool :=
  truthy (c_source conn) && truthy (c_target conn)
  && bool_decide (is_Some (clientIdToDbId maps !! String (c_source conn)))
  && bool_decide (is_Some (clientIdToDbId maps !! String (c_target conn))).

(** The row written for one valid connection. The spread of
    [conn.style] comes last, so its properties win over the stamps. *)
Definition connection_row (canvasId : Z) (conn : Edge) (sourceDbId targetDbId : Z)
    (id : Z) : ConnectionRow :=
  let style := default ∅ (c_style conn) in
  let stamps : Obj :=
    <["sourceClientId" := AStr (String (c_source conn))]>
    (<["targetClientId" := AStr (String (c_target conn))]>
    (<["sourceDbId" := ANum sourceDbId]>
    (<["targetDbId" := ANum targetDbId]>
    (<["type" := or (c_type conn) (AStr "smoothstep")]>
    (<["stroke" := or (prop style "stroke") (AStr "#6366f1")]>
    (<["strokeWidth" := or (prop style "strokeWidth") (ANum 2)]> ∅)))))) in
  mkConnectionRow id canvasId (Some sourceDbId) (Some targetDbId)
                  (String (or (c_type conn) (AStr "default")))
                  (bool_decide (c_animated conn = ABool true))
                  (json_roundtrip (spread stamps style)).

(** [INSERT INTO connections ...] *)
Definition insert_connection (canvasId : Z) (conn : Edge) (sourceDbId targetDbId : Z)
    : M unit :=
  statement (λ db,
    let id := next_connection_id db in
    (tt,
     mkDb (canvases db) (canvas_elements db)
          (connections db ++ [connection_row canvasId conn sourceDbId targetDbId id])
          (collaborators db) (next_element_id db) (id + 1)
          (clock db) (queries db) (fails db))).

(** The [for (const conn of validConnections)] loop. *)
Fixpoint insert_connections (canvasId : Z) (maps : IdMaps) (valid : list Edge) : M unit :=
  match valid with
  | [] => ret tt
  | conn :: rest =>
      match clientIdToDbId maps !! String (c_source conn),
            clientIdToDbId maps !! String (c_target conn) with
      | Some sourceDbId, Some targetDbId =>
          if negb (truthyZ sourceDbId) || negb (truthyZ targetDbId)
          then insert_connections canvasId maps rest
          else
            let* _ := insert_connection canvasId conn sourceDbId targetDbId in
            insert_connections canvasId maps rest
      | _, _ => insert_connections canvasId maps rest
      end
  end.

(** A valid connection that the loop really inserts: both database ids
    are found and truthy. *)
Definition insertable (maps : IdMaps) (conn : Edge) : bool :=
  match clientIdToDbId maps !! String (c_source conn),
        clientIdToDbId maps !! String (c_target conn) with
  | Some sourceDbId, Some targetDbId => truthyZ sourceDbId && truthyZ targetDbId
  | _, _ => false
  end.

(** The connections that reach the [INSERT], in order. *)
Definition persisted (maps : IdMaps) (edgeConnections : list Edge) : list Edge :=
  filter (insertable maps)
         (filter (valid_connection maps) (preprocess maps <$> edgeConnections)).

(** The row of the [i]-th persisted connection. *)
Definition persisted_row (canvasId : Z) (maps : IdMaps) (next : Z) (i : nat) (conn : Edge)
    : ConnectionRow :=
  connection_row canvasId conn
    (default 0 (clientIdToDbId maps !! String (c_source conn)))
    (default 0 (clientIdToDbId maps !! String (c_target conn)))
    (next + Z.of_nat i).

(** The rows of the elements the loop inserts, numbered from [next]. *)
Definition numbered_element_rows (canvasId next : Z) (elements : list Element)
    : list ElementRow :=
  imap (λ i el, element_row canvasId el (next + Z.of_nat i)) (filter typed elements).

(** The columns and surroundings [replaceCanvasState] only touches in
    its last statement. *)
Record same_env (db db' : Db) : Prop := mkSameEnv {
  se_canvases : canvases db' = canvases db;
  se_collaborators : collaborators db' = collaborators db;
  se_clock : clock db' = clock db;
  se_fails : fails db' = fails db
}.

(** [replaceCanvasState(canvasId, elements, edgeConnections)] *)
Definition replaceCanvasState (canvasId : Z) (elements : list Element)
    (edgeConnections : list Edge) : M bool :=
  catch
    (let* _ := statement (λ db,
                 (tt, with_elements (filter (λ r, el_canvasId r ≠ canvasId)) db)) in
     let* _ := statement (λ db,
                 (tt, with_connections (filter (λ r, cn_canvasId r ≠ canvasId)) db)) in
     let* maps := insert_elements canvasId elements (mkMaps ∅ ∅) in
     let* _ := insert_connections canvasId maps
                 (filter (valid_connection maps) (preprocess maps <$> edgeConnections)) in
     let* _ := (λ db,
                  statement
                    (update_canvases canvasId (mkPatch None None None (Some (clock db))))
                    db) in
     ret true)
    (ret false).

(** The legacy flag agrees with the visibility. *)
Definition public_flag_consistent (r : CanvasRow) : Prop :=
  cv_isPublic r = bool_decide (cv_visibility r = "public").

(** The visibility values the store accepts. *)
Definition visibilities : list string := ["private"; "collaborative"; "public"].

(** *** Vocabulary of the replacement properties *)

(** "Carries a content payload and a node kind", in the words of the
    specification. *)
Definition carries_payload_and_kind (el : Element) : bool :=
  truthy (e_type el) && bool_decide (is_Some (e_data el ≫= d_content)).

(** The skipping policy of the element loop when [kept] says which
    elements are inserted: on a healthy database the call succeeds and
    the canvas holds exactly the rows of the kept elements, in order,
    numbered by the store. *)
Definition skip_contract (kept : Element → bool) : Prop :=
  ∀ db c elements edges,
    healthy db →
    ∃ db',
      replaceCanvasState c elements edges db = (Some true, db')
      ∧ filter (λ r, el_canvasId r = c) (canvas_elements db')
        = imap (λ i el, element_row c el (next_element_id db + Z.of_nat i))
               (filter kept elements).

(** The identifiers one endpoint of a connection offers: its own, then
    the truthy [idKey] and [clientKey] properties of its style. *)
Definition candidates (original : Atom) (style : option Obj) (idKey clientKey : string)
    : list string :=
  String original
  :: match style with
     | Some style =>
         (if truthy (prop style idKey) then [String (prop style idKey)] else [])
         ++ (if truthy (prop style clientKey) then [String (prop style clientKey)] else [])
     | None => []
     end.

(** An identifier leads to an inserted node: directly, or through the
    alias map. *)
Definition leads_to_node (maps : IdMaps) (id : string) : Prop :=
  is_Some (clientIdToDbId maps !! id)
  ∨ ∃ r, additionalIdMap maps !! id = Some r ∧ is_Some (clientIdToDbId maps !! r).

(** Both endpoints of a connection resolve after all fallbacks. *)
Definition resolves (maps : IdMaps) (conn : Edge) : Prop :=
  (∃ id, id ∈ candidates (c_source conn) (c_style conn) "sourceId" "sourceClientId"
         ∧ leads_to_node maps id)
  ∧ (∃ id, id ∈ candidates (c_target conn) (c_style conn) "targetId" "targetClientId"
           ∧ leads_to_node maps id).

End Storage.

(** ** The canvas state endpoints (routes module) *)

Module Routes.
Import Js Storage.

(** *** Reading the state: [GET /api/canvases/:id/state] *)

(** A node as the client receives it. *)
Record NodeOut := mkNodeOut {
  n_id : string;
  n_type : string;
  n_position : Obj;
  n_data_type : Atom;
  n_content : Obj;
  n_originalQuestion : string;
  n_style : Obj;
  n_size : Obj
}.

(** An edge as the client receives it. *)
Record EdgeOut := mkEdgeOut {
  o_id : string;
  o_source : string;
  o_target : string;
  o_type : string;
  o_animated : bool;
  o_style : Obj
}.

(** [SELECT * FROM canvas_elements WHERE canvas_id = id], in table order. *)
Definition select_elements (id : Z) (db : Db) : list ElementRow :=
  filter (λ r, el_canvasId r = id) (canvas_elements db).

(** [ORDER BY c.id ASC] *)
Fixpoint insert_by_id (r : ConnectionRow) (l : list ConnectionRow) : list ConnectionRow :=
  match l with
  | [] => [r]
  | r' :: l' => if Z.leb (cn_id r) (cn_id r') then r :: l else r' :: insert_by_id r l'
  end.

Definition order_by_id (l : list ConnectionRow) : list ConnectionRow :=
  foldr insert_by_id [] l.

(** One row of the connection query: the connection and the elements of
    the same canvas its [source_id] and [target_id] are joined with
    ([id] is the primary key of [canvas_elements], so a [LEFT JOIN]
    yields one row per connection). *)
Record JoinedConnection := mkJoined {
  j_conn : ConnectionRow;
  j_source_el : option ElementRow;
  j_target_el : option ElementRow
}.

Definition join_element (elements : list ElementRow) (ref : option Z) : option ElementRow :=
  ref ≫= λ id, list_find (λ r, el_id r = id) elements ≫= λ p, Some p.2.

Definition select_connections (id : Z) (db : Db) : list JoinedConnection :=
  let element_mapping := select_elements id db in
  (λ c, mkJoined c (join_element element_mapping (cn_sourceId c))
                   (join_element element_mapping (cn_targetId c)))
    <$> order_by_id (filter (λ r, cn_canvasId r = id) (connections db)).

(** The client id the first pass derives for a stored element. *)
Definition element_clientId (el : ElementRow) : Atom :=
  let styleObj := el_style el in
  let originalClientId :=
    if has_key styleObj "clientId" && truthy (prop styleObj "clientId")
    then prop styleObj "clientId"
    else if has_key styleObj "originalId" && truthy (prop styleObj "originalId")
    then prop styleObj "originalId"
    else ANull in
  let clientId := if truthy originalClientId then originalClientId
                  else AStr (pretty (el_id el)) in
  let contentObj := el_content el in
  if has_key contentObj "_clientId" && truthy (prop contentObj "_clientId")
     && negb (truthy originalClientId)
  then prop contentObj "_clientId" else clientId.

(** [elementIdMap], built by the first pass. *)
Definition elementIdMap (elements : list ElementRow) : gmap Z Atom :=
  foldl (λ m el, <[el_id el := element_clientId el]> m) ∅ elements.

(** The React Flow node type chosen for a stored element. *)
Definition node_type (el : ElementRow) : string :=
  let et := el_element_type el in
  let nodeType :=
    if String.eqb et "text" then "textElement"
    else if String.eqb et "image" then "imageElement"
    else if String.eqb et "equation" then "equationElement"
    else if String.eqb et "diagram" || String.eqb et "mindmap" then "diagramElement"
    else if String.eqb et "code" then "codeElement"
    else if String.eqb et "resource" || String.eqb et "resources" then "resourceElement"
    else "textElement" in
  let ct := prop (el_content el) "type" in
  let nodeType :=
    if truthy ct && String.eqb et "" then
      if bool_decide (ct = AStr "text") then "textElement"
      else if bool_decide (ct = AStr "image") then "imageElement"
      else if bool_decide (ct = AStr "equation") then "equationElement"
      else if bool_decide (ct = AStr "diagram") then "diagramElement"
      else if bool_decide (ct = AStr "code") then "codeElement"
      else if bool_decide (ct = AStr "resource") || bool_decide (ct = AStr "resources")
      then "resourceElement"
      else nodeType
    else nodeType in
  let ty := el_type el in
  if includes "textElement" ty then "textElement"
  else if includes "imageElement" ty then "imageElement"
  else if includes "equationElement" ty then "equationElement"
  else if includes "diagramElement" ty then "diagramElement"
  else if includes "codeElement" ty then "codeElement"
  else if includes "resourceElement" ty then "resourceElement"
  else nodeType.

(** The callback of [elementsResult.map]. *)
Definition node_out (el : ElementRow) : NodeOut :=
  let ct := prop (el_content el) "type" in
  mkNodeOut (pretty (el_id el)) (node_type el) (el_position el)
            (if truthy ct then ct
             else if String.eqb (el_element_type el) "" then AStr "text"
             else AStr (el_element_type el))
            (el_content el) (el_original_question el) (el_style el) (el_size el).

(** The first truthy property among [keys], as text. *)
Fixpoint first_truthy (o : Obj) (keys : list string) : option string :=
  match keys with
  | [] => None
  | k :: rest =>
      if has_key o k && truthy (prop o k) then Some (String (prop o k))
      else first_truthy o rest
  end.

(** [!source || source === 'undefined'] *)
Definition missing (v : Atom) : bool :=
  negb (truthy v) || bool_decide (v = AStr "undefined").

(** The endpoint the reader settles on: the connection's style first,
    then the joined element's content, then its style, then the
    numeric column through [elementIdMap]. *)
Definition endpoint (idMap : gmap Z Atom) (parsedStyle : Obj)
    (styleKeys : list string) (joined : option ElementRow) (ref : option Z) : Atom :=
  let v := AStr (default "" (first_truthy parsedStyle styleKeys)) in
  let v :=
    match joined with
    | Some el =>
        if missing v then
          if truthy (prop (el_content el) "clientId")
          then AStr (String (prop (el_content el) "clientId"))
          else if truthy (prop (el_content el) "_clientId")
          then AStr (String (prop (el_content el) "_clientId"))
          else v
        else v
    | None => v
    end in
  let v :=
    match joined with
    | Some el =>
        if missing v && truthy (prop (el_style el) "clientId")
        then AStr (String (prop (el_style el) "clientId")) else v
    | None => v
    end in
  match ref with
  | Some id =>
      if missing v && truthyZ id then
        match idMap !! id with
        | Some clientId => clientId
        | None => AStr (pretty id)
        end
      else v
  | None => v
  end.

(** The callback of [connectionsResult.map]; [None] is the [null] that
    [.filter(Boolean)] removes. *)
Definition edge_out (idMap : gmap Z Atom) (j : JoinedConnection) : option EdgeOut :=
  let conn := j_conn j in
  let parsedStyle := cn_style conn in
  let source := endpoint idMap parsedStyle ["sourceClientId"; "sourceId"; "source"]
                         (j_source_el j) (cn_sourceId conn) in
  let target := endpoint idMap parsedStyle ["targetClientId"; "targetId"; "target"]
                         (j_target_el j) (cn_targetId conn) in
  if missing source || missing target then None
  else
    Some (mkEdgeOut (pretty (cn_id conn)) (String source) (String target)
            (if String.eqb (cn_type conn) "" then "smoothstep" else cn_type conn)
            (cn_animated conn)
            (<["strokeWidth" := or (prop parsedStyle "strokeWidth") (ANum 2)]>
               (<["stroke" := or (prop parsedStyle "stroke") (AStr "#6366f1")]>
                  (delete "target" (delete "source" parsedStyle))))).

(** What the handler computes from the two query results. *)
Definition canvas_state (id : Z) (db : Db) : list NodeOut * list EdgeOut :=
  let elementsResult := select_elements id db in
  let connectionsResult := select_connections id db in
  let idMap := elementIdMap elementsResult in
  (node_out <$> elementsResult, omap (edge_out idMap) connectionsResult).

(** *** HTTP *)

Record Request := mkRequest {
  req_authenticated : bool;
  req_param_id : option Z;
  req_user_id : Z;
  req_user_isAdmin : bool;
  req_elements : option (list Element);
  req_connections : option (list Edge)
}.

Inductive Body :=
| BMessage (message : string)
| BState (elements : list NodeOut) (connections : list EdgeOut)
| BSaved (success : bool)
| BPartial (partial : bool).

Record Response := mkResponse { status : Z; body : Body }.

(** The handler of [GET /api/canvases/:id/state]. *)
Definition getCanvasState (req : Request) : M Response :=
  catch
    (if negb (req_authenticated req) then ret (mkResponse 401 (BMessage "Unauthorized"))
     else match req_param_id req with
     | None => ret (mkResponse 400 (BMessage "Invalid ID"))
     | Some id =>
         let* canvas := getCanvas id in
         match canvas with
         | None => ret (mkResponse 404 (BMessage "Canvas not found"))
         | Some canvas =>
             let* hasAccess := userHasAccessToCanvas (req_user_id req) id in
             if negb hasAccess && negb (req_user_isAdmin req) then
               ret (mkResponse 403
                      (BMessage "You don't have permission to access this whiteboard"))
             else
               let* elementsResult := statement (λ db, (select_elements id db, db)) in
               let* connectionsResult := statement (λ db, (select_connections id db, db)) in
               let idMap := elementIdMap elementsResult in
               ret (mkResponse 200
                      (BState (node_out <$> elementsResult)
                              (omap (edge_out idMap) connectionsResult)))
         end
     end)
    (ret (mkResponse 500 (BMessage "Failed to fetch canvas state"))).

(** *** Saving the state: [PUT /api/canvases/:id/state] *)

(** The callback of [elements.map] that builds [enhancedElements]. *)
Definition enhance_element (element : Element) : Element :=
  let elementId := AStr (String (e_id element)) in
  let style :=
    <["originalId" := elementId]>
      (<["clientId" := elementId]> (default ∅ (e_style element))) in
  let stamp (content : Obj) : Obj :=
    <["_clientId" := elementId]> (<["clientId" := elementId]> content) in
  let data :=
    match e_data element with
    | Some d => mkData (d_type d) (d_originalQuestion d)
                       (Some (stamp (default ∅ (d_content d))))
    | None => mkData (AStr "text") AUndef (Some (stamp ∅))
    end in
  mkElement (e_id element) (e_type element) (Some data) (Some style)
            (e_position element) (e_size element).

(** The callback of [connections.map] that builds [enhancedConnections]. *)
Definition enhance_connection (conn : Edge) : Edge :=
  let source := if truthy (c_source conn) then AStr (String (c_source conn))
                else c_source conn in
  let target := if truthy (c_target conn) then AStr (String (c_target conn))
                else c_target conn in
  let style := default ∅ (c_style conn) in
  let style' : Obj :=
    <["strokeWidth" := or (prop style "strokeWidth") (ANum 2)]>
    (<["stroke" := or (prop style "stroke") (AStr "#6366f1")]>
    (<["type" := or (c_type conn) (AStr "smoothstep")]>
    (<["targetClientId" := target]>
    (<["sourceClientId" := source]>
    (<["targetId" := target]>
    (<["sourceId" := source]>
    (<["target" := target]>
    (<["source" := source]> style)))))))) in
  mkEdge source target (c_type conn) (c_animated conn) (Some style').

(** The [try] around [replaceCanvasState] and its [catch]: the save,
    and on failure the timestamp-only fallback. *)
Definition save_or_fallback (id : Z) (elements : list Element) (connections : list Edge)
    : M Response :=
  catch
    (let* success := replaceCanvasState id elements connections in
     if success then ret (mkResponse 200 (BSaved true)) else throw)
    (catch
       (let* _ := (λ db, updateCanvas id (mkPatch None None None (Some (clock db))) db) in
        ret (mkResponse 207 (BPartial true)))
       (ret (mkResponse 500 (BMessage "Database error")))).

(** The handler of [PUT /api/canvases/:id/state]. *)
Definition putCanvasState (req : Request) : M Response :=
  catch
    (if negb (req_authenticated req) then ret (mkResponse 401 (BMessage "Unauthorized"))
     else match req_param_id req with
     | None => ret (mkResponse 400 (BMessage "Invalid ID"))
     | Some id =>
         let* canvas := getCanvas id in
         match canvas with
         | None => ret (mkResponse 404 (BMessage "Canvas not found"))
         | Some canvas =>
             let isOwner := bool_decide (cv_userId canvas = Some (req_user_id req)) in
             let isAdmin := req_user_isAdmin req in
             let* isCollab := isCollaborator id (req_user_id req) in
             if negb isOwner && negb isAdmin && negb isCollab then
               ret (mkResponse 403
                      (BMessage "You don't have permission to save this whiteboard"))
             else match req_elements req, req_connections req with
             | None, _ => ret (mkResponse 400 (BMessage "Invalid elements array"))
             | Some _, None => ret (mkResponse 400 (BMessage "Invalid connections array"))
             | Some elements, Some connections =>
                 save_or_fallback id (enhance_element <$> elements)
                                  (enhance_connection <$> connections)
             end
         end
     end)
    (ret (mkResponse 500 (BMessage "Failed to save canvas state"))).

(** *** Vocabulary of the round trip *)

(** The value names an element of the list by its ephemeral identifier. *)
Definition names_node (elements : list Element) (v : Atom) : Prop :=
  ∃ el, el ∈ elements ∧ String (e_id el) = String v.

(** The style of a connection does not contradict its endpoint: the
    property [key] is absent or is the endpoint's identifier. *)
Definition style_agrees (key : string) (v : Atom) (style : option Obj) : Prop :=
  match style ≫= (λ o, o !! key) with
  | None => True
  | Some x => x = AStr (String v)
  end.

(** A connection fit for the round trip: truthy endpoints that are not
    the text [undefined], that name elements of the list, and that its
    style does not contradict. *)
Definition roundtrip_ready (elements : list Element) (conn : Edge) : Prop :=
  truthy (c_source conn) = true ∧ truthy (c_target conn) = true
  ∧ String (c_source conn) ≠ "undefined" ∧ String (c_target conn) ≠ "undefined"
  ∧ names_node elements (c_source conn) ∧ names_node elements (c_target conn)
  ∧ style_agrees "sourceClientId" (c_source conn) (c_style conn)
  ∧ style_agrees "targetClientId" (c_target conn) (c_style conn).

(** The ephemeral identifiers a read returns: the stamp of every node
    and the endpoints of every edge. *)
Definition read_identities (state : list NodeOut * list EdgeOut)
    : list Atom * list (string * string) :=
  ((λ n, prop (n_style n) "clientId") <$> state.1,
   (λ o, (o_source o, o_target o)) <$> state.2).

(** The ephemeral identifiers of what was submitted. *)
Definition submitted_identities (elements : list Element) (edges : list Edge)
    : list Atom * list (string * string) :=
  ((λ el, AStr (String (e_id el))) <$> elements,
   (λ conn, (String (c_source conn), String (c_target conn))) <$> edges).

(** The round trip for the submissions [admissible] accepts: on a
    healthy database whose ids are positive, the replacement succeeds
    and the read returns the submitted identities. *)
Definition roundtrip_contract (admissible : list Element → list Edge → Prop) : Prop :=
  ∀ db c elements edges,
    healthy db → 0 < next_element_id db →
    admissible elements edges →
    ∃ db',
      replaceCanvasState c elements edges db = (Some true, db')
      ∧ read_identities (canvas_state c db') = submitted_identities elements edges.

(** The specification's wording: every edge's endpoints name elements
    of the node list. *)
Definition roundtrip_as_specified : Prop :=
  roundtrip_contract
    (λ elements edges,
       Forall (λ conn, names_node elements (c_source conn)
                       ∧ names_node elements (c_target conn)) edges).

(** *** Vocabulary of the save properties *)

(** The save reports a failed replacement as [answer]. *)
Definition failure_answer (answer : Db → Response) : Prop :=
  ∀ id elements connections db r db1,
    replaceCanvasState id elements connections db = (r, db1) →
    r ≠ Some true →
    (save_or_fallback id elements connections db).1 = Some (answer db1).

(** The specification's wording: a failed replacement is always
    answered with the partial-failure status. *)
Definition failure_always_partial : Prop :=
  failure_answer (λ _, mkResponse 207 (BPartial true)).

End Routes.

(** ** Canvases: deletion, access and visibility (class [DatabaseStorage] and routes module) *)

Module Canvases.
Import Js Storage Routes.

(** *** More operations of the store *)

Definition with_collaborators (f : list (Z * Z) → list (Z * Z)) (db : Db) : Db :=
  mkDb (canvases db) (canvas_elements db) (connections db) (f (collaborators db))
       (next_element_id db) (next_connection_id db) (clock db) (queries db) (fails db).

(** [getCanvasElementsByCanvasId(canvasId)]: an error counts as no row. *)
Definition getCanvasElementsByCanvasId (canvasId : Z) : M (list ElementRow) :=
  catch (statement (λ db, (select_elements canvasId db, db))) (ret []).

(** [getConnectionsByCanvasId(canvasId)]: the query of the state
    handler; an error counts as no row. *)
Definition getConnectionsByCanvasId (canvasId : Z) : M (list JoinedConnection) :=
  catch (statement (λ db, (select_connections canvasId db, db))) (ret []).

(** [deleteCanvasElementsByCanvasId(canvasId)] *)
Definition deleteCanvasElementsByCanvasId (canvasId : Z) : M bool :=
  catch
    (let* _ := statement (λ db,
                 (tt, with_elements (filter (λ r, el_canvasId r ≠ canvasId)) db)) in
     ret true)
    (ret false).

(** [deleteConnectionsByCanvasId(canvasId)] *)
Definition deleteConnectionsByCanvasId (canvasId : Z) : M bool :=
  catch
    (let* _ := statement (λ db,
                 (tt, with_connections (filter (λ r, cn_canvasId r ≠ canvasId)) db)) in
     ret true)
    (ret false).

(** [deleteCanvas(id)]: the results of the first two calls are not
    looked at, the error of the third statement is caught and logged,
    the last statement is not guarded. *)
Definition deleteCanvas (id : Z) : M bool :=
  let* _ := deleteCanvasElementsByCanvasId id in
  let* _ := deleteConnectionsByCanvasId id in
  let* _ := catch (statement (λ db,
                     (tt, with_collaborators (filter (λ p, p.1 ≠ id)) db)))
                  (ret tt) in
  let* deleted := statement (λ db,
                    (filter (λ r, cv_id r = id) (canvases db),
                     with_canvases (filter (λ r, cv_id r ≠ id)) db)) in
  ret (bool_decide (deleted ≠ [])).

(** *** Handlers *)

(** What a handler answers: a status with a message, a status with a
    message that ends with the text of the error caught, a canvas, or
    [{ success: true }]; the last two go out with status 200. *)
Inductive Reply :=
| Answer (status : Z) (message : string)
| Failed (status : Z) (message : string)
| CanvasJson (canvas : CanvasRow)
| Success.

Definition reply_status (r : Reply) : Z :=
  match r with
  | Answer status _ | Failed status _ => status
  | CanvasJson _ | Success => 200
  end.

(** [canvas.userId !== req.user!.id && !req.user!.isAdmin] *)
Definition not_owner_nor_admin (req : Request) (canvas : CanvasRow) : bool :=
  negb (bool_decide (cv_userId canvas = Some (req_user_id req)))
  && negb (req_user_isAdmin req).

(** The handler of [GET /api/canvases/:id]. *)
Definition getCanvasById (req : Request) : M Reply :=
  catch
    (if negb (req_authenticated req) then ret (Answer 401 "Unauthorized")
     else match req_param_id req with
     | None => ret (Answer 400 "Invalid ID")
     | Some id =>
         let* canvas := getCanvas id in
         match canvas with
         | None => ret (Answer 404 ("Canvas with ID " ++ pretty id ++ " not found"))
         | Some canvas =>
             let* hasAccess := userHasAccessToCanvas (req_user_id req) id in
             if negb hasAccess && negb (req_user_isAdmin req)
             then ret (Answer 403 "Forbidden")
             else ret (CanvasJson canvas)
         end
     end)
    (ret (Failed 500 "Failed to fetch canvas: ")).

(** The handler of [DELETE /api/canvases/:id]. *)
Definition deleteCanvasById (req : Request) : M Reply :=
  catch
    (if negb (req_authenticated req) then ret (Answer 401 "Unauthorized")
     else match req_param_id req with
     | None => ret (Answer 400 "Invalid ID")
     | Some id =>
         let* canvas := getCanvas id in
         match canvas with
         | None => ret (Answer 404 ("Canvas with ID " ++ pretty id ++ " not found"))
         | Some canvas =>
             if not_owner_nor_admin req canvas then ret (Answer 403 "Forbidden")
             else
               let* success := deleteCanvas id in
               if negb success
               then ret (Answer 404 ("Canvas with ID " ++ pretty id ++ " not found"))
               else ret Success
         end
     end)
    (ret (Failed 500 "Failed to delete canvas: ")).

(** [['private', 'collaborative', 'public'].includes(visibility)] on a
    value of the request body. *)
Definition accepted_visibility (visibility : Atom) : bool :=
  match visibility with
  | AStr v => bool_decide (v ∈ ["private"; "collaborative"; "public"])
  | _ => false
  end.

(** The handler of [PUT /api/canvases/:id/visibility]; [visibility] is
    [req.body.visibility]. *)
Definition putCanvasVisibility (req : Request) (visibility : Atom) : M Reply :=
  catch
    (if negb (req_authenticated req) then ret (Answer 401 "Unauthorized")
     else match req_param_id req with
     | None => ret (Answer 400 "Invalid canvas ID")
     | Some id =>
         if negb (truthy visibility) || negb (accepted_visibility visibility) then
           ret (Answer 400
                  "Invalid visibility value. Must be 'private', 'collaborative', or 'public'")
         else
           let* canvas := getCanvas id in
           match canvas with
           | None => ret (Answer 404 "Canvas not found")
           | Some canvas =>
               if not_owner_nor_admin req canvas
               then ret (Answer 403 "Only the canvas owner can update visibility")
               else
                 let* updatedCanvas := updateCanvasVisibility id (String visibility) in
                 match updatedCanvas with
                 | None => ret (Answer 404 "Canvas not found")
                 | Some updatedCanvas => ret (CanvasJson updatedCanvas)
                 end
           end
     end)
    (ret (Failed 500 "Failed to update canvas visibility: ")).

(** *** Vocabulary *)

(** The row [getCanvas(id)] finds. *)
Definition find_canvas (id : Z) (db : Db) : option CanvasRow :=
  list_find (λ r, cv_id r = id) (canvases db) ≫= (λ p, Some p.2).

(** The grounds on which [userHasAccessToCanvas] grants access: owner,
    public by either column, or collaborator. *)
Definition may_view (userId : Z) (canvas : CanvasRow) (db : Db) : bool :=
  bool_decide (cv_userId canvas = Some userId)
  || String.eqb (cv_visibility canvas) "public" || cv_isPublic canvas
  || bool_decide ((cv_id canvas, userId) ∈ collaborators db).

(** The tables of [db'] are those of [db]; statements were only counted. *)
Record read_only (db db' : Db) : Prop := mkReadOnly {
  ro_canvases : canvases db' = canvases db;
  ro_elements : canvas_elements db' = canvas_elements db;
  ro_connections : connections db' = connections db;
  ro_collaborators : collaborators db' = collaborators db;
  ro_next_element : next_element_id db' = next_element_id db;
  ro_next_connection : next_connection_id db' = next_connection_id db;
  ro_clock : clock db' = clock db;
  ro_fails : fails db' = fails db
}.

(** The rows of the other canvases, table by table. *)
Definition elsewhere (id : Z) (db : Db)
    : list CanvasRow * list ElementRow * list ConnectionRow * list (Z * Z) :=
  (filter (λ r, cv_id r ≠ id) (canvases db),
   filter (λ r, el_canvasId r ≠ id) (canvas_elements db),
   filter (λ r, cn_canvasId r ≠ id) (connections db),
   filter (λ p, p.1 ≠ id) (collaborators db)).

(** A computation that never writes to a table. *)
Definition never_writes {A} (m : M A) : Prop := ∀ db, read_only db (m db).2.

(** A computation that always answers. *)
Definition never_throws {A} (m : M A) : Prop := ∀ db, is_Some (m db).1.

(** The requester may save the state of the canvas: owner, admin or
    collaborator. *)
Definition may_save (req : Request) (canvas : CanvasRow) (db : Db) : bool :=
  bool_decide (cv_userId canvas = Some (req_user_id req))
  || req_user_isAdmin req
  || bool_decide ((cv_id canvas, req_user_id req) ∈ collaborators db).

(** The requester may delete the canvas or change its visibility:
    authenticated, and owner of the canvas named by the request or admin. *)
Definition may_manage (req : Request) (db : Db) : bool :=
  req_authenticated req
  && match req_param_id req with
     | Some id =>
         match find_canvas id db with
         | Some canvas => negb (not_owner_nor_admin req canvas)
         | None => false
         end
     | None => false
     end.

(** What [GET /api/canvases/:id] answers when no statement fails. *)
Definition getCanvasById_answer (req : Request) (db : Db) : Reply :=
  if negb (req_authenticated req) then Answer 401 "Unauthorized"
  else match req_param_id req with
  | None => Answer 400 "Invalid ID"
  | Some id =>
      match find_canvas id db with
      | None => Answer 404 ("Canvas with ID " ++ pretty id ++ " not found")
      | Some canvas =>
          if negb (may_view (req_user_id req) canvas db) && negb (req_user_isAdmin req)
          then Answer 403 "Forbidden"
          else CanvasJson canvas
      end
  end.

(** The four tables. *)
Definition tables (db : Db)
    : list CanvasRow * list ElementRow * list ConnectionRow * list (Z * Z) :=
  (canvases db, canvas_elements db, connections db, collaborators db).

(** The requester may save the state of the canvas named by the
    request: authenticated, and owner, admin or collaborator. *)
Definition may_save_state (req : Request) (db : Db) : bool :=
  req_authenticated req
  && match req_param_id req with
     | Some id =>
         match find_canvas id db with
         | Some canvas => may_save req canvas db
         | None => false
         end
     | None => false
     end.

(** A computation that writes to the rows of canvas [id] only. *)
Definition writes_only (id : Z) {A} (m : M A) : Prop :=
  ∀ db, elsewhere id (m db).2 = elsewhere id db.

End Canvases.

(** ** Concrete scenarios *)

Module Scenarios.
Import Js Realtime Storage Routes.

(** A well-formed envelope. *)
Definition envelope (kind : string) (canvasId userId : Z) : Envelope :=
  mkEnvelope (Some kind) "{}" (Some canvasId) (Some userId) (Some "ada").

(** The same envelope without a username. *)
Definition anonymous_envelope (kind : string) (canvasId userId : Z) : Envelope :=
  mkEnvelope (Some kind) "{}" (Some canvasId) (Some userId) None.

(** One socket connected, nothing registered. *)
Definition one_connected : list Input := [Connect 1%nat false false false].

(** Sockets 1 and 2 joined canvas 5 as users 7 and 8. *)
Definition two_joined : list Input :=
  [Connect 1%nat false false false;
   Connect 2%nat false false false;
   Message 1%nat (Parsed (envelope "join-canvas" 5 7));
   Message 2%nat (Parsed (envelope "join-canvas" 5 8))].

(** Socket 1 joined canvas 5 as user 7, then socket 2 connected. *)
Definition one_joined_one_new : list Input :=
  [Connect 1%nat false false false;
   Message 1%nat (Parsed (envelope "join-canvas" 5 7));
   Connect 2%nat false false false].

(** A message to fan out. *)
Definition cursor_moved : WebSocketMessage :=
  mkMsg "cursor-position" (PClient "{}") 5 7 (Some "ada").

(** A database with canvas 1 and nothing on it; no statement fails. *)
Definition empty_canvas_db (failing : nat → bool) : Db :=
  mkDb [mkCanvas 1 "sketch" (Some 7) 0 "private" false] [] [] [] 1 1 1000 0%nat failing.

Definition never : nat → bool := λ _, false.
Definition always : nat → bool := λ _, true.
Definition first_only : nat → bool := λ n, bool_decide (n = 0%nat).

(** A text node with the given id, with a content payload. *)
Definition text_node (id : string) : Element :=
  mkElement (AStr id) (AStr "textElement")
            (Some (mkData (AStr "text") AUndef (Some {["text" := AStr "hello"]})))
            None None None.

(** A node with a kind and no [data] at all. *)
Definition bare_node (id : string) : Element :=
  mkElement (AStr id) (AStr "textElement") None None None None.

(** A node without a kind. *)
Definition kindless_node (id : string) : Element :=
  mkElement (AStr id) AUndef
            (Some (mkData (AStr "text") AUndef (Some {["text" := AStr "hello"]})))
            None None None.

(** An edge between two ids, without style. *)
Definition plain_edge (source target : string) : Edge :=
  mkEdge (AStr source) (AStr target) AUndef AUndef None.

(** An edge whose style carries another [sourceClientId]. *)
Definition restyled_edge (source target stale : string) : Edge :=
  mkEdge (AStr source) (AStr target) AUndef AUndef
         (Some {["sourceClientId" := AStr stale]}).

(** Socket 1 connected and went through one probe cycle. *)
Definition one_probed : list Input := one_connected ++ [Tick].

(** Socket 1 joined canvas 5 and then canvas 6 as user 7, and left
    canvas 6. *)
Definition moved_on : list Input :=
  [Connect 1%nat false false false;
   Message 1%nat (Parsed (envelope "join-canvas" 5 7));
   Message 1%nat (Parsed (envelope "join-canvas" 6 7));
   Message 1%nat (Parsed (envelope "leave-canvas" 6 7))].

(** Socket 1 spoke as user 7 and then as user 8 of canvas 5, socket 2
    as user 9: socket 1 holds two entries of the canvas. *)
Definition shared_socket : list Input :=
  [Connect 1%nat false false false;
   Connect 2%nat false false false;
   Message 1%nat (Parsed (envelope "join-canvas" 5 7));
   Message 1%nat (Parsed (envelope "join-canvas" 5 8));
   Message 2%nat (Parsed (envelope "join-canvas" 5 9))].



(** Canvas 1 of user 7 is private, holds one element and has user 8
    as collaborator; canvas 2 of user 9 is public and holds one
    element. *)
Definition shared_db (failing : nat → bool) : Db :=
  mkDb [mkCanvas 1 "sketch" (Some 7) 0 "private" false;
        mkCanvas 2 "atlas" (Some 9) 0 "public" true]
       [mkElementRow 1 1 "text" "textElement" ∅ ∅ ∅ ∅ "";
        mkElementRow 2 2 "text" "textElement" ∅ ∅ ∅ ∅ ""]
       [] [(1, 8)] 3 1 1000 0%nat failing.

(** A request of user [userId], who is no admin, about canvas [id],
    without body. *)
Definition request (userId id : Z) : Request :=
  mkRequest true (Some id) userId false None None.

(** The same requester submits one text node and no edge. *)
Definition save_request (userId id : Z) : Request :=
  mkRequest true (Some id) userId false (Some [text_node "a"]) (Some []).

End Scenarios.

(** * Properties *)

(** ** Lists *)

Module ListFacts.
Section filter.
Context {A : Type}.

Lemma filter_ext_in (P Q : A → Prop) `{!∀ x, Decision (P x), !∀ x, Decision (Q x)}
    (l : list A) :
  (∀ x, x ∈ l → (P x ↔ Q x)) → filter P l = filter Q l.
Proof.
  induction l as [|a l IH]; intros Hl; [done|].
  rewrite !filter_cons.
  rewrite IH by (intros x Hx; apply Hl; by apply list_elem_of_further).
  apply decide_ext, Hl, list_elem_of_here.
Qed.

Lemma filter_all (P : A → Prop) `{!∀ x, Decision (P x)} (l : list A) :
  (∀ x, x ∈ l → P x) → filter P l = l.
Proof.
  induction l as [|a l IH]; intros Hl; [done|].
  rewrite filter_cons_True by apply Hl, list_elem_of_here.
  f_equal. apply IH. intros x Hx. apply Hl. by apply list_elem_of_further.
Qed.

Lemma filter_none (P : A → Prop) `{!∀ x, Decision (P x)} (l : list A) :
  (∀ x, x ∈ l → ¬ P x) → filter P l = [].
Proof.
  induction l as [|a l IH]; intros Hl; [done|].
  rewrite filter_cons_False by apply Hl, list_elem_of_here.
  apply IH. intros x Hx. apply Hl. by apply list_elem_of_further.
Qed.
Lemma filter_unique (P : A → Prop) `{!∀ x, Decision (P x)} (l : list A) x :
  NoDup l → x ∈ l → P x → (∀ y, y ∈ l → P y → y = x) → filter P l = [x].
Proof.
  induction l as [|a l IH]; intros Hnd Hx HP Huniq.
  - by apply elem_of_nil in Hx.
  - apply NoDup_cons in Hnd as [Ha Hnd].
    apply elem_of_cons in Hx as [->|Hx].
    + rewrite filter_cons_True by done. f_equal.
      apply filter_none. intros y Hy HPy.
      assert (y = a) as -> by (apply Huniq; [by apply list_elem_of_further | done]).
      done.
    + rewrite filter_cons_False.
      * apply IH; try done. intros y Hy. apply Huniq. by apply list_elem_of_further.
      * intros HPa. assert (a = x) as -> by (apply Huniq; [apply list_elem_of_here | done]).
        done.
Qed.
End filter.

(** [omap] over a list all of whose elements are kept. *)
Lemma omap_pointwise {A B C D} (f : A → option B) (g : B → C) (h : D → C)
    (l : list A) (k : list D) :
  Forall2 (λ a d, ∃ b, f a = Some b ∧ g b = h d) l k →
  g <$> omap f l = h <$> k.
Proof.
  induction 1 as [|a d l k (b & Hb & Hg) _ IH]; [done|].
  cbn [omap list_omap]. rewrite Hb. cbn. by rewrite Hg, <- IH.
Qed.
End ListFacts.

(** ** Insertion-ordered maps *)

Module JsMapFacts.
Import JsMap.
Section jsmap.
Context {K V : Type} `{EqDecision K}.
Implicit Types (k : K) (v : V) (m : list (K * V)).

Lemma get_set_eq k v m : get k (set k v m) = Some v.
Proof.
  induction m as [|[k' v'] m IH]; simpl.
  - by rewrite decide_True.
  - destruct (decide (k = k')) as [->|Hne]; simpl.
    + by rewrite decide_True.
    + by rewrite decide_False.
Qed.

Lemma get_set_ne k k' v m : k ≠ k' → get k' (set k v m) = get k' m.
Proof.
  intros Hne. induction m as [|[k0 v0] m IH]; simpl.
  - by rewrite decide_False.
  - destruct (decide (k = k0)) as [->|Hk]; simpl.
    + by rewrite !decide_False.
    + destruct (decide (k' = k0)); [done | apply IH].
Qed.

Lemma get_delete_eq k m : get k (delete k m) = None.
Proof.
  induction m as [|[k' v'] m IH]; simpl; [done|].
  destruct (decide (k = k')); simpl; [done|]. by rewrite decide_False.
Qed.

Lemma get_delete_ne k k' m : k ≠ k' → get k' (delete k m) = get k' m.
Proof.
  intros Hne. induction m as [|[k0 v0] m IH]; simpl; [done|].
  destruct (decide (k = k0)) as [->|Hk]; simpl.
  - by rewrite decide_False.
  - destruct (decide (k' = k0)); [done | apply IH].
Qed.

Lemma get_Some_elem k v m : get k m = Some v → (k, v) ∈ m.
Proof.
  induction m as [|[k' v'] m IH]; simpl; [done|].
  destruct (decide (k = k')) as [->|Hk].
  - intros [= ->]. apply list_elem_of_here.
  - intros H'. apply list_elem_of_further. by apply IH.
Qed.

Lemma get_None_keys k m : get k m = None ↔ k ∉ keys m.
Proof.
  unfold keys. induction m as [|[k' v'] m IH]; simpl.
  - split; [intros _; apply not_elem_of_nil | done].
  - rewrite not_elem_of_cons. destruct (decide (k = k')) as [->|Hk].
    + split; [done | intros [? _]; done].
    + rewrite IH. tauto.
Qed.

Lemma elem_get k v m : wf m → (k, v) ∈ m → get k m = Some v.
Proof.
  unfold wf, keys. induction m as [|[k' v'] m IH]; simpl.
  - intros _ H'. by apply elem_of_nil in H'.
  - rewrite NoDup_cons. intros [Hnin Hnd] Hin.
    apply elem_of_cons in Hin as [[= -> ->]|Hin].
    + by rewrite decide_True.
    + destruct (decide (k = k')) as [->|Hk]; [|by apply IH].
      exfalso. apply Hnin. apply list_elem_of_fmap. by exists (k', v).
Qed.

Lemma keys_delete_subseteq k m : keys (delete k m) ⊆ keys m.
Proof.
  unfold keys. induction m as [|[k' v'] m IH]; simpl; [done|].
  destruct (decide (k = k')); simpl.
  - intros x Hx. apply elem_of_cons. right. by apply IH.
  - intros x. rewrite !elem_of_cons. intros [->|Hx]; [by left|right; by apply IH].
Qed.

Lemma wf_delete k m : wf m → wf (delete k m).
Proof.
  unfold wf, keys. induction m as [|[k' v'] m IH]; simpl; [done|].
  rewrite NoDup_cons. intros [Hnin Hnd].
  destruct (decide (k = k')); simpl; [by apply IH|].
  apply NoDup_cons. split; [|by apply IH].
  intros Hin. apply Hnin. by apply (keys_delete_subseteq k).
Qed.

Lemma keys_set k v m :
  keys (set k v m) = if has k m then keys m else keys m ++ [k].
Proof.
  unfold keys, has. induction m as [|[k' v'] m IH]; [done|].
  cbn [set get]. destruct (decide (k = k')) as [->|Hk]; [done|].
  rewrite fmap_cons, IH. by destruct (get k m).
Qed.

Lemma wf_set k v m : wf m → wf (set k v m).
Proof.
  intros Hwf. unfold wf. rewrite keys_set. unfold has.
  destruct (get k m) eqn:Hg; [done|].
  apply NoDup_app. split_and!; [done| |apply NoDup_singleton].
  intros x Hx Hx'. apply list_elem_of_singleton in Hx' as ->.
  by apply get_None_keys in Hg.
Qed.

Lemma delete_elem k k' v m : (k', v) ∈ delete k m ↔ k' ≠ k ∧ (k', v) ∈ m.
Proof.
  induction m as [|[k0 v0] m IH]; simpl.
  - split; [intros H'; by apply elem_of_nil in H' | intros [_ H']; done].
  - destruct (decide (k = k0)) as [->|Hk].
    + rewrite IH, elem_of_cons. split; [intros [? ?]; auto|].
      intros [Hne [[= -> ->]|Hin]]; [done | auto].
    + rewrite !elem_of_cons, IH. split.
      * intros [[= -> ->]|[? ?]]; auto.
      * intros [Hne [Heq|Hin]]; auto.
Qed.

Lemma delete_filter k m : delete k m = filter (λ e, e.1 ≠ k) m.
Proof.
  induction m as [|[k' v'] m IH]; [done|]. cbn [delete].
  rewrite filter_cons. simpl. destruct (decide (k = k')) as [->|Hk].
  - by rewrite decide_False by (intros Hne; by apply Hne).
  - rewrite decide_True by congruence. by rewrite IH.
Qed.

Lemma foldl_delete_filter ks : ∀ m,
  foldl (λ m k, delete k m) m ks = filter (λ e, e.1 ∉ ks) m.
Proof.
  induction ks as [|k ks IH]; intros m; simpl.
  - symmetry. apply ListFacts.filter_all. intros e _. apply not_elem_of_nil.
  - rewrite IH, delete_filter, list_filter_filter. apply list_filter_iff.
    intros e. rewrite not_elem_of_cons. tauto.
Qed.

(** In a well-formed map an entry is determined by its key. *)
Lemma wf_key_in_filter (P : K * V → Prop) `{∀ e, Decision (P e)} m e :
  wf m → e ∈ m → (e.1 ∈ (filter P m).*1 ↔ P e).
Proof.
  intros Hwf He. split.
  - intros Hin. apply list_elem_of_fmap in Hin as (e' & Heq & Hin).
    apply list_elem_of_filter in Hin as [HP Hin].
    destruct e as [k v], e' as [k' v']; simpl in *; subst k'.
    apply (elem_get _ _ _ Hwf) in He, Hin. congruence.
  - intros HP. apply list_elem_of_fmap. exists e. split; [done|].
    apply list_elem_of_filter. done.
Qed.

(** The entries under one key of a well-formed map. *)
Lemma filter_key k m :
  wf m →
  filter (λ e, e.1 = k) m = match get k m with Some v => [(k, v)] | None => [] end.
Proof.
  intros Hwf. destruct (get k m) as [v|] eqn:Hg.
  - apply ListFacts.filter_unique; [|by apply get_Some_elem|done|].
    + revert Hwf. unfold wf, keys. apply NoDup_fmap_1.
    + intros [k' v'] Hin Hk; simpl in *; subst k'.
      apply (elem_get _ _ _ Hwf) in Hin. congruence.
  - apply ListFacts.filter_none. intros [k' v'] Hin Hk; simpl in *; subst k'.
    apply (elem_get _ _ _ Hwf) in Hin. congruence.
Qed.

Lemma set_same k v m : get k m = Some v → set k v m = m.
Proof.
  induction m as [|[k' v'] m IH]; simpl; [done|].
  destruct (decide (k = k')) as [->|Hk]; [by intros [= ->]|].
  intros Hg. by rewrite (IH Hg).
Qed.

Lemma get_filter (P : K * V → Prop) `{∀ e, Decision (P e)} k v m :
  wf m → get k m = Some v → P (k, v) → get k (filter P m) = Some v.
Proof.
  intros Hwf Hg HP. apply elem_get.
  - unfold wf, keys in *. eapply sublist_NoDup; [exact Hwf|].
    apply fmap_sublist, sublist_filter.
  - apply list_elem_of_filter. split; [done|]. by apply get_Some_elem.
Qed.

End jsmap.
End JsMapFacts.

(** ** The real-time fabric *)

Module RealtimeFacts.
Import Realtime.

(** *** Reading the registry through the world updates *)

Lemma connectionsOf_update c f w :
  connectionsOf c (update_connections c f w) = f (connectionsOf c w).
Proof.
  unfold connectionsOf, update_connections, with_registry; simpl.
  by rewrite JsMapFacts.get_set_eq.
Qed.

Lemma connectionsOf_update_ne c c' f w :
  c ≠ c' → connectionsOf c' (update_connections c f w) = connectionsOf c' w.
Proof.
  intros Hne. unfold connectionsOf, update_connections, with_registry; simpl.
  by rewrite JsMapFacts.get_set_ne.
Qed.

Lemma connectionsOf_getCanvasConnections c c' w :
  connectionsOf c' (getCanvasConnections c w) = connectionsOf c' w.
Proof.
  unfold getCanvasConnections, connectionsOf, JsMap.has.
  destruct (JsMap.get c (canvasConnections w)) eqn:Hg; [done|]. simpl.
  destruct (decide (c = c')) as [<-|Hne].
  - by rewrite JsMapFacts.get_set_eq, Hg.
  - by rewrite JsMapFacts.get_set_ne.
Qed.

Lemma sockets_getCanvasConnections c w :
  sockets (getCanvasConnections c w) = sockets w.
Proof. unfold getCanvasConnections. by destruct (JsMap.has _ _). Qed.

Lemma log_getCanvasConnections c w : log (getCanvasConnections c w) = log w.
Proof. unfold getCanvasConnections. by destruct (JsMap.has _ _). Qed.

Lemma clients_getCanvasConnections c w :
  clients (getCanvasConnections c w) = clients w.
Proof. unfold getCanvasConnections. by destruct (JsMap.has _ _). Qed.

(** *** One broadcast pass *)

Section pass.
Variables (frame : Frame) (u : option Z).

(** The pass touches nothing but the log and its own local variables:
    it sends to the recipients in registry order and collects the keys
    of the failed entries. *)
Lemma broadcast_pass_fold conns : ∀ t w,
  let r := foldl (broadcast_visit frame u) (t, w) conns in
  sockets r.2 = sockets w
  ∧ clients r.2 = clients w
  ∧ canvasConnections r.2 = canvasConnections w
  ∧ log r.2 = log w ++ (send_event w frame <$> filter (recipient w u) conns)
  ∧ toRemove r.1 = toRemove t ++ (filter (delivery_failed w u) conns).*1.
Proof.
  induction conns as [|[v s] conns IH]; intros t w.
  - simpl. by rewrite !app_nil_r.
  - cbn [foldl]. set (st := broadcast_visit frame u (t, w) (v, s)).
    assert (sockets st.2 = sockets w
            ∧ clients st.2 = clients w
            ∧ canvasConnections st.2 = canvasConnections w
            ∧ log st.2 = log w ++ (if recipient w u (v, s)
                                   then [send_event w frame (v, s)] else [])
            ∧ toRemove st.1 = toRemove t ++ (if delivery_failed w u (v, s)
                                             then [v] else [])) as Hst.
    { subst st. unfold broadcast_visit, recipient, delivery_failed, send_event,
        safeSendMessage, socket_send; simpl.
      destruct (bool_decide (u = Some v)); simpl; [by rewrite !app_nil_r|].
      destruct (sockets w !! s) as [k|] eqn:Hk; simpl; [|by rewrite !app_nil_r].
      destruct (readyState k) eqn:Hr; simpl;
        rewrite ?Hk; simpl; rewrite ?Hr; simpl; rewrite ?app_nil_r; try done.
      by destruct (send_throws k); simpl; rewrite ?app_nil_r. }
    destruct Hst as (Hs & Hc & Hreg & Hlog & Hrm).
    destruct st as [t1 w1]; simpl in *.
    specialize (IH t1 w1). simpl in IH.
    destruct IH as (IHs & IHc & IHreg & IHlog & IHrm).
    assert (∀ e, recipient w1 u e = recipient w u e) as Hrec
      by (intros e; unfold recipient; by rewrite Hs).
    assert (∀ e, delivery_failed w1 u e = delivery_failed w u e) as Hfail
      by (intros e; unfold delivery_failed; by rewrite Hs).
    assert (∀ e, send_event w1 frame e = send_event w frame e) as Hev
      by (intros e; unfold send_event; by rewrite Hs).
    split_and!; try congruence.
    + rewrite IHlog, Hlog, <- app_assoc. f_equal.
      rewrite (filter_cons (recipient w u)).
      rewrite (list_filter_iff _ (recipient w u) conns)
        by (intros e; by rewrite Hrec).
      destruct (recipient w u (v, s)) eqn:Hrv; simpl.
      * rewrite ?decide_True by done. simpl. f_equal.
        apply list_fmap_ext. intros ? e _. apply Hev.
      * rewrite ?decide_False by done.
        apply list_fmap_ext. intros ? e _. apply Hev.
    + rewrite IHrm, Hrm, <- app_assoc. f_equal.
      rewrite (filter_cons (delivery_failed w u)).
      rewrite (list_filter_iff _ (delivery_failed w u) conns)
        by (intros e; by rewrite Hfail).
      destruct (delivery_failed w u (v, s)) eqn:Hfv; simpl.
      * by rewrite ?decide_True.
      * by rewrite ?decide_False.
Qed.
End pass.

Lemma recipient_ext w1 w2 u e :
  sockets w1 = sockets w2 → recipient w1 u e = recipient w2 u e.
Proof. intros Hs. unfold recipient. by rewrite Hs. Qed.

Lemma delivery_failed_ext w1 w2 u e :
  sockets w1 = sockets w2 → delivery_failed w1 u e = delivery_failed w2 u e.
Proof. intros Hs. unfold delivery_failed. by rewrite Hs. Qed.

Lemma send_event_ext w1 w2 f e :
  sockets w1 = sockets w2 → send_event w1 f e = send_event w2 f e.
Proof. intros Hs. unfold send_event. by rewrite Hs. Qed.

(** The removal loop after the pass. *)
Lemma broadcast_cleanup_fold c ks : ∀ w,
  let w' := broadcast_cleanup c ks w in
  sockets w' = sockets w ∧ clients w' = clients w ∧ log w' = log w
  ∧ connectionsOf c w' = foldl (λ m k, JsMap.delete k m) (connectionsOf c w) ks
  ∧ ∀ c', c ≠ c' → connectionsOf c' w' = connectionsOf c' w.
Proof.
  unfold broadcast_cleanup.
  induction ks as [|k ks IH]; intros w; simpl; [done|].
  destruct (IH (update_connections c (JsMap.delete k) w)) as (Hs & Hc & Hl & Hcc & Hne).
  simpl in *. split_and!; try done.
  - by rewrite Hcc, connectionsOf_update.
  - intros c' Hc'. by rewrite Hne, connectionsOf_update_ne.
Qed.

(** What one [broadcastToCanvas] call does, in full: the log grows by
    one serialisation followed by one [send] per recipient, in registry
    order; the entries whose delivery failed leave the canvas; nothing
    else moves. *)
Lemma broadcastToCanvas_spec c m u w :
  let conns := connectionsOf c w in
  let w' := broadcastToCanvas c m u w in
  sockets w' = sockets w
  ∧ clients w' = clients w
  ∧ log w' = log w ++ (if bool_decide (conns = []) then []
                       else EvStringify m
                            :: (send_event w (Stringified m) <$> filter (recipient w u) conns))
  ∧ (JsMap.wf conns →
     connectionsOf c w' = filter (λ e, negb (delivery_failed w u e)) conns)
  ∧ (∀ k, JsMap.get k conns = None → JsMap.get k (connectionsOf c w') = None)
  ∧ ∀ c', c ≠ c' → connectionsOf c' w' = connectionsOf c' w.
Proof.
  intros conns w'. subst w'. unfold broadcastToCanvas.
  rewrite connectionsOf_getCanvasConnections. fold conns.
  pose proof (sockets_getCanvasConnections c w) as Hs0.
  pose proof (clients_getCanvasConnections c w) as Hc0.
  pose proof (log_getCanvasConnections c w) as Hl0.
  assert (connectionsOf c (getCanvasConnections c w) = conns) as Hcc0
    by apply connectionsOf_getCanvasConnections.
  assert (∀ c', connectionsOf c' (getCanvasConnections c w) = connectionsOf c' w) as Hne0
    by (intros c'; apply connectionsOf_getCanvasConnections).
  set (w0 := getCanvasConnections c w) in *.
  unfold JsMap.size. destruct (decide (conns = [])) as [Hnil|Hnil].
  { rewrite Hnil. simpl. rewrite app_nil_r. split_and!; try done.
    - intros _. by rewrite Hcc0, Hnil.
    - intros k _. by rewrite Hcc0, Hnil. }
  rewrite bool_decide_eq_false_2
    by (destruct conns; [done | simpl; lia]).
  rewrite (bool_decide_eq_false_2 (conns = [])) by done.
  unfold broadcast_pass.
  pose proof (broadcast_pass_fold (Stringified m) u conns (mkTally 0 0 0 [])
                (emit (EvStringify m) w0)) as Hpass.
  simpl in Hpass.
  destruct (foldl _ _ conns) as [t w1]; simpl in Hpass.
  destruct Hpass as (Hs1 & Hc1 & Hreg1 & Hl1 & Hrm1).
  pose proof (broadcast_cleanup_fold c (toRemove t) w1) as Hclean.
  simpl in Hclean. destruct Hclean as (Hs2 & Hc2 & Hl2 & Hcc2 & Hne2).
  assert (sockets (emit (EvStringify m) w0) = sockets w) as Hsw by done.
  assert (connectionsOf c w1 = conns) as Hcc1.
  { unfold connectionsOf. rewrite Hreg1. apply Hcc0. }
  split_and!.
  - congruence.
  - congruence.
  - rewrite Hl2, Hl1, Hl0, <- app_assoc. f_equal. simpl. f_equal.
    rewrite (list_filter_iff _ (recipient w u) conns)
      by (intros e; by rewrite (recipient_ext (emit (EvStringify m) w0) w)).
    apply list_fmap_ext. intros ? e _. by apply send_event_ext.
  - intros Hwf. rewrite Hcc2, Hcc1, Hrm1. simpl.
    rewrite JsMapFacts.foldl_delete_filter.
    apply ListFacts.filter_ext_in. intros e He.
    rewrite (JsMapFacts.wf_key_in_filter _ conns e Hwf He).
    rewrite (delivery_failed_ext (emit (EvStringify m) w0) w u e Hsw).
    destruct (delivery_failed w u e); simpl; naive_solver.
  - intros k Hk. rewrite Hcc2, Hcc1, JsMapFacts.foldl_delete_filter.
    apply JsMapFacts.get_None_keys. apply JsMapFacts.get_None_keys in Hk.
    intros Hin. apply Hk. unfold JsMap.keys in *.
    apply list_elem_of_fmap in Hin as (e & -> & Hin).
    apply list_elem_of_filter in Hin as [_ Hin].
    apply list_elem_of_fmap. by exists e.
  - intros c' Hc'. rewrite Hne2 by done.
    unfold connectionsOf. rewrite Hreg1. apply Hne0.
Qed.

(** *** Counting the frames of a broadcast *)

Lemma new_events_app w w' evs : log w' = log w ++ evs → new_events w w' = evs.
Proof. intros Hl. unfold new_events. by rewrite Hl, drop_app_length. Qed.

Lemma sends_to_send_events s f w l :
  sends_to s f (send_event w f <$> l) = length (filter (λ e, e.2 = s) l).
Proof.
  unfold sends_to. induction l as [|[v t] l IH]; [done|].
  rewrite fmap_cons, !filter_cons.
  assert (is_send_to s f (send_event w f (v, t)) ↔ t = s) as Hiff.
  { unfold is_send_to, send_event. simpl.
    rewrite (bool_decide_eq_true_2 (f = f)) by done. rewrite andb_true_r.
    apply bool_decide_spec. }
  destruct (decide (t = s)) as [Heq|Hne].
  - rewrite decide_True by (by apply Hiff). rewrite decide_True by done.
    simpl. by rewrite IH.
  - rewrite decide_False by (by rewrite Hiff). rewrite decide_False by done.
    apply IH.
Qed.

Lemma sends_to_other_frame s f f' w l :
  f ≠ f' → sends_to s f (send_event w f' <$> l) = 0%nat.
Proof.
  intros Hne. unfold sends_to. rewrite ListFacts.filter_none; [done|].
  intros e He. apply list_elem_of_fmap in He as (x & -> & _).
  unfold send_event, is_send_to. simpl.
  rewrite (bool_decide_eq_false_2 (f' = f)) by congruence.
  rewrite andb_false_r. simpl. tauto.
Qed.

Lemma stringify_count_send_events w f l :
  stringify_count (send_event w f <$> l) = 0%nat.
Proof.
  unfold stringify_count. rewrite ListFacts.filter_none; [done|].
  intros e He. apply list_elem_of_fmap in He as (x & -> & _). simpl. tauto.
Qed.

Lemma wf_NoDup (conns : list (Z * SockId)) : JsMap.wf conns → NoDup conns.
Proof. unfold JsMap.wf, JsMap.keys. apply NoDup_fmap_1. Qed.

Lemma stringify_count_cons m evs :
  stringify_count (EvStringify m :: evs) = S (stringify_count evs).
Proof. unfold stringify_count. by rewrite filter_cons_True by done. Qed.

Lemma sends_to_stringify_cons s f m evs :
  sends_to s f (EvStringify m :: evs) = sends_to s f evs.
Proof. unfold sends_to. by rewrite filter_cons_False by (simpl; tauto). Qed.

(** The events of one broadcast, read off [broadcastToCanvas_spec]. *)
Lemma broadcast_new_events c m u w :
  new_events w (broadcastToCanvas c m u w)
  = if bool_decide (connectionsOf c w = []) then []
    else EvStringify m
         :: (send_event w (Stringified m) <$> filter (recipient w u) (connectionsOf c w)).
Proof.
  destruct (broadcastToCanvas_spec c m u w) as (_ & _ & Hlog & _).
  by apply new_events_app.
Qed.

Lemma broadcast_sends_to c m u w s :
  sends_to s (Stringified m) (new_events w (broadcastToCanvas c m u w))
  = length (filter (λ e, e.2 = s ∧ recipient w u e) (connectionsOf c w)).
Proof.
  rewrite broadcast_new_events. case_bool_decide as Hnil.
  - by rewrite Hnil.
  - rewrite sends_to_stringify_cons, sends_to_send_events.
    by rewrite list_filter_filter.
Qed.

(** The excluded user's own socket is no recipient. *)
Lemma recipients_excluded w (conns : list (Z * SockId)) u s :
  JsMap.wf conns → JsMap.get u conns = Some s →
  (∀ v, v ≠ u → JsMap.get v conns ≠ Some s) →
  filter (λ e, e.2 = s ∧ recipient w (Some u) e) conns = [].
Proof.
  intros Hwf Hu Honly. apply ListFacts.filter_none.
  intros [v t] Hin [Ht Hrec]; simpl in *; subst t.
  pose proof (JsMapFacts.elem_get _ _ _ Hwf Hin) as Hv.
  destruct (decide (v = u)) as [->|Hne]; [|by apply (Honly v)].
  unfold recipient in Hrec. simpl in Hrec.
  by rewrite bool_decide_eq_true_2 in Hrec.
Qed.

(** An open socket registered for one other user is a recipient once. *)
Lemma recipients_other w (conns : list (Z * SockId)) u v s k :
  JsMap.wf conns → v ≠ u → JsMap.get v conns = Some s →
  sockets w !! s = Some k → readyState k = WS_OPEN →
  (∀ v', v' ≠ v → JsMap.get v' conns ≠ Some s) →
  filter (λ e, e.2 = s ∧ recipient w (Some u) e) conns = [(v, s)].
Proof.
  intros Hwf Hv Hget Hk Hopen Honly.
  apply ListFacts.filter_unique.
  - by apply wf_NoDup.
  - by apply JsMapFacts.get_Some_elem.
  - split; [done|]. unfold recipient, isSocketConnected. simpl.
    rewrite Hk, bool_decide_eq_false_2 by congruence.
    by rewrite bool_decide_eq_true_2.
  - intros [v' t] Hin [Ht _]; simpl in *; subst t.
    pose proof (JsMapFacts.elem_get _ _ _ Hwf Hin) as Hv'.
    destruct (decide (v' = v)) as [->|Hne]; [done|].
    by destruct (Honly v' Hne).
Qed.

(** C4 (amended) — [broadcastToCanvas(canvasId, m, u)] on a canvas whose
    map holds one entry per user skips the entry of [u] and sends the
    serialised [m] once for every other entry whose socket is open, and
    nothing else: a socket is handed one copy for each entry under
    another user id that holds it. So the socket registered for [u] and
    for no other user receives nothing, and an open socket registered
    for exactly one other user receives [m] exactly once (the registry
    is keyed by user id, and one socket can be registered under
    several). [m] is serialised once when the canvas has at least one
    entry and not at all when it has none; the [forEach] pass never
    changes the registry, and after it exactly the entries whose socket
    is missing, closed or closing, or whose [send] threw, are removed
    (an entry whose socket is still connecting is neither sent to nor
    removed). *)
Theorem broadcast_fanout w c m u :
  JsMap.wf (connectionsOf c w) →
  let w' := broadcastToCanvas c m (Some u) w in
  fanout_delivery w c m u w'
  ∧ (∀ s, sends_to s (Stringified m) (new_events w w')
          = copies_for w (Some u) (connectionsOf c w) s)
  ∧ stringify_count (new_events w w')
    = (if bool_decide (connectionsOf c w = []) then 0%nat else 1%nat)
  ∧ fanout_cleanup w c m u w'.
Proof.
  intros Hwf w'. subst w'.
  destruct (broadcastToCanvas_spec c m (Some u) w)
    as (Hs & Hc & Hlog & Hconn & Hnone & Hother).
  pose proof (broadcast_new_events c m (Some u) w) as Hev.
  split_and!.
  - unfold fanout_delivery. split_and!.
    + intros s Hu Honly f.
      destruct (decide (f = Stringified m)) as [->|Hf].
      * by rewrite broadcast_sends_to, recipients_excluded.
      * rewrite Hev. case_bool_decide; [done|].
        rewrite sends_to_stringify_cons. by apply sends_to_other_frame.
    + intros v s k Hv Hget Hk Hopen Honly.
      by rewrite broadcast_sends_to, (recipients_other w _ u v s k).
    + intros s f ok. rewrite Hev. case_bool_decide.
      * intros Hin. by apply elem_of_nil in Hin.
      * intros [Heq|Hin]%elem_of_cons; [done|].
        apply list_elem_of_fmap in Hin as (e & Heq & _).
        unfold send_event in Heq. congruence.
  - intros s. apply broadcast_sends_to.
  - rewrite Hev. case_bool_decide; [done|].
    by rewrite stringify_count_cons, stringify_count_send_events.
  - unfold fanout_cleanup. split_and!.
    + intros conns w0. unfold broadcast_pass.
      by destruct (broadcast_pass_fold (Stringified m) (Some u) conns
                     (mkTally 0 0 0 []) w0) as (_ & _ & Hreg & _).
    + by apply Hconn.
    + done.
Qed.

(** *** Frames: what the socket-level operations leave alone *)

Lemma frame_refl w : frame w w.
Proof. split; [done..|]. intros s k Hk Ho. by exists k. Qed.

Lemma frame_trans w1 w2 w3 : frame w1 w2 → frame w2 w3 → frame w1 w3.
Proof.
  intros [Hc1 Ha1 Hh1 Ho1] [Hc2 Ha2 Hh2 Ho2]. split.
  - congruence.
  - intros s. by rewrite Ha2.
  - intros s Hs. by apply Hh2, Hh1.
  - intros s k3 Hk3 Hopen. destruct (Ho2 s k3 Hk3 Hopen) as (k2 & Hk2 & Hopen2).
    by apply (Ho1 s k2).
Qed.

Lemma frame_sockets_eq w w' :
  sockets w' = sockets w → clients w' = clients w → frame w w'.
Proof.
  intros Hs Hc. split; [done|..]; intros s; unfold alive_of; rewrite Hs; [done..|].
  intros k Hk Ho. by exists k.
Qed.

Lemma frame_emit e w : frame w (emit e w).
Proof. by apply frame_sockets_eq. Qed.

Lemma frame_with_registry f w : frame w (with_registry f w).
Proof. by apply frame_sockets_eq. Qed.

Lemma frame_getCanvasConnections c w : frame w (getCanvasConnections c w).
Proof.
  apply frame_sockets_eq;
    [apply sockets_getCanvasConnections | apply clients_getCanvasConnections].
Qed.

Lemma frame_update_connections c f w : frame w (update_connections c f w).
Proof. apply frame_with_registry. Qed.

Lemma none_reopened_alter (g : ExtendedWebSocket → ExtendedWebSocket) s w :
  (∀ k, readyState (g k) = WS_OPEN → readyState k = WS_OPEN) →
  none_reopened w (with_sockets (alter g s) w).
Proof.
  intros Hopen s' k' Hk' Ho. simpl in Hk'. destruct (decide (s = s')) as [->|Hne].
  - rewrite lookup_alter_eq in Hk'.
    destruct (sockets w !! s') as [k|] eqn:Hk; simplify_eq/=.
    exists k. split; [done|by apply Hopen].
  - rewrite lookup_alter_ne in Hk' by done. by exists k'.
Qed.

(** Moving [readyState] away from [OPEN] keeps the [isAlive] flag. *)
Lemma frame_alter_ready (g : ExtendedWebSocket → ExtendedWebSocket) s w :
  (∀ k, isAlive (g k) = isAlive k) →
  (∀ k, readyState (g k) = WS_OPEN → readyState k = WS_OPEN) →
  frame w (with_sockets (alter g s) w).
Proof.
  intros Hg Hopen. split; [done|..]; intros s'; unfold alive_of; simpl.
  - destruct (decide (s = s')) as [->|Hne].
    + rewrite lookup_alter_eq. destruct (sockets w !! s'); simpl; [apply Hg|done].
    + by rewrite lookup_alter_ne.
  - destruct (decide (s = s')) as [->|Hne].
    + rewrite lookup_alter_eq. intros [k ->]. by eexists.
    + by rewrite lookup_alter_ne.
  - by apply none_reopened_alter.
Qed.

Lemma frame_socket_send s f w : frame w (socket_send s f w).2.
Proof.
  unfold socket_send. destruct (sockets w !! s); simpl;
    [apply frame_emit | apply frame_refl].
Qed.

Lemma frame_try_send_json s m w : frame w (try_send_json s m w).
Proof.
  unfold try_send_json.
  eapply frame_trans; [apply (frame_emit (EvStringify m))|apply frame_socket_send].
Qed.

Lemma frame_socket_close s code reason w : frame w (socket_close s code reason w).
Proof.
  unfold socket_close. destruct (sockets w !! s) as [k|]; [|apply frame_refl].
  destruct (close_throws k); [apply frame_emit|].
  eapply frame_trans; [|apply frame_emit].
  apply frame_alter_ready; intros k'; by case_bool_decide.
Qed.

Lemma frame_socket_terminate s w : frame w (socket_terminate s w).
Proof.
  unfold socket_terminate. eapply frame_trans; [|apply frame_emit].
  apply frame_alter_ready; intros k'; by case_bool_decide.
Qed.

Lemma frame_broadcastToCanvas c m u w : frame w (broadcastToCanvas c m u w).
Proof.
  destruct (broadcastToCanvas_spec c m u w) as (Hs & Hc & _).
  by apply frame_sockets_eq.
Qed.

Lemma frame_registerConnection c u s w : frame w (registerConnection c u s w).
Proof.
  unfold registerConnection.
  eapply frame_trans; [|apply frame_update_connections].
  eapply frame_trans; [apply (frame_getCanvasConnections c)|].
  destruct (JsMap.get _ _); [|apply frame_refl].
  case_bool_decide; [|apply frame_refl].
  eapply frame_trans; [|apply frame_update_connections].
  apply frame_socket_close.
Qed.

Lemma frame_foldl {A} (f : World → A → World) l :
  (∀ w a, frame w (f w a)) → ∀ w, frame w (foldl f w l).
Proof.
  intros Hf. induction l as [|a l IH]; intros w; simpl; [apply frame_refl|].
  eapply frame_trans; [apply Hf | apply IH].
Qed.

Lemma frame_close_scan_users s c w : frame w (close_scan_users s c w).
Proof.
  unfold close_scan_users. apply frame_foldl. clear w. intros w e.
  destruct (JsMap.get _ _); [|apply frame_refl].
  case_bool_decide; [|apply frame_refl].
  eapply frame_trans; [|apply frame_broadcastToCanvas].
  apply frame_update_connections.
Qed.

Lemma frame_close_scan s w : frame w (close_scan s w).
Proof.
  unfold close_scan. apply frame_foldl. intros w' e. apply frame_close_scan_users.
Qed.

Lemma frame_onClose s w : frame w (onClose s w).
Proof.
  unfold onClose. destruct (sockets w !! s) as [k|]; [|apply frame_refl].
  destruct (ws_userId k) as [u|]; [|apply frame_close_scan].
  destruct (ws_canvasId k) as [c|]; [|apply frame_close_scan].
  destruct (_ && _); [|apply frame_close_scan].
  destruct (JsMap.has _ _).
  - eapply frame_trans; [|apply frame_broadcastToCanvas].
    eapply frame_trans; [apply (frame_getCanvasConnections c)|].
    apply frame_update_connections.
  - eapply frame_trans; [apply (frame_getCanvasConnections c)|].
    apply frame_close_scan.
Qed.

(** *** The registry stays a map *)

Lemma registry_wf_transfer w w' :
  canvasConnections w' = canvasConnections w →
  (∀ s, is_Some (sockets w !! s) → is_Some (sockets w' !! s)) →
  registry_wf w → registry_wf w'.
Proof.
  intros Hreg Hheap (Hwf & Hin & Hs). unfold registry_wf, connectionsOf in *.
  rewrite Hreg. split_and!; [done..|]. intros c u s Hg. eapply Hheap, Hs, Hg.
Qed.

Lemma registry_wf_update c f w :
  registry_wf w →
  JsMap.wf (f (connectionsOf c w)) →
  (∀ u s, JsMap.get u (f (connectionsOf c w)) = Some s → is_Some (sockets w !! s)) →
  registry_wf (update_connections c f w).
Proof.
  intros (Hwf & Hin & Hs) Hf Hfs. split_and!.
  - by apply JsMapFacts.wf_set.
  - intros c'. destruct (decide (c = c')) as [<-|Hne].
    + by rewrite connectionsOf_update.
    + by rewrite connectionsOf_update_ne.
  - intros c' u s. destruct (decide (c = c')) as [<-|Hne].
    + rewrite connectionsOf_update. apply Hfs.
    + rewrite connectionsOf_update_ne by done. apply Hs.
Qed.

Lemma registry_wf_delete c u w :
  registry_wf w → registry_wf (update_connections c (JsMap.delete u) w).
Proof.
  intros Hw. pose proof Hw as (Hwf & Hin & Hs). apply registry_wf_update; [done| |].
  - by apply JsMapFacts.wf_delete.
  - intros u' s. destruct (decide (u = u')) as [<-|Hne].
    + by rewrite JsMapFacts.get_delete_eq.
    + rewrite JsMapFacts.get_delete_ne by done. apply Hs.
Qed.

Lemma registry_wf_set c u s w :
  registry_wf w → is_Some (sockets w !! s) →
  registry_wf (update_connections c (JsMap.set u s) w).
Proof.
  intros Hw Hsome. pose proof Hw as (Hwf & Hin & Hs). apply registry_wf_update; [done| |].
  - by apply JsMapFacts.wf_set.
  - intros u' s'. destruct (decide (u = u')) as [<-|Hne].
    + rewrite JsMapFacts.get_set_eq. by intros [= <-].
    + rewrite JsMapFacts.get_set_ne by done. apply Hs.
Qed.

Lemma registry_wf_getCanvasConnections c w :
  registry_wf w → registry_wf (getCanvasConnections c w).
Proof.
  intros Hw. pose proof Hw as (Hwf & Hin & Hs). split_and!.
  - unfold getCanvasConnections. destruct (JsMap.has _ _); [done|].
    by apply JsMapFacts.wf_set.
  - intros c'. by rewrite connectionsOf_getCanvasConnections.
  - intros c' u s. rewrite connectionsOf_getCanvasConnections,
      sockets_getCanvasConnections. apply Hs.
Qed.

Lemma registry_wf_foldl {A} (f : World → A → World) l :
  (∀ w a, registry_wf w → registry_wf (f w a)) →
  ∀ w, registry_wf w → registry_wf (foldl f w l).
Proof.
  intros Hf. induction l as [|a l IH]; intros w Hw; simpl; [done|].
  by apply IH, Hf.
Qed.

Lemma registry_wf_emit e w : registry_wf w → registry_wf (emit e w).
Proof. by apply registry_wf_transfer. Qed.

Lemma registry_wf_frame w w' :
  canvasConnections w' = canvasConnections w → frame w w' →
  registry_wf w → registry_wf w'.
Proof. intros Hreg [_ _ Hh]. by apply registry_wf_transfer. Qed.

Lemma registry_wf_broadcastToCanvas c m u w :
  registry_wf w → registry_wf (broadcastToCanvas c m u w).
Proof.
  intros Hw. unfold broadcastToCanvas.
  apply (registry_wf_getCanvasConnections c) in Hw.
  case_bool_decide; [done|].
  apply (registry_wf_emit (EvStringify m)) in Hw.
  unfold broadcast_pass.
  pose proof (broadcast_pass_fold (Stringified m) u
                (connectionsOf c (getCanvasConnections c w)) (mkTally 0 0 0 [])
                (emit (EvStringify m) (getCanvasConnections c w))) as Hpass.
  simpl in Hpass. destruct (foldl _ _ _) as [t w1]. simpl in Hpass.
  destruct Hpass as (Hs1 & _ & Hreg1 & _).
  assert (registry_wf w1) as Hw1.
  { eapply registry_wf_transfer; [exact Hreg1| |exact Hw].
    intros s. by rewrite Hs1. }
  unfold broadcast_cleanup. apply registry_wf_foldl; [|done].
  intros w' k. apply registry_wf_delete.
Qed.

(** *** The same for the operations that never touch the registry *)

Lemma reg_socket_send s f w :
  canvasConnections (socket_send s f w).2 = canvasConnections w.
Proof. unfold socket_send. by destruct (sockets w !! s). Qed.

Lemma reg_try_send_json s m w :
  canvasConnections (try_send_json s m w) = canvasConnections w.
Proof. unfold try_send_json. by rewrite reg_socket_send. Qed.

Lemma reg_socket_close s code reason w :
  canvasConnections (socket_close s code reason w) = canvasConnections w.
Proof.
  unfold socket_close. destruct (sockets w !! s) as [k|]; [|done].
  by destruct (close_throws k).
Qed.

Lemma registry_wf_try_send_json s m w :
  registry_wf w → registry_wf (try_send_json s m w).
Proof.
  apply registry_wf_frame; [apply reg_try_send_json | apply frame_try_send_json].
Qed.

Lemma registry_wf_socket_close s code reason w :
  registry_wf w → registry_wf (socket_close s code reason w).
Proof.
  apply registry_wf_frame; [apply reg_socket_close | apply frame_socket_close].
Qed.

Lemma registry_wf_registerConnection c u s w :
  registry_wf w → is_Some (sockets w !! s) →
  registry_wf (registerConnection c u s w).
Proof.
  intros Hw Hs. unfold registerConnection.
  apply (registry_wf_getCanvasConnections c) in Hw.
  rewrite <- (sockets_getCanvasConnections c) in Hs.
  set (w0 := getCanvasConnections c w) in *.
  destruct (JsMap.get u (connectionsOf c w0)) as [old|];
    [|by apply registry_wf_set].
  case_bool_decide; [|by apply registry_wf_set].
  apply registry_wf_set.
  - by apply registry_wf_delete, registry_wf_socket_close.
  - apply (fr_heap _ _ (frame_update_connections _ _ _)).
    by apply (fr_heap _ _ (frame_socket_close _ _ _ _)).
Qed.

Lemma registry_wf_alter g s w :
  registry_wf w → registry_wf (with_sockets (alter g s) w).
Proof.
  apply registry_wf_transfer; [done|]. intros s'. simpl.
  destruct (decide (s = s')) as [->|Hne].
  - rewrite lookup_alter_eq. intros [k ->]. by eexists.
  - by rewrite lookup_alter_ne.
Qed.

Lemma is_Some_alter (g : ExtendedWebSocket → ExtendedWebSocket) s s'
    (h : gmap SockId ExtendedWebSocket) :
  is_Some (h !! s') → is_Some (alter g s h !! s').
Proof.
  destruct (decide (s = s')) as [->|Hne].
  - rewrite lookup_alter_eq. intros [k ->]. by eexists.
  - by rewrite lookup_alter_ne.
Qed.

Lemma registry_wf_dispatch s data c u w :
  registry_wf w → is_Some (sockets w !! s) →
  registry_wf (dispatch s data c u w).
Proof.
  intros Hw Hs. unfold dispatch.
  repeat (destruct (String.eqb _ _)).
  - apply registry_wf_broadcastToCanvas, registry_wf_try_send_json.
    destruct (_ || _); [by apply registry_wf_set | done].
  - destruct (JsMap.has _ _).
    + by apply registry_wf_delete, registry_wf_broadcastToCanvas.
    + by apply registry_wf_broadcastToCanvas.
  - by apply registry_wf_broadcastToCanvas.
  - by apply registry_wf_broadcastToCanvas.
  - by apply registry_wf_alter.
  - done.
Qed.

Lemma registry_wf_onMessage s message w :
  registry_wf w → registry_wf (onMessage s message w).
Proof.
  intros Hw. unfold onMessage.
  destruct (sockets w !! s) as [k|] eqn:Hk; [|done].
  destruct (negb _); [done|].
  destruct message as [| |data]; [by apply registry_wf_try_send_json|done|].
  destruct (_ || _); [by apply registry_wf_try_send_json|].
  set (c := default 0 (in_canvasId data)).
  set (u := default 0 (in_userId data)).
  set (w1 := with_sockets _ w).
  assert (is_Some (sockets w1 !! s)) as Hs1
    by (subst w1; simpl; apply is_Some_alter; by rewrite Hk).
  assert (registry_wf w1) as Hw1 by (by apply registry_wf_alter).
  apply registry_wf_dispatch.
  - by apply registry_wf_try_send_json, registry_wf_registerConnection.
  - apply (fr_heap _ _ (frame_try_send_json _ _ _)).
    by apply (fr_heap _ _ (frame_registerConnection _ _ _ _)).
Qed.

Lemma registry_wf_close_scan_users s c w :
  registry_wf w → registry_wf (close_scan_users s c w).
Proof.
  unfold close_scan_users. apply registry_wf_foldl. clear w. intros w e Hw.
  destruct (JsMap.get _ _); [|done]. case_bool_decide; [|done].
  by apply registry_wf_broadcastToCanvas, registry_wf_delete.
Qed.

Lemma registry_wf_close_scan s w : registry_wf w → registry_wf (close_scan s w).
Proof.
  unfold close_scan. apply registry_wf_foldl. intros w' e.
  apply registry_wf_close_scan_users.
Qed.

Lemma registry_wf_onClose s w : registry_wf w → registry_wf (onClose s w).
Proof.
  intros Hw. unfold onClose. destruct (sockets w !! s) as [k|]; [|done].
  destruct (ws_userId k) as [u|]; [|by apply registry_wf_close_scan].
  destruct (ws_canvasId k) as [c|]; [|by apply registry_wf_close_scan].
  destruct (_ && _); [|by apply registry_wf_close_scan].
  destruct (JsMap.has _ _).
  - by apply registry_wf_broadcastToCanvas, registry_wf_delete,
      registry_wf_getCanvasConnections.
  - by apply registry_wf_close_scan, registry_wf_getCanvasConnections.
Qed.

Lemma registry_wf_closeEvent s w : registry_wf w → registry_wf (closeEvent s w).
Proof.
  intros Hw. unfold closeEvent. apply registry_wf_onClose.
  apply (registry_wf_transfer (with_sockets (alter (set_readyState WS_CLOSED) s) w));
    [done..|]. by apply registry_wf_alter.
Qed.

Lemma registry_wf_heartbeat s w : registry_wf w → registry_wf (heartbeat s w).
Proof.
  intros Hw. unfold heartbeat.
  apply (registry_wf_alter (set_isAlive true) s) in Hw.
  destruct (sockets _ !! s) as [k|]; [|done].
  case_bool_decide; [|done]. by apply registry_wf_try_send_json.
Qed.

Lemma registry_wf_socket_terminate s w :
  registry_wf w → registry_wf (socket_terminate s w).
Proof.
  intros Hw. unfold socket_terminate. by apply registry_wf_emit, registry_wf_alter.
Qed.

Lemma registry_wf_pingInterval w : registry_wf w → registry_wf (pingInterval w).
Proof.
  unfold pingInterval. apply registry_wf_foldl. clear w. intros w s Hw.
  unfold ping_visit. destruct (sockets w !! s) as [k|]; [|done].
  case_bool_decide; [by apply registry_wf_socket_terminate|].
  destruct (ping_throws k).
  - by apply registry_wf_socket_terminate, registry_wf_emit, registry_wf_alter.
  - by apply registry_wf_emit, registry_wf_alter.
Qed.

Lemma registry_wf_onConnection s a b c w :
  registry_wf w → registry_wf (onConnection s a b c w).
Proof.
  intros Hw. unfold onConnection. destruct (sockets w !! s) eqn:Hs; [done|].
  apply registry_wf_try_send_json.
  eapply registry_wf_transfer; [| |exact Hw]; [done|].
  intros s'. simpl. destruct (decide (s = s')) as [->|Hne].
  - rewrite lookup_insert_eq. by eexists.
  - by rewrite lookup_insert_ne.
Qed.

Lemma registry_wf_initial : registry_wf initial.
Proof.
  split_and!.
  - apply NoDup_nil_2.
  - intros c. apply NoDup_nil_2.
  - intros c u s. done.
Qed.

Lemma registry_wf_step w i : registry_wf w → registry_wf (step w i).
Proof.
  destruct i; simpl.
  - apply registry_wf_onConnection.
  - apply registry_wf_onMessage.
  - apply registry_wf_heartbeat.
  - apply registry_wf_closeEvent.
  - apply registry_wf_pingInterval.
Qed.

(** Whatever the event loop delivers, the registry holds at most one
    channel per (canvasId, userId). *)
Lemma registry_wf_run inputs : registry_wf (run initial inputs).
Proof.
  unfold run. apply registry_wf_foldl; [|apply registry_wf_initial].
  intros w i. apply registry_wf_step.
Qed.

(** *** Replacement of a registration *)

Lemma registrations_get c u w :
  JsMap.wf (connectionsOf c w) →
  registrations c u w
  = match JsMap.get u (connectionsOf c w) with Some s => [(u, s)] | None => [] end.
Proof. apply JsMapFacts.filter_key. Qed.


(** *** The session handler *)

Lemma try_send_json_spec s m k w :
  sockets w !! s = Some k →
  let w' := try_send_json s m w in
  sockets w' = sockets w
  ∧ clients w' = clients w
  ∧ canvasConnections w' = canvasConnections w
  ∧ log w' = log w ++ [EvStringify m; EvSend s (Stringified m) (negb (send_throws k))].
Proof.
  intros Hk. unfold try_send_json, socket_send. simpl. rewrite Hk. simpl.
  by rewrite <- app_assoc.
Qed.

(** C6 (amended) — A frame arriving on an open socket that is not valid
    JSON, or whose parsed value has no truthy [canvasId], [userId] or
    [type] (the [username] is not examined), is answered with one
    [error] envelope to the sender; the socket stays as it was (open),
    and the client list and the registry are unchanged: nothing is
    registered, evicted or broadcast. *)
Theorem malformed_envelope_rejected w s k message :
  sockets w !! s = Some k → readyState k = WS_OPEN → rejected message = true →
  let w' := onMessage s message w in
  sockets w' = sockets w
  ∧ clients w' = clients w
  ∧ canvasConnections w' = canvasConnections w
  ∧ ∃ m, msg_type m = "error"
         ∧ new_events w w'
           = [EvStringify m; EvSend s (Stringified m) (negb (send_throws k))].
Proof.
  intros Hk Hopen Hrej. unfold onMessage. rewrite Hk.
  rewrite bool_decide_eq_true_2 by done. simpl.
  destruct message as [| |data]; simpl in Hrej; [|done|rewrite Hrej].
  - destruct (try_send_json_spec s
                (mkMsg "error" (PError "Invalid JSON message format") 0 0 (Some "server"))
                k w Hk) as (Hs & Hc & Hr & Hl).
    split_and!; [done..|]. eexists. split; [|by apply new_events_app]. done.
  - destruct (try_send_json_spec s
                (mkMsg "error"
                   (PError "Message missing required fields (canvasId, userId, or type)")
                   (default 0 (in_canvasId data)) (default 0 (in_userId data))
                   (Some "server"))
                k w Hk) as (Hs & Hc & Hr & Hl).
    split_and!; [done..|]. eexists. split; [|by apply new_events_app]. done.
Qed.

(** A frame on a socket that is not open, and the JSON literal [null],
    are dropped without any reply. *)
Lemma unanswered_frames w s k message :
  sockets w !! s = Some k →
  readyState k ≠ WS_OPEN ∨ message = ParsedNull →
  onMessage s message w = w.
Proof.
  intros Hk Hcase. unfold onMessage. rewrite Hk.
  case_bool_decide as Hopen; simpl; [|done].
  destruct Hcase as [Hne| ->]; done.
Qed.

(** A message from the socket that already holds the pair registers
    nothing new. *)
Lemma registerConnection_same c u s w :
  JsMap.get u (connectionsOf c w) = Some s →
  let w' := registerConnection c u s w in
  sockets w' = sockets w ∧ clients w' = clients w ∧ log w' = log w
  ∧ ∀ c', connectionsOf c' w' = connectionsOf c' w.
Proof.
  intros Hget. unfold registerConnection.
  rewrite connectionsOf_getCanvasConnections, Hget.
  rewrite bool_decide_eq_false_2 by (intros Hne; by apply Hne).
  split_and!; simpl.
  - apply sockets_getCanvasConnections.
  - apply clients_getCanvasConnections.
  - apply log_getCanvasConnections.
  - intros c'. destruct (decide (c = c')) as [<-|Hne].
    + rewrite connectionsOf_update, connectionsOf_getCanvasConnections.
      by apply JsMapFacts.set_same.
    + rewrite connectionsOf_update_ne by done.
      apply connectionsOf_getCanvasConnections.
Qed.

Lemma same_transport_views w1 w2 u f e :
  same_transport w1 w2 →
  recipient w1 u e = recipient w2 u e
  ∧ delivery_failed w1 u e = delivery_failed w2 u e
  ∧ send_event w1 f e = send_event w2 f e.
Proof.
  intros Ht. specialize (Ht e.2).
  unfold recipient, delivery_failed, send_event, isSocketConnected.
  destruct (sockets w1 !! e.2) as [k1|], (sockets w2 !! e.2) as [k2|];
    simpl in Ht; try done.
  injection Ht as -> ->. done.
Qed.

Lemma same_transport_alter g s w :
  (∀ k, readyState (g k) = readyState k ∧ send_throws (g k) = send_throws k) →
  same_transport (with_sockets (alter g s) w) w.
Proof.
  intros Hg t. simpl. destruct (decide (s = t)) as [->|Hne].
  - rewrite lookup_alter_eq. destruct (sockets w !! t) as [k|]; simpl; [|done].
    by destruct (Hg k) as [-> ->].
  - by rewrite lookup_alter_ne.
Qed.

Lemma same_transport_eq w1 w2 w3 :
  sockets w1 = sockets w2 → same_transport w2 w3 → same_transport w1 w3.
Proof. intros Hs Ht t. rewrite Hs. apply Ht. Qed.

(** The handler on a [join-canvas] frame from the socket that holds the
    pair: acknowledgement, list of the other users, then the fan-out of
    [user-joined]. *)
Lemma onMessage_join_canvas w s k data c u :
  registry_wf w →
  sockets w !! s = Some k → readyState k = WS_OPEN →
  in_type data = Some "join-canvas" →
  in_canvasId data = Some c → c ≠ 0 →
  in_userId data = Some u → u ≠ 0 →
  JsMap.get u (connectionsOf c w) = Some s →
  let w' := onMessage s (Parsed data) w in
  let conns := connectionsOf c w in
  let ok := negb (send_throws k) in
  let ack := mkMsg "connection-acknowledged" (PAcknowledged (JsMap.keys conns)) c u
                   (in_username data) in
  let others := filter (λ id, id ≠ u) (JsMap.keys conns) in
  let au := mkMsg "active-users" (PActiveUsers others) c 0 (Some "server") in
  let joined := mkMsg "user-joined" (PUser u (in_username data)) c u (in_username data) in
  new_events w w'
  = [EvStringify ack; EvSend s (Stringified ack) ok;
     EvStringify au; EvSend s (Stringified au) ok]
    ++ EvStringify joined
       :: (send_event w (Stringified joined) <$> filter (recipient w (Some u)) conns)
  ∧ connectionsOf c w' = filter (λ e, negb (delivery_failed w (Some u) e)) conns.
Proof.
  intros Hw Hk Hopen Hty Hc Hc0 Hu Hu0 Hget w' conns ok ack others au joined.
  pose proof Hw as (_ & Hwfc & _).
  subst w'. unfold onMessage. rewrite Hk, bool_decide_eq_true_2 by done. simpl.
  rewrite Hc, Hu, Hty. simpl.
  rewrite (proj2 (Z.eqb_neq c 0)) by done.
  rewrite (proj2 (Z.eqb_neq u 0)) by done. simpl.
  set (g := λ k0, set_isAlive true (set_identity u c (in_username data) k0)).
  set (w1 := with_sockets (alter g s) w).
  assert (same_transport w1 w) as Ht1 by (by apply same_transport_alter).
  assert (sockets w1 !! s = Some (g k)) as Hk1
    by (subst w1; simpl; by rewrite lookup_alter_eq, Hk).
  assert (JsMap.get u (connectionsOf c w1) = Some s) as Hget1 by done.
  pose proof (registerConnection_same c u s w1 Hget1) as Hreg. cbv zeta in Hreg.
  destruct Hreg as (Hs2 & Hc2 & Hl2 & Hcc2).
  set (w2 := registerConnection c u s w1) in *.
  assert (connectionsOf c w2 = conns) as Hconns2 by (by rewrite Hcc2).
  rewrite Hconns2. fold ack.
  assert (sockets w2 !! s = Some (g k)) as Hk2 by (by rewrite Hs2).
  pose proof (try_send_json_spec s ack (g k) w2 Hk2) as H3. cbv zeta in H3.
  destruct H3 as (Hs3 & Hc3 & Hr3 & Hl3).
  set (w3 := try_send_json s ack w2) in *.
  assert (connectionsOf c w3 = conns) as Hconns3
    by (unfold connectionsOf; rewrite Hr3; apply Hconns2).
  unfold dispatch. rewrite Hty. simpl. rewrite Hconns3.
  unfold JsMap.has. fold conns in Hget. rewrite Hget. simpl.
  rewrite bool_decide_eq_false_2 by (intros Hne; by apply Hne).
  rewrite Hconns3. fold others. fold au. fold joined.
  assert (sockets w3 !! s = Some (g k)) as Hk3 by (by rewrite Hs3).
  pose proof (try_send_json_spec s au (g k) w3 Hk3) as H4. cbv zeta in H4.
  destruct H4 as (Hs4 & Hc4 & Hr4 & Hl4).
  set (w4 := try_send_json s au w3) in *.
  assert (connectionsOf c w4 = conns) as Hconns4
    by (unfold connectionsOf; rewrite Hr4; apply Hconns3).
  assert (same_transport w4 w) as Ht4.
  { apply (same_transport_eq _ w1); [congruence | done]. }
  destruct (broadcastToCanvas_spec c joined (Some u) w4)
    as (Hs5 & Hc5 & Hl5 & Hcc5 & _).
  rewrite Hconns4 in Hl5, Hcc5.
  assert (conns ≠ []) as Hne.
  { intros Hnil. rewrite Hnil in Hget. done. }
  rewrite bool_decide_eq_false_2 in Hl5 by done.
  split.
  - apply new_events_app. rewrite Hl5, Hl4, Hl3, Hl2. simpl.
    rewrite <- !app_assoc. simpl. do 6 f_equal.
    rewrite (ListFacts.filter_ext_in _ (recipient w (Some u)) conns)
      by (intros e _; by destruct (same_transport_views w4 w (Some u)
                                     (Stringified joined) e Ht4) as (-> & _)).
    apply list_fmap_ext. intros ? e _.
    by destruct (same_transport_views w4 w (Some u) (Stringified joined) e Ht4)
      as (_ & _ & ->).
  - rewrite Hcc5 by apply Hwfc.
    apply ListFacts.filter_ext_in. intros e _.
    by destruct (same_transport_views w4 w (Some u) (Stringified joined) e Ht4)
      as (_ & -> & _).
Qed.

Lemma sends_to_cons s f e evs :
  sends_to s f (e :: evs)
  = ((if is_send_to s f e then 1 else 0) + sends_to s f evs)%nat.
Proof.
  unfold sends_to. destruct (is_send_to s f e) eqn:He.
  - rewrite filter_cons_True; [done|]. by rewrite He.
  - rewrite filter_cons_False; [done|]. rewrite He. simpl. tauto.
Qed.

Lemma sends_to_app s f evs1 evs2 :
  sends_to s f (evs1 ++ evs2) = (sends_to s f evs1 + sends_to s f evs2)%nat.
Proof. unfold sends_to. by rewrite filter_app, length_app. Qed.

Lemma sends_to_nil s f : sends_to s f [] = 0%nat.
Proof. done. Qed.

Lemma is_send_to_other_frame s f s' f' ok :
  f' ≠ f → is_send_to s f (EvSend s' f' ok) = false.
Proof.
  intros Hne. unfold is_send_to.
  by rewrite (bool_decide_eq_false_2 (f' = f)), andb_false_r.
Qed.

Lemma is_send_to_stringify s f m : is_send_to s f (EvStringify m) = false.
Proof. done. Qed.

Lemma is_send_to_same s f ok : is_send_to s f (EvSend s f ok) = true.
Proof. unfold is_send_to. by rewrite !bool_decide_eq_true_2. Qed.

Lemma sends_to_recipients s f w u (conns : list (Z * SockId)) :
  sends_to s f (send_event w f <$> filter (recipient w u) conns)
  = length (filter (λ e, e.2 = s ∧ recipient w u e) conns).
Proof. by rewrite sends_to_send_events, list_filter_filter. Qed.

(** C5 (amended) — For a channel in the JOINED state (its socket holds
    the pair (canvasId, userId)), an inbound envelope of kind
    [join-canvas] (the kind [join] is not one the handler knows) keeps
    the channel registered under the pair, sends it one [active-users]
    reply listing the other user ids registered on the canvas, and
    fans [user-joined] out by user id: a socket is handed one copy for
    each entry under another user id that holds it while it is open.
    So an open socket registered for exactly one other user receives
    [user-joined] exactly once, and the sender receives none provided
    its socket is registered under no other user of the canvas. *)
Theorem join_canvas_announces w s k data c u :
  registry_wf w →
  sockets w !! s = Some k → readyState k = WS_OPEN →
  in_type data = Some "join-canvas" →
  in_canvasId data = Some c → c ≠ 0 →
  in_userId data = Some u → u ≠ 0 →
  JsMap.get u (connectionsOf c w) = Some s →
  let w' := onMessage s (Parsed data) w in
  let evs := new_events w w' in
  let conns := connectionsOf c w in
  let others := filter (λ id, id ≠ u) (JsMap.keys conns) in
  let joined := mkMsg "user-joined" (PUser u (in_username data)) c u (in_username data) in
  JsMap.get u (connectionsOf c w') = Some s
  ∧ sends_to s (Stringified (mkMsg "active-users" (PActiveUsers others) c 0
                                   (Some "server"))) evs = 1%nat
  ∧ (∀ t, sends_to t (Stringified joined) evs = copies_for w (Some u) conns t)
  ∧ ((∀ v, v ≠ u → JsMap.get v conns ≠ Some s) →
     sends_to s (Stringified joined) evs = 0%nat)
  ∧ ∀ v t kt,
      v ≠ u → JsMap.get v conns = Some t →
      sockets w !! t = Some kt → readyState kt = WS_OPEN →
      (∀ v', v' ≠ v → JsMap.get v' conns ≠ Some t) →
      sends_to t (Stringified joined) evs = 1%nat.
Proof.
  intros Hw Hk Hopen Hty Hc Hc0 Hu Hu0 Hget w' evs conns others joined.
  pose proof Hw as (_ & Hwfc & _).
  pose proof (onMessage_join_canvas w s k data c u Hw Hk Hopen Hty Hc Hc0 Hu Hu0 Hget)
    as Hjoin. cbv zeta in Hjoin. destruct Hjoin as [Hev Hconn].
  fold w' in Hev, Hconn. fold evs in Hev. fold conns in Hev, Hconn.
  fold others in Hev. fold joined in Hev.
  assert (∀ t, sends_to t (Stringified joined) evs = copies_for w (Some u) conns t)
    as Hcopies.
  { intros t. rewrite Hev, sends_to_app, !sends_to_cons, sends_to_nil.
    rewrite !is_send_to_stringify.
    rewrite !is_send_to_other_frame by (by intros [=]).
    by rewrite sends_to_recipients. }
  split_and!.
  - rewrite Hconn. apply JsMapFacts.get_filter; [apply Hwfc|done|].
    unfold delivery_failed. simpl. by rewrite bool_decide_eq_true_2.
  - rewrite Hev, sends_to_app, !sends_to_cons, sends_to_nil.
    rewrite !is_send_to_stringify.
    rewrite is_send_to_other_frame by (by intros [=]).
    rewrite is_send_to_same.
    rewrite sends_to_other_frame by (by intros [=]). done.
  - exact Hcopies.
  - intros Honly. rewrite Hcopies. unfold copies_for.
    by rewrite (recipients_excluded w conns u s) by (done || apply Hwfc).
  - intros v t kt Hv Hgv Hkt Hopt Honlyt. rewrite Hcopies. unfold copies_for.
    by rewrite (recipients_other w conns u v t kt) by (done || apply Hwfc).
Qed.

(** *** Liveness probe *)

Lemma alive_of_alter_ne g s s' w :
  s ≠ s' → alive_of (with_sockets (alter g s') w) s = alive_of w s.
Proof. intros Hne. unfold alive_of. simpl. by rewrite lookup_alter_ne. Qed.

Lemma alive_of_emit e w s : alive_of (emit e w) s = alive_of w s.
Proof. done. Qed.

Lemma alive_of_terminate t w s : alive_of (socket_terminate t w) s = alive_of w s.
Proof. apply (fr_alive _ _ (frame_socket_terminate t w)). Qed.

(** One visit of the probe: what it logs, and what it does to the flags. *)
Lemma ping_visit_spec w s :
  log (ping_visit w s) = log w ++ probe_events w s
  ∧ clients (ping_visit w s) = clients w
  ∧ canvasConnections (ping_visit w s) = canvasConnections w
  ∧ (∀ t, is_Some (sockets w !! t) → is_Some (sockets (ping_visit w s) !! t))
  ∧ (∀ t, t ≠ s → sockets (ping_visit w s) !! t = sockets w !! t)
  ∧ (is_Some (sockets w !! s) → alive_of (ping_visit w s) s = Some false).
Proof.
  unfold ping_visit, probe_events. destruct (sockets w !! s) as [k|] eqn:Hk.
  2:{ rewrite app_nil_r. split_and!; try done; try (by intros [? ?]). }
  case_bool_decide as Hal.
  - split_and!; try done.
    + intros t. simpl. apply is_Some_alter.
    + intros t Hne. simpl. by rewrite lookup_alter_ne.
    + intros _. rewrite alive_of_terminate. unfold alive_of. by rewrite Hk.
  - destruct (ping_throws k); simpl.
    + split_and!; try done.
      * by rewrite <- app_assoc.
      * intros t Ht. by apply is_Some_alter, is_Some_alter.
      * intros t Hne. by rewrite !lookup_alter_ne.
      * intros _. unfold alive_of. simpl.
        rewrite lookup_alter_eq, lookup_alter_eq, Hk. simpl. by case_bool_decide.
    + split_and!; try done.
      * intros t. apply is_Some_alter.
      * intros t Hne. by rewrite lookup_alter_ne.
      * intros _. unfold alive_of. simpl. by rewrite lookup_alter_eq, Hk.
Qed.

Lemma probe_events_ext w1 w2 s :
  sockets w1 !! s = sockets w2 !! s → probe_events w1 s = probe_events w2 s.
Proof. intros Hs. unfold probe_events. by rewrite Hs. Qed.

(** A whole cycle over a duplicate-free list of clients. *)
Lemma ping_fold_spec l : ∀ w,
  NoDup l →
  let w' := foldl ping_visit w l in
  log w' = log w ++ concat (probe_events w <$> l)
  ∧ clients w' = clients w
  ∧ canvasConnections w' = canvasConnections w
  ∧ (∀ t, is_Some (sockets w !! t) → is_Some (sockets w' !! t))
  ∧ (∀ t, t ∉ l → sockets w' !! t = sockets w !! t)
  ∧ (∀ t, t ∈ l → is_Some (sockets w !! t) → alive_of w' t = Some false).
Proof.
  induction l as [|s l IH]; intros w Hnd; simpl.
  - rewrite app_nil_r. split_and!; try done. intros t Ht. by apply elem_of_nil in Ht.
  - apply NoDup_cons in Hnd as [Hs Hnd].
    destruct (ping_visit_spec w s) as (Hl1 & Hc1 & Hr1 & Hh1 & Ho1 & Ha1).
    destruct (IH (ping_visit w s) Hnd) as (Hl2 & Hc2 & Hr2 & Hh2 & Ho2 & Ha2).
    split_and!.
    + rewrite Hl2, Hl1, <- app_assoc. do 3 f_equal.
      apply list_fmap_ext. intros ? t Ht. apply probe_events_ext, Ho1.
      intros ->. apply Hs. by eapply list_elem_of_lookup_2.
    + congruence.
    + congruence.
    + intros t Ht. by apply Hh2, Hh1.
    + intros t Ht. apply not_elem_of_cons in Ht as [Hne Ht].
      by rewrite Ho2, Ho1.
    + intros t Ht Hsome. apply elem_of_cons in Ht as [->|Ht].
      * unfold alive_of. rewrite (Ho2 s Hs). by apply Ha1.
      * apply Ha2; [done|]. by apply Hh1.
Qed.

(** *** Inputs that are no activity of a given socket *)

Lemma quiet_frame s w w' : frame w w' → quiet_for s w w'.
Proof. intros [Hc Ha Hh]. by split_and!. Qed.

Lemma quiet_refl s w : quiet_for s w w.
Proof. by split_and!. Qed.

Lemma quiet_trans s w1 w2 w3 : quiet_for s w1 w2 → quiet_for s w2 w3 → quiet_for s w1 w3.
Proof.
  intros (Hc1 & Ha1 & Hh1) (Hc2 & Ha2 & Hh2). split_and!; [congruence..|].
  intros t Ht. by apply Hh2, Hh1.
Qed.

Lemma quiet_alter g s s' w : s ≠ s' → quiet_for s w (with_sockets (alter g s') w).
Proof.
  intros Hne. split_and!; [done|by apply alive_of_alter_ne|].
  intros t. simpl. apply is_Some_alter.
Qed.

Lemma quiet_dispatch s s' data c u w : s ≠ s' → quiet_for s w (dispatch s' data c u w).
Proof.
  intros Hne. unfold dispatch. repeat (destruct (String.eqb _ _)).
  - eapply quiet_trans; [|apply quiet_frame, frame_broadcastToCanvas].
    eapply quiet_trans; [|apply quiet_frame, frame_try_send_json].
    destruct (_ || _); [apply quiet_frame, frame_update_connections|apply quiet_refl].
  - destruct (JsMap.has _ _).
    + eapply quiet_trans; [|apply quiet_frame, frame_update_connections].
      apply quiet_frame, frame_broadcastToCanvas.
    + apply quiet_frame, frame_broadcastToCanvas.
  - apply quiet_frame, frame_broadcastToCanvas.
  - apply quiet_frame, frame_broadcastToCanvas.
  - by apply quiet_alter.
  - apply quiet_refl.
Qed.

Lemma quiet_onMessage s s' message w : s ≠ s' → quiet_for s w (onMessage s' message w).
Proof.
  intros Hne. unfold onMessage. destruct (sockets w !! s'); [|apply quiet_refl].
  destruct (negb _); [apply quiet_refl|].
  destruct message as [| |data];
    [apply quiet_frame, frame_try_send_json|apply quiet_refl|].
  destruct (_ || _); [apply quiet_frame, frame_try_send_json|].
  eapply quiet_trans; [|by apply quiet_dispatch].
  eapply quiet_trans; [|apply quiet_frame, frame_try_send_json].
  eapply quiet_trans; [|apply quiet_frame, frame_registerConnection].
  by apply quiet_alter.
Qed.

Lemma quiet_heartbeat s s' w : s ≠ s' → quiet_for s w (heartbeat s' w).
Proof.
  intros Hne. unfold heartbeat.
  destruct (sockets _ !! s'); [|by apply quiet_alter].
  case_bool_decide; [|by apply quiet_alter].
  eapply quiet_trans; [by apply (quiet_alter (set_isAlive true))|].
  apply quiet_frame, frame_try_send_json.
Qed.

Lemma quiet_pingInterval w :
  clients (pingInterval w) = clients w
  ∧ ∀ t, is_Some (sockets w !! t) → is_Some (sockets (pingInterval w) !! t).
Proof.
  unfold pingInterval. generalize (clients w) at 1 3. intros l. revert w.
  induction l as [|s l IH]; intros w; simpl; [done|].
  destruct (ping_visit_spec w s) as (_ & Hc1 & _ & Hh1 & _).
  destruct (IH (ping_visit w s)) as [Hc2 Hh2]. split; [congruence|].
  intros t Ht. by apply Hh2, Hh1.
Qed.

Lemma clients_wf_same w w' :
  clients w' = clients w →
  (∀ t, is_Some (sockets w !! t) → is_Some (sockets w' !! t)) →
  clients_wf w → clients_wf w'.
Proof.
  intros Hc Hh [Hnd Hin]. split; rewrite Hc; [done|]. intros s Hs. by apply Hh, Hin.
Qed.

Lemma closeEvent_clients s w :
  clients (closeEvent s w) = filter (λ c, c ≠ s) (clients w)
  ∧ (∀ t, alive_of (closeEvent s w) t = alive_of w t)
  ∧ ∀ t, is_Some (sockets w !! t) → is_Some (sockets (closeEvent s w) !! t).
Proof.
  unfold closeEvent.
  set (w1 := with_sockets (alter (set_readyState WS_CLOSED) s) w).
  set (w2 := with_clients (filter (λ c, c ≠ s)) w1).
  destruct (frame_onClose s w2) as [Hc Ha Hh].
  assert (frame w w1) as [_ Ha1 Hh1] by (by apply frame_alter_ready).
  split_and!.
  - by rewrite Hc.
  - intros t. rewrite Ha. apply Ha1.
  - intros t Ht. by apply Hh, Hh1.
Qed.

Lemma clients_wf_step w i : clients_wf w → clients_wf (step w i).
Proof.
  intros Hw. destruct i as [s a b c|s m|s|s|]; simpl.
  - unfold onConnection. destruct (sockets w !! s) eqn:Hs; [done|].
    eapply clients_wf_same;
      [apply (fr_clients _ _ (frame_try_send_json _ _ _))
      |apply (fr_heap _ _ (frame_try_send_json _ _ _))|].
    destruct Hw as [Hnd Hin]. split; simpl.
    + apply NoDup_app. split_and!; [done| |apply NoDup_singleton].
      intros t Ht Ht'. apply list_elem_of_singleton in Ht' as ->.
      apply Hin in Ht. rewrite Hs in Ht. by destruct Ht.
    + intros t Ht. apply elem_of_app in Ht as [Ht|Ht].
      * destruct (decide (s = t)) as [->|Hne];
          [rewrite lookup_insert_eq; by eexists|].
        rewrite lookup_insert_ne by done. by apply Hin.
      * apply list_elem_of_singleton in Ht as ->. rewrite lookup_insert_eq. by eexists.
  - destruct (quiet_onMessage (S s) s m w) as (Hc & _ & Hh); [lia|].
    by eapply clients_wf_same.
  - destruct (quiet_heartbeat (S s) s w) as (Hc & _ & Hh); [lia|].
    by eapply clients_wf_same.
  - destruct (closeEvent_clients s w) as (Hc & _ & Hh).
    destruct Hw as [Hnd Hin]. split; rewrite Hc.
    + by apply NoDup_filter.
    + intros t Ht. apply list_elem_of_filter in Ht as [_ Ht]. by apply Hh, Hin.
  - destruct (quiet_pingInterval w) as [Hc Hh]. by eapply clients_wf_same.
Qed.

Lemma clients_wf_run inputs : clients_wf (run initial inputs).
Proof.
  unfold run. assert (clients_wf initial) as H0.
  { split; [apply NoDup_nil_2|]. intros s Hs. by apply elem_of_nil in Hs. }
  revert H0. generalize initial. induction inputs as [|i l IH]; intros w Hw; simpl.
  - done.
  - by apply IH, clients_wf_step.
Qed.



(** *** Open sockets are clients *)













(** *** The close path only removes *)

Lemma absent_getCanvasConnections c u c' w :
  JsMap.get u (connectionsOf c w) = None →
  JsMap.get u (connectionsOf c (getCanvasConnections c' w)) = None.
Proof. by rewrite connectionsOf_getCanvasConnections. Qed.






(** *** Registrations are only removed *)

Lemma only_removes_refl w : only_removes w w.
Proof. by intros c u t. Qed.

Lemma only_removes_trans w1 w2 w3 :
  only_removes w1 w2 → only_removes w2 w3 → only_removes w1 w3.
Proof. intros H1 H2 c u t Ht. by apply H1, H2. Qed.

Lemma only_removes_registry w w' :
  canvasConnections w' = canvasConnections w → only_removes w w'.
Proof. intros Hr c u t. unfold connectionsOf. by rewrite Hr. Qed.

Lemma only_removes_getCanvasConnections c w : only_removes w (getCanvasConnections c w).
Proof. intros c' u t. by rewrite connectionsOf_getCanvasConnections. Qed.

Lemma only_removes_delete c u w :
  only_removes w (update_connections c (JsMap.delete u) w).
Proof.
  intros c' u' t. destruct (decide (c = c')) as [<-|Hne].
  - rewrite connectionsOf_update. destruct (decide (u = u')) as [<-|Hu].
    + by rewrite JsMapFacts.get_delete_eq.
    + by rewrite JsMapFacts.get_delete_ne.
  - by rewrite connectionsOf_update_ne.
Qed.

Lemma get_filter_inv {V} (P : Z * V → Prop) `{∀ e, Decision (P e)} k v (m : list (Z * V)) :
  JsMap.wf m → JsMap.get k (filter P m) = Some v → JsMap.get k m = Some v.
Proof.
  intros Hwf Hget. apply JsMapFacts.elem_get; [done|].
  apply JsMapFacts.get_Some_elem in Hget. by apply list_elem_of_filter in Hget as [_ ?].
Qed.

Lemma only_removes_broadcastToCanvas c m x w :
  registry_wf w → only_removes w (broadcastToCanvas c m x w).
Proof.
  intros (_ & Hwfc & _) c' u t.
  destruct (broadcastToCanvas_spec c m x w) as (_ & _ & _ & Hcc & _ & Hother).
  destruct (decide (c = c')) as [<-|Hne].
  - rewrite Hcc by apply Hwfc. apply get_filter_inv, Hwfc.
  - by rewrite Hother.
Qed.

Lemma only_removes_foldl {A} (f : World → A → World) l :
  (∀ w a, registry_wf w → registry_wf (f w a) ∧ only_removes w (f w a)) →
  ∀ w, registry_wf w → only_removes w (foldl f w l).
Proof.
  intros Hf. induction l as [|a l IH]; intros w Hw; simpl; [apply only_removes_refl|].
  destruct (Hf w a Hw) as [Hw' Hr].
  eapply only_removes_trans; [exact Hr|by apply IH].
Qed.

Lemma only_removes_close_scan s w : registry_wf w → only_removes w (close_scan s w).
Proof.
  unfold close_scan. apply only_removes_foldl. clear w. intros w e Hw.
  split; [by apply registry_wf_close_scan_users|].
  unfold close_scan_users. apply only_removes_foldl; [|done]. clear w Hw. intros w e' Hw.
  destruct (JsMap.get e'.1 _); [|split; [done|apply only_removes_refl]].
  case_bool_decide; [|split; [done|apply only_removes_refl]].
  split; [by apply registry_wf_broadcastToCanvas, registry_wf_delete|].
  eapply only_removes_trans; [apply only_removes_delete|].
  by apply only_removes_broadcastToCanvas, registry_wf_delete.
Qed.

Lemma only_removes_onClose s w : registry_wf w → only_removes w (onClose s w).
Proof.
  intros Hw. unfold onClose. destruct (sockets w !! s) as [k|]; [|apply only_removes_refl].
  destruct (ws_userId k) as [u|]; [|by apply only_removes_close_scan].
  destruct (ws_canvasId k) as [c|]; [|by apply only_removes_close_scan].
  destruct (_ && _); [|by apply only_removes_close_scan].
  destruct (JsMap.has _ _).
  - eapply only_removes_trans; [apply (only_removes_getCanvasConnections c)|].
    eapply only_removes_trans; [apply only_removes_delete|].
    by apply only_removes_broadcastToCanvas, registry_wf_delete,
             registry_wf_getCanvasConnections.
  - eapply only_removes_trans; [apply (only_removes_getCanvasConnections c)|].
    by apply only_removes_close_scan, registry_wf_getCanvasConnections.
Qed.

Lemma only_removes_closeEvent s w : registry_wf w → only_removes w (closeEvent s w).
Proof.
  intros Hw. unfold closeEvent.
  set (w2 := with_clients _ _).
  assert (registry_wf w2) as Hw2.
  { apply (registry_wf_transfer (with_sockets (alter (set_readyState WS_CLOSED) s) w));
      [done..|]. by apply registry_wf_alter. }
  eapply only_removes_trans; [|by apply only_removes_onClose].
  by apply only_removes_registry.
Qed.

(** *** The fallback scan of the [close] handler *)

Lemma close_scan_users_fold s c (l : list (Z * SockId)) : ∀ w,
  registry_wf w →
  (∀ v, JsMap.get v (connectionsOf c w) = Some s → v ∈ l.*1) →
  ∀ v, JsMap.get v
         (connectionsOf c
            (foldl (λ w (entry : Z * SockId),
                      match JsMap.get entry.1 (connectionsOf c w) with
                      | Some socket =>
                          if bool_decide (socket = s) then
                            broadcastToCanvas c
                              (mkMsg "user-left" (PUserId entry.1) c entry.1 (Some "")) None
                              (update_connections c (JsMap.delete entry.1) w)
                          else w
                      | None => w
                      end) w l)) ≠ Some s.
Proof.
  induction l as [|[v0 t0] l IH]; intros w Hw Hin v; simpl.
  - intros Hget. specialize (Hin v Hget). by apply elem_of_nil in Hin.
  - apply IH.
    + destruct (JsMap.get v0 _); [|done]. case_bool_decide; [|done].
      by apply registry_wf_broadcastToCanvas, registry_wf_delete.
    + intros v' Hget.
      destruct (JsMap.get v0 (connectionsOf c w)) as [t|] eqn:Hv0.
      * case_bool_decide as Ht.
        -- subst t.
           apply only_removes_broadcastToCanvas in Hget;
             [|by apply registry_wf_delete].
           apply only_removes_delete in Hget as Hget'.
           rewrite connectionsOf_update in Hget.
           destruct (decide (v0 = v')) as [->|Hne];
             [by rewrite JsMapFacts.get_delete_eq in Hget|].
           specialize (Hin v' Hget'). simpl in Hin.
           apply elem_of_cons in Hin as [->|Hin]; done.
        -- specialize (Hin v' Hget) as Hin'. simpl in Hin'.
           apply elem_of_cons in Hin' as [->|Hin']; [congruence|done].
      * specialize (Hin v' Hget) as Hin'. simpl in Hin'.
        apply elem_of_cons in Hin' as [->|Hin']; [congruence|done].
Qed.

Lemma close_scan_users_clears s c w :
  registry_wf w →
  ∀ v, JsMap.get v (connectionsOf c (close_scan_users s c w)) ≠ Some s.
Proof.
  intros Hw. unfold close_scan_users. apply close_scan_users_fold; [done|].
  intros v Hget. apply JsMapFacts.get_Some_elem in Hget.
  apply list_elem_of_fmap. by exists (v, s).
Qed.

Lemma only_removes_close_scan_users s c w :
  registry_wf w → only_removes w (close_scan_users s c w).
Proof.
  intros Hw. unfold close_scan_users. apply only_removes_foldl; [|done].
  clear w Hw. intros w e Hw.
  destruct (JsMap.get e.1 _); [|split; [done|apply only_removes_refl]].
  case_bool_decide; [|split; [done|apply only_removes_refl]].
  split; [by apply registry_wf_broadcastToCanvas, registry_wf_delete|].
  eapply only_removes_trans; [apply only_removes_delete|].
  by apply only_removes_broadcastToCanvas, registry_wf_delete.
Qed.

Lemma close_scan_fold s (l : list (Z * list (Z * SockId))) : ∀ w,
  registry_wf w →
  (∀ c v, JsMap.get v (connectionsOf c w) = Some s → c ∈ l.*1) →
  unregistered s
    (foldl (λ w (entry : Z * list (Z * SockId)), close_scan_users s entry.1 w) w l).
Proof.
  induction l as [|[c0 users] l IH]; intros w Hw Hin; simpl.
  - intros c v Hget. specialize (Hin c v Hget). by apply elem_of_nil in Hin.
  - apply IH; [by apply registry_wf_close_scan_users|].
    intros c v Hget. destruct (decide (c = c0)) as [->|Hne].
    + by apply close_scan_users_clears in Hget.
    + apply only_removes_close_scan_users in Hget; [|done].
      specialize (Hin c v Hget). simpl in Hin.
      apply elem_of_cons in Hin as [->|Hin]; done.
Qed.

Lemma close_scan_clears s w : registry_wf w → unregistered s (close_scan s w).
Proof.
  intros Hw. unfold close_scan. apply close_scan_fold; [done|].
  intros c v Hget. unfold connectionsOf in Hget.
  destruct (JsMap.get c (canvasConnections w)) as [users|] eqn:Hc; [|done].
  apply JsMapFacts.get_Some_elem in Hc.
  apply list_elem_of_fmap. by exists (c, users).
Qed.

(** *** The pair a socket carries *)














End RealtimeFacts.

(** ** The session handler, frame by frame *)

Module SessionFacts.
Import Js Realtime RealtimeFacts.

(** *** Accepted frames from the registered socket *)

Lemma registry_entry c u s w :
  JsMap.get u (connectionsOf c w) = Some s →
  JsMap.get c (canvasConnections w) = Some (connectionsOf c w).
Proof.
  unfold connectionsOf. destruct (JsMap.get c (canvasConnections w)); [done|].
  simpl. done.
Qed.

Lemma registerConnection_same_registry c u s w :
  JsMap.get u (connectionsOf c w) = Some s →
  canvasConnections (registerConnection c u s w) = canvasConnections w.
Proof.
  intros Hget. pose proof (registry_entry c u s w Hget) as Hc.
  unfold registerConnection, getCanvasConnections, JsMap.has. rewrite Hc.
  rewrite Hget. rewrite bool_decide_eq_false_2 by (intros Hne; by apply Hne).
  unfold update_connections. simpl.
  rewrite (JsMapFacts.set_same u s) by done. by apply JsMapFacts.set_same.
Qed.

(** The handler on an accepted frame from the socket that holds the
    pair, up to the [switch]: the identity and the alive flag are
    stored, the registry is as before, and the acknowledgement is sent. *)
Lemma onMessage_accepted w s k data c u :
  sockets w !! s = Some k → readyState k = WS_OPEN →
  in_canvasId data = Some c → c ≠ 0 →
  in_userId data = Some u → u ≠ 0 →
  falsyStr (in_type data) = false →
  JsMap.get u (connectionsOf c w) = Some s →
  let g := λ k0, set_isAlive true (set_identity u c (in_username data) k0) in
  let ack := mkMsg "connection-acknowledged"
                   (PAcknowledged (JsMap.keys (connectionsOf c w))) c u
                   (in_username data) in
  ∃ w3,
    onMessage s (Parsed data) w = dispatch s data c u w3
    ∧ sockets w3 = alter g s (sockets w)
    ∧ clients w3 = clients w
    ∧ canvasConnections w3 = canvasConnections w
    ∧ log w3 = log w ++ [EvStringify ack; EvSend s (Stringified ack) (negb (send_throws k))].
Proof.
  intros Hk Hopen Hc Hc0 Hu Hu0 Hty Hget g ack.
  unfold onMessage. rewrite Hk, bool_decide_eq_true_2 by done. simpl.
  rewrite Hc, Hu, Hty. simpl.
  rewrite (proj2 (Z.eqb_neq c 0)) by done.
  rewrite (proj2 (Z.eqb_neq u 0)) by done. simpl.
  fold g. set (w1 := with_sockets (alter g s) w).
  assert (sockets w1 !! s = Some (g k)) as Hk1
    by (subst w1; simpl; by rewrite lookup_alter_eq, Hk).
  assert (JsMap.get u (connectionsOf c w1) = Some s) as Hget1 by done.
  pose proof (registerConnection_same c u s w1 Hget1) as Hreg. cbv zeta in Hreg.
  destruct Hreg as (Hs2 & Hc2 & Hl2 & Hcc2).
  pose proof (registerConnection_same_registry c u s w1 Hget1) as Hr2.
  set (w2 := registerConnection c u s w1) in *.
  assert (connectionsOf c w2 = connectionsOf c w) as -> by (by rewrite Hcc2).
  fold ack.
  assert (sockets w2 !! s = Some (g k)) as Hk2 by (by rewrite Hs2).
  pose proof (try_send_json_spec s ack (g k) w2 Hk2) as H3. cbv zeta in H3.
  destruct H3 as (Hs3 & Hc3 & Hr3 & Hl3).
  exists (try_send_json s ack w2). split; [done|]. split_and!.
  - by rewrite Hs3, Hs2.
  - by rewrite Hc3, Hc2.
  - by rewrite Hr3, Hr2.
  - by rewrite Hl3, Hl2.
Qed.


(** A fan-out from a world that differs from [w] in neither the canvas
    nor the transport sends what a fan-out from [w] would send. *)
Lemma broadcast_after w0 w c m u :
  same_transport w0 w → connectionsOf c w0 = connectionsOf c w →
  let conns := connectionsOf c w in
  let w' := broadcastToCanvas c m u w0 in
  log w' = log w0 ++ (if bool_decide (conns = []) then []
                      else EvStringify m
                           :: (send_event w (Stringified m) <$> filter (recipient w u) conns))
  ∧ (JsMap.wf conns →
     connectionsOf c w' = filter (λ e, negb (delivery_failed w u e)) conns)
  ∧ sockets w' = sockets w0
  ∧ clients w' = clients w0
  ∧ ∀ c', c ≠ c' → connectionsOf c' w' = connectionsOf c' w0.
Proof.
  intros Ht Hconns conns w'. subst w'.
  destruct (broadcastToCanvas_spec c m u w0) as (Hs & Hc & Hl & Hcc & _ & Hother).
  rewrite Hconns in Hl, Hcc. fold conns in Hl, Hcc.
  split_and!; [|intros Hwf|done..].
  - rewrite Hl. f_equal. case_bool_decide; [done|]. f_equal.
    rewrite (ListFacts.filter_ext_in _ (recipient w u) conns)
      by (intros e _; by destruct (same_transport_views w0 w u (Stringified m) e Ht)
                           as (-> & _)).
    apply list_fmap_ext. intros ? e _.
    by destruct (same_transport_views w0 w u (Stringified m) e Ht) as (_ & _ & ->).
  - rewrite Hcc by done. apply ListFacts.filter_ext_in. intros e _.
    by destruct (same_transport_views w0 w u (Stringified m) e Ht) as (_ & -> & _).
Qed.

Lemma accepted_same_transport g s w w3 :
  (∀ k, readyState (g k) = readyState k ∧ send_throws (g k) = send_throws k) →
  sockets w3 = alter g s (sockets w) → same_transport w3 w.
Proof.
  intros Hg Hs. apply (same_transport_eq _ (with_sockets (alter g s) w)); [done|].
  by apply same_transport_alter.
Qed.

Lemma connectionsOf_registry w w' c :
  canvasConnections w' = canvasConnections w → connectionsOf c w' = connectionsOf c w.
Proof. intros H. unfold connectionsOf. by rewrite H. Qed.

(** Counting the frames of one fan-out that follows an acknowledgement. *)
Lemma sends_to_after_ack t s m ack ok w u (conns : list (Z * SockId)) :
  Stringified ack ≠ Stringified m →
  sends_to t (Stringified m)
    ([EvStringify ack; EvSend s (Stringified ack) ok]
       ++ EvStringify m :: (send_event w (Stringified m) <$> filter (recipient w u) conns))
  = length (filter (λ e, e.2 = t ∧ recipient w u e) conns).
Proof.
  intros Hne. rewrite sends_to_app, !sends_to_cons, sends_to_nil.
  rewrite !is_send_to_stringify, is_send_to_other_frame by done.
  by rewrite sends_to_recipients.
Qed.

(** X1 — a [canvas-update] or [cursor-position] frame that arrives on
    the socket registered for its (canvasId, userId): the sender is
    acknowledged, the message is serialised once and relayed, with the
    payload and the username of the frame, to the entries of the canvas
    other than the sender's whose socket is open, and nothing else is
    sent: a socket is handed one copy for each entry under another user
    id that holds it. So an open socket registered for exactly one
    other user gets exactly one copy, and the sender's socket gets none
    provided it is registered under no other user of the canvas.
    Afterwards the canvas holds the entries whose delivery did not
    fail, the sender among them, and the other canvases are as
    before. *)
Theorem update_relayed_to_others w s k data c u kind :
  registry_wf w →
  sockets w !! s = Some k → readyState k = WS_OPEN →
  in_type data = Some kind → kind = "canvas-update" ∨ kind = "cursor-position" →
  in_canvasId data = Some c → c ≠ 0 →
  in_userId data = Some u → u ≠ 0 →
  JsMap.get u (connectionsOf c w) = Some s →
  let w' := onMessage s (Parsed data) w in
  let conns := connectionsOf c w in
  let ack := mkMsg "connection-acknowledged" (PAcknowledged (JsMap.keys conns)) c u
                   (in_username data) in
  let relay := mkMsg kind (PClient (in_payload data)) c u (in_username data) in
  new_events w w'
  = [EvStringify ack; EvSend s (Stringified ack) (negb (send_throws k))]
    ++ EvStringify relay
       :: (send_event w (Stringified relay) <$> filter (recipient w (Some u)) conns)
  ∧ (∀ t, sends_to t (Stringified relay) (new_events w w')
          = copies_for w (Some u) conns t)
  ∧ ((∀ v, v ≠ u → JsMap.get v conns ≠ Some s) →
     sends_to s (Stringified relay) (new_events w w') = 0%nat)
  ∧ (∀ v t kt,
       v ≠ u → JsMap.get v conns = Some t →
       sockets w !! t = Some kt → readyState kt = WS_OPEN →
       (∀ v', v' ≠ v → JsMap.get v' conns ≠ Some t) →
       sends_to t (Stringified relay) (new_events w w') = 1%nat)
  ∧ connectionsOf c w' = filter (λ e, negb (delivery_failed w (Some u) e)) conns
  ∧ JsMap.get u (connectionsOf c w') = Some s
  ∧ ∀ c', c ≠ c' → connectionsOf c' w' = connectionsOf c' w.
Proof.
  intros Hw Hk Hopen Hty Hkind Hc Hc0 Hu Hu0 Hget w' conns ack relay.
  pose proof Hw as (_ & Hwfc & _).
  assert (falsyStr (in_type data) = false) as Hfs
    by (rewrite Hty; by destruct Hkind as [-> | ->]).
  destruct (onMessage_accepted w s k data c u Hk Hopen Hc Hc0 Hu Hu0 Hfs Hget)
    as (w3 & Hrun & Hs3 & Hc3 & Hr3 & Hl3).
  fold conns ack in Hl3.
  assert (same_transport w3 w) as Ht3.
  { by apply (accepted_same_transport
                (λ k0, set_isAlive true (set_identity u c (in_username data) k0)) s). }
  assert (dispatch s data c u w3 = broadcastToCanvas c relay (Some u) w3) as Hd.
  { unfold dispatch. rewrite Hty. by destruct Hkind as [-> | ->]. }
  pose proof (broadcast_after w3 w c relay (Some u) Ht3 (connectionsOf_registry _ _ c Hr3))
    as Hb. cbv zeta in Hb. fold conns in Hb. rewrite <- Hd, <- Hrun in Hb. fold w' in Hb.
  destruct Hb as (Hl & Hcc & _ & _ & Hother).
  assert (conns ≠ []) as Hne by (unfold conns; intros Hnil; by rewrite Hnil in Hget).
  rewrite bool_decide_eq_false_2 in Hl by done.
  assert (new_events w w'
          = [EvStringify ack; EvSend s (Stringified ack) (negb (send_throws k))]
            ++ EvStringify relay
               :: (send_event w (Stringified relay) <$> filter (recipient w (Some u)) conns))
    as Hev.
  { apply new_events_app. rewrite Hl, Hl3, <- app_assoc. done. }
  assert (Stringified ack ≠ Stringified relay) as Hframes
    by (intros [= Heq]; by destruct Hkind as [-> | ->]).
  split_and!.
  - done.
  - intros t. by rewrite Hev, sends_to_after_ack by done.
  - intros Honly. rewrite Hev, sends_to_after_ack by done.
    by rewrite recipients_excluded by (done || apply Hwfc).
  - intros v t kt Hv Hgv Hkt Hopt Honlyt. rewrite Hev, sends_to_after_ack by done.
    by rewrite (recipients_other w _ u v t kt) by (done || apply Hwfc).
  - apply Hcc, Hwfc.
  - rewrite Hcc by apply Hwfc. apply JsMapFacts.get_filter; [apply Hwfc|done|].
    unfold delivery_failed. simpl. by rewrite bool_decide_eq_true_2.
  - intros c' Hne'. rewrite Hother by done. by apply connectionsOf_registry.
Qed.


(** X2 — a [leave-canvas] frame that arrives on the socket registered
    for its (canvasId, userId): the sender is acknowledged, [user-left]
    is serialised once and sent to the entries of the canvas other
    than the sender's whose socket is open: a socket is handed one copy
    for each entry under another user id that holds it, so an open
    socket registered for exactly one other user gets exactly one, and
    the sender's socket gets none provided it is registered under no
    other user of the canvas. Then the sender's entry is deleted: the
    canvas holds the other entries whose delivery did not fail, the
    pair is registered no more, and the other canvases are as
    before. *)
Theorem leave_canvas_unregisters w s k data c u :
  registry_wf w →
  sockets w !! s = Some k → readyState k = WS_OPEN →
  in_type data = Some "leave-canvas" →
  in_canvasId data = Some c → c ≠ 0 →
  in_userId data = Some u → u ≠ 0 →
  JsMap.get u (connectionsOf c w) = Some s →
  let w' := onMessage s (Parsed data) w in
  let conns := connectionsOf c w in
  let ack := mkMsg "connection-acknowledged" (PAcknowledged (JsMap.keys conns)) c u
                   (in_username data) in
  let left := mkMsg "user-left" (PUser u (in_username data)) c u (in_username data) in
  new_events w w'
  = [EvStringify ack; EvSend s (Stringified ack) (negb (send_throws k))]
    ++ EvStringify left
       :: (send_event w (Stringified left) <$> filter (recipient w (Some u)) conns)
  ∧ (∀ t, sends_to t (Stringified left) (new_events w w')
          = copies_for w (Some u) conns t)
  ∧ ((∀ v, v ≠ u → JsMap.get v conns ≠ Some s) →
     sends_to s (Stringified left) (new_events w w') = 0%nat)
  ∧ (∀ v t kt,
       v ≠ u → JsMap.get v conns = Some t →
       sockets w !! t = Some kt → readyState kt = WS_OPEN →
       (∀ v', v' ≠ v → JsMap.get v' conns ≠ Some t) →
       sends_to t (Stringified left) (new_events w w') = 1%nat)
  ∧ connectionsOf c w'
    = JsMap.delete u (filter (λ e, negb (delivery_failed w (Some u) e)) conns)
  ∧ JsMap.get u (connectionsOf c w') = None
  ∧ ∀ c', c ≠ c' → connectionsOf c' w' = connectionsOf c' w.
Proof.
  intros Hw Hk Hopen Hty Hc Hc0 Hu Hu0 Hget w' conns ack left.
  pose proof Hw as (_ & Hwfc & _).
  assert (falsyStr (in_type data) = false) as Hfs by (by rewrite Hty).
  destruct (onMessage_accepted w s k data c u Hk Hopen Hc Hc0 Hu Hu0 Hfs Hget)
    as (w3 & Hrun & Hs3 & Hc3 & Hr3 & Hl3).
  fold conns ack in Hl3.
  assert (same_transport w3 w) as Ht3.
  { by apply (accepted_same_transport
                (λ k0, set_isAlive true (set_identity u c (in_username data) k0)) s). }
  pose proof (broadcast_after w3 w c left (Some u) Ht3 (connectionsOf_registry _ _ c Hr3))
    as Hb. cbv zeta in Hb. fold conns in Hb.
  set (w4 := broadcastToCanvas c left (Some u) w3) in *.
  destruct Hb as (Hl & Hcc & _ & _ & Hother).
  specialize (Hcc (Hwfc c)).
  assert (JsMap.get u (connectionsOf c w4) = Some s) as Hget4.
  { rewrite Hcc. apply JsMapFacts.get_filter; [apply Hwfc|done|].
    unfold delivery_failed. simpl. by rewrite bool_decide_eq_true_2. }
  assert (w' = update_connections c (JsMap.delete u) w4) as Hw'.
  { unfold w'. rewrite Hrun. unfold dispatch. rewrite Hty. simpl. fold left w4.
    unfold JsMap.has. by rewrite Hget4. }
  assert (conns ≠ []) as Hne by (unfold conns; intros Hnil; by rewrite Hnil in Hget).
  rewrite bool_decide_eq_false_2 in Hl by done.
  assert (new_events w w'
          = [EvStringify ack; EvSend s (Stringified ack) (negb (send_throws k))]
            ++ EvStringify left
               :: (send_event w (Stringified left) <$> filter (recipient w (Some u)) conns))
    as Hev.
  { apply new_events_app. rewrite Hw'. simpl. rewrite Hl, Hl3, <- app_assoc. done. }
  assert (Stringified ack ≠ Stringified left) as Hframes by (by intros [= Heq]).
  split_and!.
  - done.
  - intros t. by rewrite Hev, sends_to_after_ack by done.
  - intros Honly. rewrite Hev, sends_to_after_ack by done.
    by rewrite recipients_excluded by (done || apply Hwfc).
  - intros v t kt Hv Hgv Hkt Hopt Honlyt. rewrite Hev, sends_to_after_ack by done.
    by rewrite (recipients_other w _ u v t kt) by (done || apply Hwfc).
  - by rewrite Hw', connectionsOf_update, Hcc.
  - rewrite Hw', connectionsOf_update. apply JsMapFacts.get_delete_eq.
  - intros c' Hne'. rewrite Hw', connectionsOf_update_ne by done.
    rewrite Hother by done. by apply connectionsOf_registry.
Qed.

(** X3 — a frame of any kind the [switch] does not fan out (a kind
    other than [join-canvas], [leave-canvas], [canvas-update] and
    [cursor-position]; [heartbeat] and unknown kinds alike), arriving
    on the socket registered for its (canvasId, userId): the
    acknowledgement to the sender is the only frame sent, the registry
    and the client set do not change, and the socket is left with the
    identity of the frame and marked alive. *)
Theorem other_kinds_only_acknowledged w s k data c u kind :
  sockets w !! s = Some k → readyState k = WS_OPEN →
  in_type data = Some kind → kind ≠ "" → ¬ fanned_out kind →
  in_canvasId data = Some c → c ≠ 0 →
  in_userId data = Some u → u ≠ 0 →
  JsMap.get u (connectionsOf c w) = Some s →
  let w' := onMessage s (Parsed data) w in
  let ack := mkMsg "connection-acknowledged"
                   (PAcknowledged (JsMap.keys (connectionsOf c w))) c u
                   (in_username data) in
  new_events w w' = [EvStringify ack; EvSend s (Stringified ack) (negb (send_throws k))]
  ∧ canvasConnections w' = canvasConnections w
  ∧ clients w' = clients w
  ∧ sockets w'
    = alter (λ k0, set_isAlive true (set_identity u c (in_username data) k0)) s (sockets w).
Proof.
  intros Hk Hopen Hty Hkind Hnot Hc Hc0 Hu Hu0 Hget w' ack.
  assert (falsyStr (in_type data) = false) as Hfs.
  { rewrite Hty. simpl. by apply String.eqb_neq. }
  destruct (onMessage_accepted w s k data c u Hk Hopen Hc Hc0 Hu Hu0 Hfs Hget)
    as (w3 & Hrun & Hs3 & Hc3 & Hr3 & Hl3).
  fold ack in Hl3.
  assert (dispatch s data c u w3 = w3
          ∨ dispatch s data c u w3 = with_sockets (alter (set_isAlive true) s) w3) as Hd.
  { unfold dispatch. rewrite Hty. simpl.
    destruct (String.eqb_spec kind "join-canvas") as [->|_].
    { destruct Hnot. unfold fanned_out. set_solver. }
    destruct (String.eqb_spec kind "leave-canvas") as [->|_].
    { destruct Hnot. unfold fanned_out. set_solver. }
    destruct (String.eqb_spec kind "canvas-update") as [->|_].
    { destruct Hnot. unfold fanned_out. set_solver. }
    destruct (String.eqb_spec kind "cursor-position") as [->|_].
    { destruct Hnot. unfold fanned_out. set_solver. }
    destruct (String.eqb kind "heartbeat"); [by right|by left]. }
  unfold w'. rewrite Hrun.
  destruct Hd as [-> | ->]; simpl.
  - split_and!; [by apply new_events_app|done..].
  - split_and!; [by apply new_events_app|done|done|].
    rewrite Hs3, alter_alter_eq. apply alter_ext. intros k0 _. done.
Qed.


(** *** Registration on every accepted frame *)

Lemma broadcast_keeps_excluded c m u s w :
  JsMap.wf (connectionsOf c w) →
  JsMap.get u (connectionsOf c w) = Some s →
  JsMap.get u (connectionsOf c (broadcastToCanvas c m (Some u) w)) = Some s.
Proof.
  intros Hwf Hget.
  destruct (broadcastToCanvas_spec c m (Some u) w) as (_ & _ & _ & Hcc & _).
  rewrite Hcc by done. apply JsMapFacts.get_filter; [done..|].
  unfold delivery_failed. simpl. by rewrite bool_decide_eq_true_2.
Qed.

Lemma registerConnection_registers c u s w :
  JsMap.get u (connectionsOf c (registerConnection c u s w)) = Some s.
Proof.
  unfold registerConnection. rewrite connectionsOf_update.
  apply JsMapFacts.get_set_eq.
Qed.

(** X4 — every frame that passes the validation and is not a
    [leave-canvas] registers its sender, whatever the kind and whoever
    held the pair before: after the handler, the socket is the one and
    only registration of (canvasId, userId). *)
Theorem accepted_frame_registers w s k data c u kind :
  registry_wf w →
  sockets w !! s = Some k → readyState k = WS_OPEN →
  in_type data = Some kind → kind ≠ "" → kind ≠ "leave-canvas" →
  in_canvasId data = Some c → c ≠ 0 →
  in_userId data = Some u → u ≠ 0 →
  let w' := onMessage s (Parsed data) w in
  JsMap.get u (connectionsOf c w') = Some s
  ∧ registrations c u w' = [(u, s)].
Proof.
  intros Hw Hk Hopen Hty Hkind Hleave Hc Hc0 Hu Hu0 w'.
  assert (registry_wf w') as Hw' by (by apply registry_wf_onMessage).
  enough (JsMap.get u (connectionsOf c w') = Some s) as Hget.
  { split; [done|]. destruct Hw' as (_ & Hwfc & _).
    by rewrite registrations_get, Hget. }
  unfold w', onMessage. rewrite Hk, bool_decide_eq_true_2 by done. simpl.
  rewrite Hc, Hu, Hty. simpl.
  rewrite (proj2 (Z.eqb_neq c 0)) by done.
  rewrite (proj2 (Z.eqb_neq u 0)) by done.
  rewrite (proj2 (String.eqb_neq kind "")) by done. simpl.
  set (g := λ k0, set_isAlive true (set_identity u c (in_username data) k0)).
  set (w1 := with_sockets (alter g s) w).
  assert (registry_wf w1) as Hw1 by (by apply registry_wf_alter).
  assert (is_Some (sockets w1 !! s)) as Hs1
    by (subst w1; simpl; rewrite lookup_alter_eq, Hk; by eexists).
  set (w2 := registerConnection c u s w1).
  assert (registry_wf w2) as Hw2 by (by apply registry_wf_registerConnection).
  pose proof (registerConnection_registers c u s w1) as Hget2. fold w2 in Hget2.
  set (ack := mkMsg _ _ _ _ _).
  set (w3 := try_send_json s ack w2).
  assert (registry_wf w3) as Hw3 by (by apply registry_wf_try_send_json).
  assert (JsMap.get u (connectionsOf c w3) = Some s) as Hget3.
  { unfold connectionsOf, w3. by rewrite reg_try_send_json. }
  unfold dispatch. rewrite Hty. cbn [from_option id].
  destruct (String.eqb kind "join-canvas").
  { unfold JsMap.has. rewrite Hget3. cbn [negb orb].
    rewrite bool_decide_eq_false_2 by (intros Hne; by apply Hne).
    apply broadcast_keeps_excluded; unfold connectionsOf at 1;
      rewrite reg_try_send_json; [apply Hw3|done]. }
  rewrite (proj2 (String.eqb_neq kind "leave-canvas")) by done.
  destruct (String.eqb kind "canvas-update").
  { apply broadcast_keeps_excluded; [apply Hw3|done]. }
  destruct (String.eqb kind "cursor-position").
  { apply broadcast_keeps_excluded; [apply Hw3|done]. }
  by destruct (String.eqb kind "heartbeat").
Qed.

(** *** The pong handler and the probe *)

Lemma heartbeat_sockets s w :
  sockets (heartbeat s w) = alter (set_isAlive true) s (sockets w)
  ∧ clients (heartbeat s w) = clients w
  ∧ canvasConnections (heartbeat s w) = canvasConnections w.
Proof.
  unfold heartbeat. destruct (sockets _ !! s) as [k|] eqn:Hk; [|done].
  case_bool_decide; [|done].
  pose proof (try_send_json_spec s
                (mkMsg "heartbeat-ack" PTimestamp (default 0 (ws_canvasId k))
                       (default 0 (ws_userId k)) (Some "server"))
                k (with_sockets (alter (set_isAlive true) s) w) Hk) as Hsend.
  cbv zeta in Hsend. destruct Hsend as (Hs & Hc & Hr & _). by rewrite Hs, Hc, Hr.
Qed.

Lemma probe_events_about w t e : e ∈ probe_events w t → e = EvTerminate t ∨ ∃ ok, e = EvPing t ok.
Proof.
  unfold probe_events. destruct (sockets w !! t) as [k|]; [|by intros ?%elem_of_nil].
  case_bool_decide; [|destruct (ping_throws k)].
  - intros ->%list_elem_of_singleton. by left.
  - intros [->|Hin]%elem_of_cons; [right; by eexists|].
    apply list_elem_of_singleton in Hin as ->. by left.
  - intros ->%list_elem_of_singleton. right. by eexists.
Qed.

(** X5 — a pong keeps a client through the next probe cycle: after the
    [pong] handler ran for a client whose [ping] does not throw, the
    socket is marked alive, and the next run of the probe pings it and
    does not terminate it. *)
Theorem pong_survives_probe w s k :
  clients_wf w → s ∈ clients w →
  sockets w !! s = Some k → ping_throws k = false →
  let w1 := heartbeat s w in
  let evs := new_events w1 (pingInterval w1) in
  alive_of w1 s = Some true
  ∧ EvPing s true ∈ evs
  ∧ EvTerminate s ∉ evs.
Proof.
  intros Hw Hin Hk Hping w1 evs.
  destruct (heartbeat_sockets s w) as (Hs1 & Hc1 & _). fold w1 in Hs1, Hc1.
  assert (sockets w1 !! s = Some (set_isAlive true k)) as Hk1
    by (by rewrite Hs1, lookup_alter_eq, Hk).
  assert (probe_events w1 s = [EvPing s true]) as Hprobe.
  { unfold probe_events. rewrite Hk1. simpl. by rewrite Hping. }
  assert (clients_wf w1) as [Hnd _].
  { apply (clients_wf_same w); [done| |done].
    intros t. rewrite Hs1. apply is_Some_alter. }
  destruct (ping_fold_spec (clients w1) w1 Hnd) as (Hl & _).
  assert (evs = concat (probe_events w1 <$> clients w1)) as Hev
    by (by apply new_events_app).
  split_and!.
  - unfold alive_of. by rewrite Hk1.
  - rewrite Hev. apply list_elem_of_In, in_concat. exists (probe_events w1 s).
    split; apply list_elem_of_In.
    + apply list_elem_of_fmap. exists s. by rewrite Hc1.
    + rewrite Hprobe. apply list_elem_of_here.
  - rewrite Hev. intros Hterm. apply list_elem_of_In, in_concat in Hterm as (l & Hl1 & Hl2).
    apply list_elem_of_In, list_elem_of_fmap in Hl1 as (t & -> & _).
    apply list_elem_of_In in Hl2.
    destruct (probe_events_about w1 t _ Hl2) as [[= ->]|[ok Hok]]; [|done].
    rewrite Hprobe in Hl2. by apply list_elem_of_singleton in Hl2.
Qed.

(** *** A new connection *)

(** X6 — a new connection: the socket is stored open and marked alive,
    without identity, and becomes the last of the clients; the greeting
    [server-connection-established] is the only frame sent; the
    registry is unchanged, and the socket is registered with no
    canvas. *)
Theorem connection_greeted w s send_t ping_t close_t :
  registry_wf w → sockets w !! s = None →
  let w' := onConnection s send_t ping_t close_t w in
  let greeting := mkMsg "server-connection-established" PEstablished 0 0 (Some "server") in
  sockets w'
  = <[s := mkSocket WS_OPEN (Some true) None None None send_t ping_t close_t]> (sockets w)
  ∧ clients w' = clients w ++ [s]
  ∧ canvasConnections w' = canvasConnections w
  ∧ new_events w w'
    = [EvStringify greeting; EvSend s (Stringified greeting) (negb send_t)]
  ∧ ∀ c u, JsMap.get u (connectionsOf c w') ≠ Some s.
Proof.
  intros Hw Hnone w' greeting. unfold w', onConnection. rewrite Hnone.
  set (k := mkSocket _ _ _ _ _ _ _ _).
  set (w0 := with_clients _ _). cbv zeta. fold greeting.
  assert (sockets w0 !! s = Some k) as Hk by (subst w0; simpl; apply lookup_insert_eq).
  pose proof (try_send_json_spec s greeting k w0 Hk) as H. cbv zeta in H.
  destruct H as (Hs & Hc & Hr & Hl).
  split_and!; [by rewrite Hs|by rewrite Hc|by rewrite Hr|by apply new_events_app|].
  intros c u Hget. unfold connectionsOf in Hget. rewrite Hr in Hget.
  destruct Hw as (_ & _ & Hheap). destruct (Hheap c u s Hget) as [k' Hk'].
  by rewrite Hnone in Hk'.
Qed.


(** *** The close handler *)

Lemma recipients_after_delete w u (conns : list (Z * SockId)) :
  filter (recipient w None) (JsMap.delete u conns) = filter (recipient w (Some u)) conns.
Proof.
  rewrite JsMapFacts.delete_filter, list_filter_filter.
  apply ListFacts.filter_ext_in. intros e _. unfold recipient. simpl.
  case_bool_decide as Heq; simpl.
  - split; [|done]. intros [_ Hne]. destruct Hne. congruence.
  - split; [by intros [? _]|]. intros ?. split; [done|]. congruence.
Qed.

(** X7 — the [close] event of a socket that carries a (userId,
    canvasId) whose pair is registered: the entry of the pair is
    deleted; when other entries remain, [user-left] is serialised once
    and sent to those with an open socket, and never to the closing
    socket: a socket is handed one copy for each entry under another
    user id that holds it, so an open socket registered for exactly
    one other user gets exactly one. The canvas is left with the other
    entries whose delivery did not fail, and the other canvases are as
    before. When no other entry remains nothing is sent. *)
Theorem close_notifies_canvas w s k u c :
  registry_wf w →
  sockets w !! s = Some k → ws_userId k = Some u → ws_canvasId k = Some c →
  u ≠ 0 → c ≠ 0 →
  is_Some (JsMap.get u (connectionsOf c w)) →
  let w' := closeEvent s w in
  let w1 := with_sockets (alter (set_readyState WS_CLOSED) s) w in
  let conns := connectionsOf c w in
  let left := mkMsg "user-left" (PUserId u) c u (Some (default "" (ws_username k))) in
  new_events w w'
  = (if bool_decide (JsMap.delete u conns = []) then []
     else EvStringify left
          :: (send_event w1 (Stringified left) <$> filter (recipient w1 (Some u)) conns))
  ∧ (∀ f, sends_to s f (new_events w w') = 0%nat)
  ∧ (∀ t, sends_to t (Stringified left) (new_events w w')
          = copies_for w1 (Some u) conns t)
  ∧ (∀ v t kt,
       v ≠ u → t ≠ s → JsMap.get v conns = Some t →
       sockets w !! t = Some kt → readyState kt = WS_OPEN →
       (∀ v', v' ≠ v → JsMap.get v' conns ≠ Some t) →
       sends_to t (Stringified left) (new_events w w') = 1%nat)
  ∧ connectionsOf c w'
    = filter (λ e, negb (delivery_failed w1 None e)) (JsMap.delete u conns)
  ∧ ∀ c', c ≠ c' → connectionsOf c' w' = connectionsOf c' w.
Proof.
  intros Hw Hk Hu Hc Hu0 Hc0 [holder Hget] w' w1 conns left.
  pose proof Hw as (_ & Hwfc & _).
  set (w2 := with_clients (filter (λ t, t ≠ s)) w1).
  assert (sockets w2 !! s = Some (set_readyState WS_CLOSED k)) as Hk2
    by (subst w2 w1; simpl; by rewrite lookup_alter_eq, Hk).
  set (w3 := getCanvasConnections c w2).
  assert (connectionsOf c w3 = conns) as Hconns3
    by (unfold w3; by rewrite connectionsOf_getCanvasConnections).
  set (w4 := update_connections c (JsMap.delete u) w3).
  assert (w' = broadcastToCanvas c left None w4) as Hw'.
  { unfold w', closeEvent. fold w1 w2. unfold onClose. rewrite Hk2. simpl.
    rewrite Hu, Hc. unfold Js.truthyZ.
    rewrite (proj2 (Z.eqb_neq u 0)), (proj2 (Z.eqb_neq c 0)) by done. simpl.
    fold w3. rewrite Hconns3. unfold JsMap.has. fold conns in Hget. by rewrite Hget. }
  assert (sockets w4 = sockets w1) as Hs4
    by (unfold w4, w3; simpl; by rewrite sockets_getCanvasConnections).
  assert (log w4 = log w) as Hl4
    by (unfold w4, w3; simpl; by rewrite log_getCanvasConnections).
  assert (connectionsOf c w4 = JsMap.delete u conns) as Hconns4
    by (unfold w4; by rewrite connectionsOf_update, Hconns3).
  destruct (broadcastToCanvas_spec c left None w4) as (_ & _ & Hl & Hcc & _ & Hother).
  rewrite Hconns4, <- Hw' in Hl, Hcc. rewrite <- Hw' in Hother.
  assert (new_events w w'
          = (if bool_decide (JsMap.delete u conns = []) then []
             else EvStringify left
                  :: (send_event w1 (Stringified left)
                        <$> filter (recipient w1 (Some u)) conns))) as Hev.
  { apply new_events_app. rewrite Hl, Hl4. f_equal. case_bool_decide; [done|]. f_equal.
    rewrite <- recipients_after_delete.
    rewrite (ListFacts.filter_ext_in _ (recipient w1 None))
      by (intros e _; by rewrite (recipient_ext w4 w1)).
    apply list_fmap_ext. intros ? e _. by apply send_event_ext. }
  assert (∀ t f, f ≠ Stringified left → sends_to t f (new_events w w') = 0%nat) as Hframe.
  { intros t f Hf. rewrite Hev. case_bool_decide; [done|].
    rewrite sends_to_stringify_cons. by apply sends_to_other_frame. }
  assert (∀ t, sends_to t (Stringified left) (new_events w w')
               = if bool_decide (JsMap.delete u conns = []) then 0%nat
                 else length (filter (λ e, e.2 = t ∧ recipient w1 (Some u) e) conns))
    as Hcount.
  { intros t. rewrite Hev. case_bool_decide; [done|].
    by rewrite sends_to_stringify_cons, sends_to_recipients. }
  split_and!.
  - done.
  - intros f. destruct (decide (f = Stringified left)) as [->|Hf]; [|by apply Hframe].
    rewrite Hcount. case_bool_decide; [done|].
    rewrite ListFacts.filter_none; [done|]. intros e _ [He Hrec].
    unfold recipient, w1 in Hrec. simpl in Hrec.
    rewrite He, lookup_alter_eq, Hk in Hrec. simpl in Hrec.
    rewrite andb_false_r in Hrec. done.
  - intros t. rewrite Hcount. case_bool_decide as Hnil; [|done].
    symmetry. unfold copies_for. rewrite ListFacts.filter_none; [done|].
    intros [v t'] He [_ Hrec]. unfold recipient in Hrec. simpl in Hrec.
    destruct (decide (v = u)) as [->|Hv];
      [by rewrite bool_decide_eq_true_2 in Hrec|].
    assert ((v, t') ∈ JsMap.delete u conns) as Hin
      by (by apply JsMapFacts.delete_elem).
    rewrite Hnil in Hin. by apply elem_of_nil in Hin.
  - intros v t kt Hv Hts Hgv Hkt Hopt Honly. rewrite Hcount.
    assert (sockets w1 !! t = Some kt) as Hkt1
      by (unfold w1; simpl; by rewrite lookup_alter_ne).
    rewrite (recipients_other w1 conns u v t kt) by (done || apply Hwfc).
    case_bool_decide as Hnil; [|done].
    assert (JsMap.get v (JsMap.delete u conns) = Some t) as Hgd
      by (by rewrite JsMapFacts.get_delete_ne).
    by rewrite Hnil in Hgd.
  - rewrite Hcc by apply JsMapFacts.wf_delete, Hwfc.
    apply ListFacts.filter_ext_in. intros e _. by rewrite (delivery_failed_ext w4 w1).
  - intros c' Hne. rewrite Hother by done. unfold w4.
    rewrite connectionsOf_update_ne by done. unfold w3.
    by rewrite connectionsOf_getCanvasConnections.
Qed.

(** *** Where registrations come from *)

Lemma reg_pingInterval w : canvasConnections (pingInterval w) = canvasConnections w.
Proof.
  unfold pingInterval. generalize (clients w). intros l. revert w.
  induction l as [|s l IH]; intros w; simpl; [done|].
  rewrite IH. by destruct (ping_visit_spec w s) as (_ & _ & -> & _).
Qed.

Lemma reg_heartbeat s w : canvasConnections (heartbeat s w) = canvasConnections w.
Proof.
  unfold heartbeat. destruct (sockets _ !! s); [|done].
  case_bool_decide; [|done]. by rewrite reg_try_send_json.
Qed.

Lemma reg_onConnection s a b c w :
  canvasConnections (onConnection s a b c w) = canvasConnections w.
Proof.
  unfold onConnection. destruct (sockets w !! s); [done|]. by rewrite reg_try_send_json.
Qed.

(** The replacement block adds the entry of its caller and no other. *)
Lemma registerConnection_entries c0 u0 s w c u t :
  JsMap.get u (connectionsOf c (registerConnection c0 u0 s w)) = Some t →
  (c = c0 ∧ u = u0 ∧ t = s) ∨ JsMap.get u (connectionsOf c w) = Some t.
Proof.
  unfold registerConnection.
  set (w1 := getCanvasConnections c0 w).
  set (w2 := match JsMap.get u0 (connectionsOf c0 w1) with
             | Some existingConnection =>
                 if bool_decide (existingConnection ≠ s)
                 then update_connections c0 (JsMap.delete u0)
                        (socket_close existingConnection 1000
                           "Replaced by newer connection" w1)
                 else w1
             | None => w1
             end).
  assert (only_removes w w2) as Hr.
  { eapply only_removes_trans; [apply (only_removes_getCanvasConnections c0)|].
    fold w1. unfold w2. destruct (JsMap.get u0 _); [|apply only_removes_refl].
    case_bool_decide; [|apply only_removes_refl].
    eapply only_removes_trans; [|apply only_removes_delete].
    apply only_removes_registry, reg_socket_close. }
  destruct (decide (c0 = c)) as [<-|Hc].
  - rewrite connectionsOf_update. destruct (decide (u0 = u)) as [<-|Hu].
    + rewrite JsMapFacts.get_set_eq. intros [= <-]. by left.
    + rewrite JsMapFacts.get_set_ne by done. intros Hget. right. by apply Hr.
  - rewrite connectionsOf_update_ne by done. intros Hget. right. by apply Hr.
Qed.

Lemma only_removes_dispatch s data c u w :
  registry_wf w → JsMap.get u (connectionsOf c w) = Some s →
  only_removes w (dispatch s data c u w).
Proof.
  intros Hw Hget. unfold dispatch.
  repeat (destruct (String.eqb _ _)).
  - unfold JsMap.has. rewrite Hget. simpl.
    rewrite bool_decide_eq_false_2 by (intros Hne; by apply Hne).
    eapply only_removes_trans; [apply only_removes_registry, reg_try_send_json|].
    by apply only_removes_broadcastToCanvas, registry_wf_try_send_json.
  - destruct (JsMap.has _ _).
    + eapply only_removes_trans; [by apply only_removes_broadcastToCanvas|].
      apply only_removes_delete.
    + by apply only_removes_broadcastToCanvas.
  - by apply only_removes_broadcastToCanvas.
  - by apply only_removes_broadcastToCanvas.
  - by apply only_removes_registry.
  - apply only_removes_refl.
Qed.

(** X8 — registrations come from frames only: whatever the event
    (connection, frame, pong, close, probe cycle), a socket registered
    for (canvasId, userId) after it was registered for that pair
    before, or the event is a parsed frame that arrived on this very
    socket and names that canvasId and that userId. No event registers
    a socket on behalf of another. *)
Theorem registration_needs_own_frame w i c u t :
  registry_wf w →
  JsMap.get u (connectionsOf c (step w i)) = Some t →
  JsMap.get u (connectionsOf c w) = Some t
  ∨ ∃ data, i = Message t (Parsed data)
            ∧ in_canvasId data = Some c ∧ in_userId data = Some u.
Proof.
  intros Hw. destruct i as [s a b c0|s m|s|s|]; simpl.
  - intros Hget. left. revert Hget. apply only_removes_registry, reg_onConnection.
  - unfold onMessage. destruct (sockets w !! s) as [k|] eqn:Hk; [|by left].
    destruct (negb _); [by left|].
    destruct m as [| |data].
    { intros Hget. left. revert Hget. apply only_removes_registry, reg_try_send_json. }
    { by left. }
    destruct (falsyNum (in_canvasId data)) eqn:Hfc; simpl.
    { intros Hget. left. revert Hget. apply only_removes_registry, reg_try_send_json. }
    destruct (falsyNum (in_userId data)) eqn:Hfu; simpl.
    { intros Hget. left. revert Hget. apply only_removes_registry, reg_try_send_json. }
    destruct (falsyStr (in_type data)) eqn:Hft; simpl.
    { intros Hget. left. revert Hget. apply only_removes_registry, reg_try_send_json. }
    destruct (in_canvasId data) as [c0|] eqn:Hc0; [|done].
    destruct (in_userId data) as [u0|] eqn:Hu0; [|done]. simpl.
    set (w1 := with_sockets _ w).
    assert (is_Some (sockets w1 !! s)) as Hs1
      by (subst w1; simpl; apply is_Some_alter; by rewrite Hk).
    assert (registry_wf w1) as Hw1 by (by apply registry_wf_alter).
    set (w2 := registerConnection c0 u0 s w1).
    assert (registry_wf w2) as Hw2 by (by apply registry_wf_registerConnection).
    set (ack := mkMsg _ _ _ _ _). set (w3 := try_send_json s ack w2).
    assert (registry_wf w3) as Hw3 by (by apply registry_wf_try_send_json).
    assert (canvasConnections w3 = canvasConnections w2) as Hr3
      by apply reg_try_send_json.
    assert (JsMap.get u0 (connectionsOf c0 w3) = Some s) as Hget3.
    { unfold connectionsOf. rewrite Hr3. apply registerConnection_registers. }
    intros Hget. apply (only_removes_dispatch s data c0 u0 w3 Hw3 Hget3) in Hget.
    unfold connectionsOf in Hget. rewrite Hr3 in Hget.
    apply registerConnection_entries in Hget as [(-> & -> & ->)|Hget].
    + right. by exists data.
    + by left.
  - intros Hget. left. revert Hget. apply only_removes_registry, reg_heartbeat.
  - intros Hget. left. revert Hget. by apply only_removes_closeEvent.
  - intros Hget. left. revert Hget. apply only_removes_registry, reg_pingInterval.
Qed.

(** *** The first frame of a pair *)

Lemma set_fresh (u : Z) (s : SockId) (m : list (Z * SockId)) :
  JsMap.get u m = None → JsMap.set u s m = m ++ [(u, s)].
Proof.
  induction m as [|[v t] m IH]; simpl; [done|].
  case_decide; [done|]. intros Hget. by rewrite IH.
Qed.

(** Registering a pair nobody holds appends one entry. *)
Lemma registerConnection_fresh c u s w :
  JsMap.get u (connectionsOf c w) = None →
  let w' := registerConnection c u s w in
  sockets w' = sockets w ∧ clients w' = clients w ∧ log w' = log w
  ∧ connectionsOf c w' = connectionsOf c w ++ [(u, s)]
  ∧ ∀ c', c ≠ c' → connectionsOf c' w' = connectionsOf c' w.
Proof.
  intros Hget. unfold registerConnection.
  rewrite connectionsOf_getCanvasConnections, Hget.
  split_and!; simpl.
  - apply sockets_getCanvasConnections.
  - apply clients_getCanvasConnections.
  - apply log_getCanvasConnections.
  - rewrite connectionsOf_update, connectionsOf_getCanvasConnections.
    by apply set_fresh.
  - intros c' Hne. rewrite connectionsOf_update_ne by done.
    apply connectionsOf_getCanvasConnections.
Qed.

Lemma others_of_fresh (u : Z) (s : SockId) (m : list (Z * SockId)) :
  JsMap.get u m = None →
  filter (λ id, id ≠ u) (JsMap.keys (m ++ [(u, s)])) = JsMap.keys m.
Proof.
  intros Hget. apply JsMapFacts.get_None_keys in Hget.
  unfold JsMap.keys in *. rewrite fmap_app, filter_app. simpl.
  rewrite filter_cons, decide_False by (intros Hne; by apply Hne).
  rewrite filter_nil, app_nil_r.
  apply ListFacts.filter_all. intros v Hv ->. done.
Qed.

(** X17 — the first [join-canvas] of a pair: a [join-canvas] frame that
    arrives on an open socket for a (canvasId, userId) nobody is
    registered for appends the sender to the canvas; the sender is sent
    the acknowledgement and then an [active-users] reply that lists
    every user who was on the canvas; [user-joined] is serialised once
    and sent to the entries that were on the canvas and have an open
    socket, exactly once to an open socket registered for one user.
    Afterwards the canvas holds the earlier entries whose delivery did
    not fail, followed by the sender's, and the other canvases are as
    before. *)
Theorem first_join_announced w s k data c u :
  registry_wf w →
  sockets w !! s = Some k → readyState k = WS_OPEN →
  in_type data = Some "join-canvas" →
  in_canvasId data = Some c → c ≠ 0 →
  in_userId data = Some u → u ≠ 0 →
  JsMap.get u (connectionsOf c w) = None →
  let w' := onMessage s (Parsed data) w in
  let conns := connectionsOf c w in
  let ok := negb (send_throws k) in
  let ack := mkMsg "connection-acknowledged" (PAcknowledged (JsMap.keys conns ++ [u])) c u
                   (in_username data) in
  let au := mkMsg "active-users" (PActiveUsers (JsMap.keys conns)) c 0 (Some "server") in
  let joined := mkMsg "user-joined" (PUser u (in_username data)) c u (in_username data) in
  new_events w w'
  = [EvStringify ack; EvSend s (Stringified ack) ok;
     EvStringify au; EvSend s (Stringified au) ok]
    ++ EvStringify joined
       :: (send_event w (Stringified joined) <$> filter (recipient w (Some u)) conns)
  ∧ (∀ v t kt,
       JsMap.get v conns = Some t →
       sockets w !! t = Some kt → readyState kt = WS_OPEN →
       (∀ v', v' ≠ v → JsMap.get v' conns ≠ Some t) →
       sends_to t (Stringified joined) (new_events w w') = 1%nat)
  ∧ connectionsOf c w'
    = filter (λ e, negb (delivery_failed w (Some u) e)) conns ++ [(u, s)]
  ∧ ∀ c', c ≠ c' → connectionsOf c' w' = connectionsOf c' w.
Proof.
  intros Hw Hk Hopen Hty Hc Hc0 Hu Hu0 Hfree w' conns ok ack au joined.
  pose proof Hw as (_ & Hwfc & _).
  subst w'. unfold onMessage. rewrite Hk, bool_decide_eq_true_2 by done.
  cbn [negb]. rewrite Hc, Hu, Hty. cbn [falsyNum falsyStr from_option id].
  rewrite (proj2 (Z.eqb_neq c 0)) by done.
  rewrite (proj2 (Z.eqb_neq u 0)) by done. cbn [String.eqb orb].
  set (g := λ k0, set_isAlive true (set_identity u c (in_username data) k0)).
  set (w1 := with_sockets (alter g s) w).
  assert (same_transport w1 w) as Ht1 by (by apply same_transport_alter).
  assert (sockets w1 !! s = Some (g k)) as Hk1
    by (subst w1; cbn [sockets with_sockets]; by rewrite lookup_alter_eq, Hk).
  assert (JsMap.get u (connectionsOf c w1) = None) as Hfree1 by done.
  pose proof (registerConnection_fresh c u s w1 Hfree1) as Hreg. cbv zeta in Hreg.
  destruct Hreg as (Hs2 & Hc2 & Hl2 & Hcc2 & Ho2).
  set (w2 := registerConnection c u s w1) in *.
  change (connectionsOf c w1) with conns in Hcc2.
  rewrite Hcc2.
  assert (JsMap.keys (conns ++ [(u, s)]) = JsMap.keys conns ++ [u]) as Hkeys
    by (unfold JsMap.keys; by rewrite fmap_app).
  rewrite Hkeys. fold ack.
  assert (sockets w2 !! s = Some (g k)) as Hk2 by (by rewrite Hs2).
  pose proof (try_send_json_spec s ack (g k) w2 Hk2) as H3. cbv zeta in H3.
  destruct H3 as (Hs3 & Hc3 & Hr3 & Hl3).
  set (w3 := try_send_json s ack w2) in *.
  assert (∀ c', connectionsOf c' w3 = connectionsOf c' w2) as Hconns3
    by (intros c'; unfold connectionsOf; by rewrite Hr3).
  assert (JsMap.get u (conns ++ [(u, s)]) = Some s) as Hnow.
  { rewrite <- (set_fresh u s conns) by done. apply JsMapFacts.get_set_eq. }
  unfold dispatch. rewrite Hty. cbn [from_option id String.eqb Ascii.eqb Bool.eqb].
  rewrite Hconns3, Hcc2. unfold JsMap.has. rewrite Hnow. cbn [negb orb].
  rewrite bool_decide_eq_false_2 by (intros Hne; by apply Hne).
  rewrite Hconns3, Hcc2, Hkeys.
  assert (filter (λ id, id ≠ u) (JsMap.keys conns ++ [u]) = JsMap.keys conns) as Hothers
    by (rewrite <- Hkeys; by apply others_of_fresh).
  rewrite Hothers. fold au joined.
  assert (sockets w3 !! s = Some (g k)) as Hk3 by (by rewrite Hs3).
  pose proof (try_send_json_spec s au (g k) w3 Hk3) as H4. cbv zeta in H4.
  destruct H4 as (Hs4 & Hc4 & Hr4 & Hl4).
  set (w4 := try_send_json s au w3) in *.
  assert (∀ c', connectionsOf c' w4 = connectionsOf c' w3) as Hconns4
    by (intros c'; unfold connectionsOf; by rewrite Hr4).
  assert (same_transport w4 w) as Ht4.
  { apply (same_transport_eq _ w1); [by rewrite Hs4, Hs3, Hs2 | done]. }
  destruct (broadcastToCanvas_spec c joined (Some u) w4)
    as (Hs5 & Hc5 & Hl5 & Hcc5 & _ & Ho5).
  rewrite Hconns4, Hconns3, Hcc2 in Hl5, Hcc5.
  assert (conns ++ [(u, s)] ≠ []) as Hne by (by destruct conns).
  rewrite bool_decide_eq_false_2 in Hl5 by done.
  assert (filter (recipient w4 (Some u)) (conns ++ [(u, s)])
          = filter (recipient w (Some u)) conns) as Hrecip.
  { rewrite filter_app, filter_cons.
    assert (recipient w4 (Some u) (u, s) = false) as ->
      by (unfold recipient; simpl; by rewrite bool_decide_eq_true_2).
    simpl. rewrite filter_nil, app_nil_r.
    apply ListFacts.filter_ext_in. intros e _.
    by destruct (same_transport_views w4 w (Some u) (Stringified joined) e Ht4)
      as (-> & _). }
  rewrite Hrecip in Hl5.
  assert (new_events w (broadcastToCanvas c joined (Some u) w4)
          = [EvStringify ack; EvSend s (Stringified ack) ok;
             EvStringify au; EvSend s (Stringified au) ok]
            ++ EvStringify joined
               :: (send_event w (Stringified joined)
                     <$> filter (recipient w (Some u)) conns)) as Hev.
  { apply new_events_app. rewrite Hl5, Hl4, Hl3, Hl2. simpl.
    rewrite <- !app_assoc. simpl. do 6 f_equal.
    apply list_fmap_ext. intros ? e _.
    by destruct (same_transport_views w4 w (Some u) (Stringified joined) e Ht4)
      as (_ & _ & ->). }
  split_and!.
  - exact Hev.
  - intros v t kt Hgv Hkt Hopt Honlyt.
    assert (v ≠ u) as Hv by (intros ->; fold conns in Hfree; congruence).
    rewrite Hev, sends_to_app, !sends_to_cons, sends_to_nil.
    rewrite !is_send_to_stringify.
    rewrite !is_send_to_other_frame by (by intros [=]).
    rewrite sends_to_recipients.
    by rewrite (recipients_other w conns u v t kt) by (done || apply Hwfc).
  - rewrite Hcc5.
    + rewrite filter_app, filter_cons.
      assert (delivery_failed w4 (Some u) (u, s) = false) as Hkeep
        by (unfold delivery_failed; simpl; by rewrite bool_decide_eq_true_2).
      rewrite decide_True by (by rewrite Hkeep).
      rewrite filter_nil. f_equal.
      apply ListFacts.filter_ext_in. intros e _.
      by destruct (same_transport_views w4 w (Some u) (Stringified joined) e Ht4)
        as (_ & -> & _).
    + unfold JsMap.wf. rewrite Hkeys. apply NoDup_app. split_and!.
      * apply Hwfc.
      * intros x Hx Hx'. apply list_elem_of_singleton in Hx' as ->.
        by apply (JsMapFacts.get_None_keys u conns) in Hfree.
      * apply NoDup_singleton.
  - intros c' Hne'. rewrite Ho5, Hconns4, Hconns3, Ho2 by done. done.
Qed.

(** *** The fallback scan of the [close] handler *)

(** X18 — the fallback of the [close] handler: when a socket closes
    whose stored userId and canvasId do not name a registered pair (it
    never sent a valid frame, or the pair has been unregistered
    since), the handler searches every canvas, and afterwards the
    socket is registered with none; registrations are only removed on
    the way, never added. *)
Theorem close_fallback_clears w s k :
  registry_wf w → sockets w !! s = Some k → ¬ stored_pair_registered k w →
  let w' := closeEvent s w in
  unregistered s w' ∧ only_removes w w'.
Proof.
  intros Hw Hk Hnot w'. split; [|by apply only_removes_closeEvent].
  unfold w', closeEvent.
  set (w2 := with_clients _ _).
  assert (registry_wf w2) as Hw2.
  { apply (registry_wf_transfer (with_sockets (alter (set_readyState WS_CLOSED) s) w));
      [done..|]. by apply registry_wf_alter. }
  assert (sockets w2 !! s = Some (set_readyState WS_CLOSED k)) as Hk2
    by (subst w2; simpl; by rewrite lookup_alter_eq, Hk).
  unfold onClose. rewrite Hk2. simpl.
  destruct (ws_userId k) as [u|] eqn:Hu; [|by apply close_scan_clears].
  destruct (ws_canvasId k) as [c|] eqn:Hc; [|by apply close_scan_clears].
  destruct (truthyZ u && truthyZ c) eqn:Htruthy; [|by apply close_scan_clears].
  apply andb_true_iff in Htruthy as [Hu0 Hc0].
  unfold JsMap.has. rewrite connectionsOf_getCanvasConnections.
  destruct (JsMap.get u (connectionsOf c w2)) as [t|] eqn:Hget.
  - destruct Hnot. exists u, c. split_and!; try done; by intros ->.
  - by apply close_scan_clears, registry_wf_getCanvasConnections.
Qed.

(** *** What keeps a registration *)

Section held.
Variables (c u : Z) (s : SockId).

Lemma held_same w w' :
  registry_wf w' → connectionsOf c w' = connectionsOf c w →
  sockets w' !! s = sockets w !! s →
  held c u s w → held c u s w'.
Proof.
  intros Hw' Hc Hs (_ & Hget & k & Hk & Hopen & Hsend).
  split_and!; [done|by rewrite Hc|]. exists k. by rewrite Hs.
Qed.

Lemma held_getCanvasConnections c' w :
  held c u s w → held c u s (getCanvasConnections c' w).
Proof.
  intros H. pose proof H as (Hw & _). apply (held_same w); [| | |done].
  - by apply registry_wf_getCanvasConnections.
  - apply connectionsOf_getCanvasConnections.
  - by rewrite sockets_getCanvasConnections.
Qed.

Lemma held_try_send_json t m w : held c u s w → held c u s (try_send_json t m w).
Proof.
  intros H. pose proof H as (Hw & _). apply (held_same w); [| | |done].
  - by apply registry_wf_try_send_json.
  - apply connectionsOf_registry, reg_try_send_json.
  - unfold try_send_json, socket_send. simpl. by destruct (sockets w !! t).
Qed.

Lemma held_alter g t w :
  (t ≠ s ∨ ∀ k, readyState (g k) = readyState k ∧ send_throws (g k) = send_throws k) →
  held c u s w → held c u s (with_sockets (alter g t) w).
Proof.
  intros Hg (Hw & Hget & k & Hk & Hopen & Hsend).
  split_and!; [by apply registry_wf_alter|done|]. unfold deliverable. simpl.
  destruct (decide (t = s)) as [->|Hne].
  - destruct Hg as [?|Hg]; [done|]. exists (g k).
    rewrite lookup_alter_eq, Hk. destruct (Hg k) as [-> ->]. done.
  - exists k. by rewrite lookup_alter_ne.
Qed.

Lemma held_delete c' u' w :
  (c', u') ≠ (c, u) → held c u s w →
  held c u s (update_connections c' (JsMap.delete u') w).
Proof.
  intros Hne (Hw & Hget & Hd).
  split_and!; [by apply registry_wf_delete| |done].
  destruct (decide (c' = c)) as [->|Hc].
  - rewrite connectionsOf_update, JsMapFacts.get_delete_ne; [done|congruence].
  - by rewrite connectionsOf_update_ne.
Qed.

Lemma held_set c' u' t w :
  (c', u') ≠ (c, u) → is_Some (sockets w !! t) → held c u s w →
  held c u s (update_connections c' (JsMap.set u' t) w).
Proof.
  intros Hne Ht (Hw & Hget & Hd).
  split_and!; [by apply registry_wf_set| |done].
  destruct (decide (c' = c)) as [->|Hc].
  - rewrite connectionsOf_update, JsMapFacts.get_set_ne; [done|congruence].
  - by rewrite connectionsOf_update_ne.
Qed.

Lemma held_socket_close t code reason w :
  t ≠ s → held c u s w → held c u s (socket_close t code reason w).
Proof.
  intros Hne H. pose proof H as (Hw & _). apply (held_same w); [| | |done].
  - by apply registry_wf_socket_close.
  - apply connectionsOf_registry, reg_socket_close.
  - unfold socket_close. destruct (sockets w !! t) as [k|]; [|done].
    destruct (close_throws k); simpl; [done|]. by rewrite lookup_alter_ne.
Qed.

(** A fan-out does not drop an entry it can deliver to. *)
Lemma held_broadcastToCanvas c' m x w :
  held c u s w → held c u s (broadcastToCanvas c' m x w).
Proof.
  intros (Hw & Hget & k & Hk & Hopen & Hsend).
  pose proof Hw as (_ & Hwfc & _).
  destruct (broadcastToCanvas_spec c' m x w) as (Hs & _ & _ & Hcc & _ & Hother).
  split_and!; [by apply registry_wf_broadcastToCanvas| |exists k; by rewrite Hs].
  destruct (decide (c' = c)) as [->|Hc]; [|by rewrite Hother].
  rewrite Hcc by apply Hwfc. apply JsMapFacts.get_filter; [apply Hwfc|done|].
  unfold delivery_failed. simpl. rewrite Hk, Hopen, Hsend.
  by rewrite andb_false_r.
Qed.

Lemma held_registerConnection c' u' t w :
  (c', u') ≠ (c, u) → is_Some (sockets w !! t) →
  JsMap.get u' (connectionsOf c' w) ≠ Some s →
  held c u s w → held c u s (registerConnection c' u' t w).
Proof.
  intros Hne Ht Hnot H. unfold registerConnection.
  apply (held_getCanvasConnections c') in H.
  rewrite <- (sockets_getCanvasConnections c') in Ht.
  rewrite <- (connectionsOf_getCanvasConnections c' c') in Hnot.
  set (w0 := getCanvasConnections c' w) in *.
  destruct (JsMap.get u' (connectionsOf c' w0)) as [old|] eqn:Hold;
    [|by apply held_set].
  case_bool_decide; [|by apply held_set].
  apply held_set; [done| |].
  - apply (fr_heap _ _ (frame_update_connections _ _ _)).
    by apply (fr_heap _ _ (frame_socket_close _ _ _ _)).
  - apply held_delete; [done|]. apply held_socket_close; [congruence|done].
Qed.

Lemma held_dispatch t data c' u' w :
  (c', u') ≠ (c, u) → is_Some (sockets w !! t) →
  held c u s w → held c u s (dispatch t data c' u' w).
Proof.
  intros Hne Ht H. unfold dispatch. repeat (destruct (String.eqb _ _)).
  - apply held_broadcastToCanvas, held_try_send_json.
    destruct (_ || _); [by apply held_set|done].
  - destruct (JsMap.has _ _).
    + by apply held_delete, held_broadcastToCanvas.
    + by apply held_broadcastToCanvas.
  - by apply held_broadcastToCanvas.
  - by apply held_broadcastToCanvas.
  - apply held_alter; [|done]. right. by intros k.
  - done.
Qed.

Lemma held_onMessage t message w :
  (∀ c' u', JsMap.get u' (connectionsOf c' w) = Some s → c' = c ∧ u' = u) →
  ¬ speaks_for c u w (Message t message) →
  held c u s w → held c u s (onMessage t message w).
Proof.
  intros Honly Hnot H. unfold onMessage.
  destruct (sockets w !! t) as [k|] eqn:Hk; [|done].
  destruct (negb _); [done|].
  destruct message as [| |data]; [by apply held_try_send_json|done|].
  destruct (in_canvasId data) as [c'|] eqn:Hc'; [|by apply held_try_send_json].
  destruct (in_userId data) as [u'|] eqn:Hu';
    [|rewrite orb_true_r; by apply held_try_send_json].
  destruct (_ || _); [by apply held_try_send_json|]. simpl.
  assert ((c', u') ≠ (c, u)) as Hne.
  { intros [= -> ->]. apply Hnot. simpl. by rewrite Hc', Hu'. }
  set (g := λ k0, set_isAlive true (set_identity u' c' (in_username data) k0)).
  set (w1 := with_sockets (alter g t) w).
  assert (is_Some (sockets w1 !! t)) as Ht1
    by (subst w1; simpl; apply is_Some_alter; by rewrite Hk).
  assert (held c u s w1) as H1.
  { apply held_alter; [|done]. right. by intros k0. }
  assert (held c u s (registerConnection c' u' t w1)) as H2.
  { apply held_registerConnection; [done..| |done].
    intros Hs. destruct (Honly c' u' Hs) as [-> ->]. done. }
  apply held_dispatch; [done| |by apply held_try_send_json].
  apply (fr_heap _ _ (frame_try_send_json _ _ _)).
  by apply (fr_heap _ _ (frame_registerConnection _ _ _ _)).
Qed.

Lemma held_foldl {A} (f : World → A → World) l :
  (∀ w a, held c u s w → held c u s (f w a)) →
  ∀ w, held c u s w → held c u s (foldl f w l).
Proof.
  intros Hf. induction l as [|a l IH]; intros w Hw; simpl; [done|]. by apply IH, Hf.
Qed.

Lemma held_close_scan t w : t ≠ s → held c u s w → held c u s (close_scan t w).
Proof.
  intros Hne. unfold close_scan. apply held_foldl. clear w. intros w e.
  unfold close_scan_users. apply held_foldl. clear w. intros w e' H.
  destruct (JsMap.get e'.1 _) as [t'|] eqn:Hget; [|done].
  case_bool_decide as Ht; [|done]. subst t'.
  apply held_broadcastToCanvas, held_delete; [|done].
  intros [= Hc Hu]. rewrite Hc, Hu in Hget.
  destruct H as (_ & Hs & _). congruence.
Qed.

Lemma held_closeEvent t w :
  t ≠ s → ¬ speaks_for c u w (CloseEvent t) →
  held c u s w → held c u s (closeEvent t w).
Proof.
  intros Hne Hnot H. unfold closeEvent.
  set (w1 := with_sockets (alter (set_readyState WS_CLOSED) t) w).
  assert (held c u s w1) as H1 by (apply held_alter; [by left|done]).
  set (w2 := with_clients _ w1).
  assert (held c u s w2) as H2.
  { destruct H1 as (Hw1 & ?). apply (held_same w1); [|done..].
    by apply (registry_wf_transfer w1). }
  unfold onClose.
  destruct (sockets w2 !! t) as [k2|] eqn:Hk2; [|done].
  destruct (ws_userId k2) as [ut|] eqn:Hut; [|by apply held_close_scan].
  destruct (ws_canvasId k2) as [ct|] eqn:Hct; [|by apply held_close_scan].
  destruct (_ && _); [|by apply held_close_scan].
  destruct (JsMap.has _ _); [|by apply held_close_scan, held_getCanvasConnections].
  apply held_broadcastToCanvas, held_delete; [|by apply held_getCanvasConnections].
  intros [= -> ->]. apply Hnot. simpl.
  subst w2 w1. simpl in Hk2. rewrite lookup_alter_eq in Hk2.
  destruct (sockets w !! t) as [k|]; [|done]. injection Hk2 as <-.
  by exists k.
Qed.

End held.

(** X20 — what keeps a registration. A socket that is open, whose
    [send] does not throw and that is registered for one pair
    (canvasId, userId) only, stays registered for it through every
    event but three: its own close, a frame that names the pair, and
    the close of a socket that carries the pair. Frames of other
    users, their joining, leaving and closing, pongs, new connections
    and probe cycles never cost it its registration. *)
Theorem registration_survives w i c u s :
  registry_wf w →
  JsMap.get u (connectionsOf c w) = Some s → deliverable s w →
  (∀ c' u', JsMap.get u' (connectionsOf c' w) = Some s → c' = c ∧ u' = u) →
  i ≠ CloseEvent s → ¬ speaks_for c u w i →
  JsMap.get u (connectionsOf c (step w i)) = Some s.
Proof.
  intros Hw Hget Hd Honly Hclose Hnot.
  assert (held c u s w) as H by done.
  destruct i as [t a b d|t message|t|t|]; simpl.
  - by rewrite (connectionsOf_registry w _ c (reg_onConnection t a b d w)).
  - by apply (held_onMessage c u s t message w Honly Hnot H).
  - by rewrite (connectionsOf_registry w _ c (reg_heartbeat t w)).
  - apply (held_closeEvent c u s t w); [congruence|done..].
  - by rewrite (connectionsOf_registry w _ c (reg_pingInterval w)).
Qed.

End SessionFacts.

(** ** The store *)

Module StorageFacts.
Import Js Storage.

(** *** Statements against a healthy database *)

Lemma statement_healthy {A} (run : Db → A * Db) db :
  healthy db → statement run db = (Some (run (bump db)).1, (run (bump db)).2).
Proof. intros H. unfold statement. rewrite H. by destruct (run (bump db)). Qed.

Lemma bind_Some {A B} (m : M A) (f : A → M B) db a db' :
  m db = (Some a, db') → bind m f db = f a db'.
Proof. intros H. unfold bind. by rewrite H. Qed.

Lemma bind_None {A B} (m : M A) (f : A → M B) db db' :
  m db = (None, db') → bind m f db = (None, db').
Proof. intros H. unfold bind. by rewrite H. Qed.

Lemma same_env_healthy db db' : same_env db db' → healthy db → healthy db'.
Proof. intros [_ _ _ Hf] H n. by rewrite Hf. Qed.

(** *** The element loop *)

Lemma numbered_element_rows_cons c next el rest :
  numbered_element_rows c next (el :: rest)
  = if typed el then element_row c el next :: numbered_element_rows c (next + 1) rest
    else numbered_element_rows c next rest.
Proof.
  unfold numbered_element_rows. destruct (typed el) eqn:Hty.
  - rewrite filter_cons_True by (by rewrite Hty). rewrite imap_cons. f_equal.
    + f_equal. lia.
    + apply imap_ext. intros i x _. simpl. f_equal. lia.
  - rewrite filter_cons_False; [done|]. rewrite Hty. simpl. tauto.
Qed.

Lemma insert_elements_healthy c elements : ∀ maps db,
  healthy db →
  ∃ db',
    insert_elements c elements maps db
    = (Some (element_maps (next_element_id db) elements maps), db')
    ∧ same_env db db'
    ∧ canvas_elements db'
      = canvas_elements db ++ numbered_element_rows c (next_element_id db) elements
    ∧ connections db' = connections db
    ∧ next_connection_id db' = next_connection_id db.
Proof.
  induction elements as [|el rest IH]; intros maps db Hh.
  - exists db. simpl. unfold numbered_element_rows. simpl.
    rewrite app_nil_r. by split_and!.
  - cbn [insert_elements element_maps]. rewrite numbered_element_rows_cons.
    unfold typed. destruct (truthy (e_type el)) eqn:Hty; simpl.
    + unfold insert_element. erewrite bind_Some by (by apply statement_healthy).
      simpl.
      set (db1 := mkDb _ _ _ _ _ _ _ _ _).
      destruct (IH (mkMaps (<[String (e_id el) := next_element_id db]>
                              (clientIdToDbId maps))
                           (harvest_element el (additionalIdMap maps))) db1)
        as (db' & Hrun & [Hc Hco Hcl Hf] & Hel & Hcn & Hnc); [done|].
      exists db'. split_and!; try done.
      rewrite Hel. subst db1. simpl. by rewrite <- app_assoc.
    + apply IH. done.
Qed.

(** *** The connection loop *)

Lemma insert_connections_healthy c maps valid : ∀ db,
  healthy db →
  ∃ db',
    insert_connections c maps valid db = (Some tt, db')
    ∧ same_env db db'
    ∧ canvas_elements db' = canvas_elements db
    ∧ connections db'
      = connections db
        ++ imap (persisted_row c maps (next_connection_id db))
                (filter (insertable maps) valid).
Proof.
  induction valid as [|conn rest IH]; intros db Hh.
  - exists db. simpl. rewrite app_nil_r. by split_and!.
  - cbn [insert_connections]. unfold insertable at 1.
    destruct (clientIdToDbId maps !! String (c_source conn)) as [s|] eqn:Hs;
      [|rewrite filter_cons_False; [by apply IH|];
        unfold insertable; rewrite Hs; simpl; tauto].
    destruct (clientIdToDbId maps !! String (c_target conn)) as [t|] eqn:Ht;
      [|rewrite filter_cons_False; [by apply IH|];
        unfold insertable; rewrite Hs, Ht; simpl; tauto].
    destruct (truthyZ s && truthyZ t) eqn:Htr.
    + rewrite filter_cons_True by (unfold insertable; by rewrite Hs, Ht, Htr).
      rewrite imap_cons.
      apply andb_true_iff in Htr as [-> ->]. simpl.
      unfold insert_connection. erewrite bind_Some by (by apply statement_healthy).
      simpl. set (db1 := mkDb _ _ _ _ _ _ _ _ _).
      destruct (IH db1) as (db' & Hrun & [Hc Hco Hcl Hf] & Hel & Hcn); [done|].
      exists db'. split_and!; try done.
      rewrite Hcn. subst db1. simpl. rewrite <- app_assoc. f_equal.
      simpl. f_equal.
      * unfold persisted_row. rewrite Hs, Ht. simpl. f_equal. lia.
      * apply imap_ext. intros i x _. unfold persisted_row. simpl. f_equal. lia.
    + rewrite filter_cons_False
        by (unfold insertable; rewrite Hs, Ht, Htr; simpl; tauto).
      apply andb_false_iff in Htr as [->| ->]; simpl; rewrite ?orb_true_r; by apply IH.
Qed.

(** *** The whole replacement against a healthy database *)

Lemma replaceCanvasState_healthy c elements edges db :
  healthy db →
  let maps := element_maps (next_element_id db) elements (mkMaps ∅ ∅) in
  ∃ db',
    replaceCanvasState c elements edges db = (Some true, db')
    ∧ healthy db'
    ∧ canvas_elements db'
      = filter (λ r, el_canvasId r ≠ c) (canvas_elements db)
        ++ numbered_element_rows c (next_element_id db) elements
    ∧ connections db'
      = filter (λ r, cn_canvasId r ≠ c) (connections db)
        ++ imap (persisted_row c maps (next_connection_id db)) (persisted maps edges)
    ∧ canvases db'
      = (λ r, if bool_decide (cv_id r = c)
              then apply_patch (mkPatch None None None (Some (clock db))) r else r)
        <$> canvases db
    ∧ collaborators db' = collaborators db.
Proof.
  intros Hh maps. unfold replaceCanvasState, catch.
  erewrite bind_Some by (by apply statement_healthy). simpl.
  erewrite bind_Some by (by apply statement_healthy). simpl.
  set (db2 := with_connections _ _).
  destruct (insert_elements_healthy c elements (mkMaps ∅ ∅) db2)
    as (db3 & Hrun3 & [Hc3 Hco3 Hcl3 Hf3] & Hel3 & Hcn3 & Hnc3); [exact Hh|].
  erewrite bind_Some by exact Hrun3.
  assert (healthy db3) as Hh3 by (intros n; rewrite Hf3; apply Hh).
  change (next_element_id db2) with (next_element_id db). fold maps.
  destruct (insert_connections_healthy c maps
              (filter (valid_connection maps) (preprocess maps <$> edges)) db3)
    as (db4 & Hrun4 & [Hc4 Hco4 Hcl4 Hf4] & Hel4 & Hcn4); [done|].
  erewrite bind_Some by exact Hrun4.
  assert (healthy db4) as Hh4 by (intros n; by rewrite Hf4).
  erewrite bind_Some by (by apply statement_healthy). simpl.
  eexists. split; [reflexivity|]. simpl. split_and!.
  - intros n. simpl. rewrite Hf4. apply Hh3.
  - by rewrite Hel4, Hel3.
  - by rewrite Hcn4, Hcn3, Hnc3.
  - by rewrite Hc4, Hc3, Hcl4, Hcl3.
  - by rewrite Hco4, Hco3.
Qed.

(** *** The replacement against any database *)

Lemma statement_cases {A} (run : Db → A * Db) db :
  statement run db = (None, bump db)
  ∨ statement run db = (Some (run (bump db)).1, (run (bump db)).2).
Proof.
  unfold statement. destruct (fails db (queries db)); [by left|].
  right. by destruct (run (bump db)).
Qed.

(** Whatever the database answers, the element loop appends a prefix
    of the rows it would insert, and all of them when it completes. *)
Lemma insert_elements_any c elements : ∀ maps db,
  ∃ k,
    canvas_elements (insert_elements c elements maps db).2
    = canvas_elements db
      ++ take k (numbered_element_rows c (next_element_id db) elements)
    ∧ connections (insert_elements c elements maps db).2 = connections db
    ∧ next_connection_id (insert_elements c elements maps db).2 = next_connection_id db
    ∧ ∀ m, (insert_elements c elements maps db).1 = Some m →
           m = element_maps (next_element_id db) elements maps
           ∧ canvas_elements (insert_elements c elements maps db).2
             = canvas_elements db
               ++ numbered_element_rows c (next_element_id db) elements.
Proof.
  induction elements as [|el rest IH]; intros maps db.
  - exists 0%nat. simpl. rewrite app_nil_r. split_and!; try done.
    intros m [= <-]. split; [done|]. unfold numbered_element_rows. simpl.
    by rewrite app_nil_r.
  - cbn [insert_elements element_maps]. rewrite numbered_element_rows_cons.
    unfold typed. destruct (truthy (e_type el)) eqn:Hty; simpl; [|apply IH].
    unfold insert_element, bind.
    match goal with
    | |- context [statement ?run db] =>
        destruct (statement_cases run db) as [Hs|Hs]; rewrite Hs
    end.
    + exists 0%nat. simpl. rewrite app_nil_r. by split_and!.
    + simpl. set (db1 := mkDb _ _ _ _ _ _ _ _ _).
      destruct (IH (mkMaps (<[String (e_id el) := next_element_id db]>
                              (clientIdToDbId maps))
                           (harvest_element el (additionalIdMap maps))) db1)
        as (k & Hel & Hcn & Hnc & Hfull).
      exists (S k). split_and!; try done.
      * rewrite Hel. subst db1. simpl. by rewrite <- app_assoc.
      * intros m Hm. destruct (Hfull m Hm) as [-> Hall]. split; [done|].
        rewrite Hall. subst db1. simpl. by rewrite <- app_assoc.
Qed.

(** Whatever the database answers, the connection loop appends a prefix
    of the rows of the insertable connections. *)
Lemma insert_connections_any c maps valid : ∀ db,
  ∃ k,
    canvas_elements (insert_connections c maps valid db).2 = canvas_elements db
    ∧ connections (insert_connections c maps valid db).2
      = connections db
        ++ take k (imap (persisted_row c maps (next_connection_id db))
                        (filter (insertable maps) valid)).
Proof.
  induction valid as [|conn rest IH]; intros db.
  - exists 0%nat. simpl. by rewrite app_nil_r.
  - cbn [insert_connections]. unfold insertable at 1.
    destruct (clientIdToDbId maps !! String (c_source conn)) as [s|] eqn:Hs;
      [|rewrite filter_cons_False; [by apply IH|];
        unfold insertable; rewrite Hs; simpl; tauto].
    destruct (clientIdToDbId maps !! String (c_target conn)) as [t|] eqn:Ht;
      [|rewrite filter_cons_False; [by apply IH|];
        unfold insertable; rewrite Hs, Ht; simpl; tauto].
    destruct (truthyZ s && truthyZ t) eqn:Htr.
    + rewrite filter_cons_True by (unfold insertable; by rewrite Hs, Ht, Htr).
      rewrite imap_cons.
      apply andb_true_iff in Htr as [-> ->]. simpl.
      unfold insert_connection, bind.
      match goal with
      | |- context [statement ?run db] =>
          destruct (statement_cases run db) as [Hst|Hst]; rewrite Hst
      end.
      * exists 0%nat. simpl. by rewrite app_nil_r.
      * simpl. set (db1 := mkDb _ _ _ _ _ _ _ _ _).
        destruct (IH db1) as (k & Hel & Hcn).
        exists (S k). rewrite Hel, Hcn. subst db1. simpl. split; [done|].
        rewrite <- app_assoc. f_equal. simpl. f_equal.
        -- unfold persisted_row. rewrite Hs, Ht. simpl. f_equal. lia.
        -- f_equal. apply imap_ext. intros i x _. unfold persisted_row. simpl.
           f_equal. lia.
    + rewrite filter_cons_False
        by (unfold insertable; rewrite Hs, Ht, Htr; simpl; tauto).
      apply andb_false_iff in Htr as [->| ->]; simpl; rewrite ?orb_true_r; by apply IH.
Qed.

(** Whatever the database answers, the connections the call leaves are
    those it found, or those of the other canvases, followed by a
    prefix of the rows of the persisted connections; and no connection
    is added before every element row is in place. *)
Lemma replaceCanvasState_any c elements edges db :
  let maps := element_maps (next_element_id db) elements (mkMaps ∅ ∅) in
  ∃ kept k,
    connections (replaceCanvasState c elements edges db).2
    = kept ++ take k (imap (persisted_row c maps (next_connection_id db))
                           (persisted maps edges))
    ∧ (kept = connections db
       ∨ kept = filter (λ r, cn_canvasId r ≠ c) (connections db))
    ∧ (k = 0%nat
       ∨ canvas_elements (replaceCanvasState c elements edges db).2
         = filter (λ r, el_canvasId r ≠ c) (canvas_elements db)
           ++ numbered_element_rows c (next_element_id db) elements).
Proof.
  intros maps. unfold replaceCanvasState, catch, bind.
  match goal with
  | |- context [statement ?run db] =>
      destruct (statement_cases run db) as [Hs|Hs]; rewrite Hs
  end.
  { exists (connections db), 0%nat. simpl. rewrite app_nil_r. by split_and!; [|left|left]. }
  simpl. set (db1 := with_elements _ _).
  match goal with
  | |- context [statement ?run db1] =>
      destruct (statement_cases run db1) as [Hs1|Hs1]; rewrite Hs1
  end.
  { exists (connections db), 0%nat. simpl. rewrite app_nil_r. by split_and!; [|left|left]. }
  simpl. set (db2 := with_connections _ _).
  destruct (insert_elements_any c elements (mkMaps ∅ ∅) db2)
    as (k3 & Hel3 & Hcn3 & Hnc3 & Hfull3).
  destruct (insert_elements c elements (mkMaps ∅ ∅) db2) as [[m|] db3] eqn:Hrun3;
    simpl in Hel3, Hcn3, Hnc3, Hfull3.
  2:{ exists (filter (λ r, cn_canvasId r ≠ c) (connections db)), 0%nat. simpl.
      rewrite app_nil_r, Hcn3. by split_and!; [|right|left]. }
  destruct (Hfull3 m eq_refl) as [-> Hall3].
  change (next_element_id db2) with (next_element_id db) in *. fold maps.
  destruct (insert_connections_any c maps
              (filter (valid_connection maps) (preprocess maps <$> edges)) db3)
    as (k4 & Hel4 & Hcn4).
  rewrite Hnc3, Hcn3 in Hcn4. rewrite Hall3 in Hel4.
  change (next_connection_id db2) with (next_connection_id db) in Hcn4.
  destruct (insert_connections c maps _ db3) as [[[]|] db4] eqn:Hrun4;
    simpl in Hel4, Hcn4.
  2:{ exists (filter (λ r, cn_canvasId r ≠ c) (connections db)), k4. simpl.
      split_and!; [done|by right|by right]. }
  match goal with
  | |- context [statement ?run db4] =>
      destruct (statement_cases run db4) as [Hs4|Hs4]; rewrite Hs4
  end.
  - exists (filter (λ r, cn_canvasId r ≠ c) (connections db)), k4. simpl.
    split_and!; [done|by right|by right].
  - exists (filter (λ r, cn_canvasId r ≠ c) (connections db)), k4. simpl.
    split_and!; [done|by right|by right].
Qed.

(** *** The rows of one canvas after the replacement *)

Lemma numbered_element_rows_canvas c next elements row :
  row ∈ numbered_element_rows c next elements → el_canvasId row = c.
Proof.
  unfold numbered_element_rows. intros Hin.
  apply list_elem_of_lookup in Hin as [i Hi].
  rewrite list_lookup_imap in Hi.
  destruct (filter typed elements !! i); by simplify_eq/=.
Qed.

Lemma filter_canvas_elements c (old new : list ElementRow) :
  (∀ row, row ∈ new → el_canvasId row = c) →
  filter (λ r, el_canvasId r = c) (filter (λ r, el_canvasId r ≠ c) old ++ new) = new.
Proof.
  intros Hnew. rewrite filter_app, list_filter_filter.
  rewrite ListFacts.filter_none by (intros r _ [? ?]; done).
  by rewrite ListFacts.filter_all.
Qed.

Lemma filter_canvas_connections c (old new : list ConnectionRow) :
  (∀ row, row ∈ new → cn_canvasId row = c) →
  filter (λ r, cn_canvasId r = c) (filter (λ r, cn_canvasId r ≠ c) old ++ new) = new.
Proof.
  intros Hnew. rewrite filter_app, list_filter_filter.
  rewrite ListFacts.filter_none by (intros r _ [? ?]; done).
  by rewrite ListFacts.filter_all.
Qed.

Lemma json_roundtrip_lookup (o : Obj) k v :
  o !! k = Some v → v ≠ AUndef → json_roundtrip o !! k = Some v.
Proof. intros Hk Hv. unfold json_roundtrip. by apply map_lookup_filter_Some. Qed.

Lemma element_row_stamps c el d :
  el_content (element_row c el d) !! "clientId" = Some (AStr (String (e_id el)))
  ∧ el_content (element_row c el d) !! "_clientId" = Some (AStr (String (e_id el)))
  ∧ el_style (element_row c el d) !! "clientId" = Some (AStr (String (e_id el))).
Proof.
  unfold element_row. simpl. split_and!; apply json_roundtrip_lookup; try done.
  - rewrite lookup_insert_ne by done. apply lookup_insert_eq.
  - apply lookup_insert_eq.
  - apply lookup_insert_eq.
Qed.

(** C9 (amended) — On a healthy database [replaceCanvasState] skips the
    elements without a node kind (a falsy [type]) and inserts every
    other element of the batch, in order, whether or not it carries a
    content payload: the content and style written always hold the
    client id stamps, so a missing payload is completed, not rejected.
    A skipped element does not make the call fail. *)
Theorem untyped_elements_skipped db c elements edges :
  healthy db →
  ∃ db',
    replaceCanvasState c elements edges db = (Some true, db')
    ∧ filter (λ r, el_canvasId r = c) (canvas_elements db')
      = imap (λ i el, element_row c el (next_element_id db + Z.of_nat i))
             (filter typed elements)
    ∧ ∀ row, row ∈ filter (λ r, el_canvasId r = c) (canvas_elements db') →
             ∃ el, el ∈ elements ∧ truthy (e_type el) = true
                   ∧ el_content row !! "clientId" = Some (AStr (String (e_id el)))
                   ∧ el_content row !! "_clientId" = Some (AStr (String (e_id el))).
Proof.
  intros Hh.
  destruct (replaceCanvasState_healthy c elements edges db Hh)
    as (db' & Hrun & _ & Hel & _).
  exists db'. split; [done|].
  assert (filter (λ r, el_canvasId r = c) (canvas_elements db')
          = numbered_element_rows c (next_element_id db) elements) as Hrows.
  { rewrite Hel. apply filter_canvas_elements.
    intros row. apply numbered_element_rows_canvas. }
  split; [done|]. rewrite Hrows. intros row Hin.
  unfold numbered_element_rows in Hin.
  apply list_elem_of_lookup in Hin as [i Hi]. rewrite list_lookup_imap in Hi.
  destruct (filter typed elements !! i) as [el|] eqn:Hel'; simplify_eq/=.
  apply list_elem_of_lookup_2, list_elem_of_filter in Hel' as [Hty Hin].
  exists el. destruct (element_row_stamps c el (next_element_id db + Z.of_nat i))
    as (H1 & H2 & _).
  split_and!; try done. unfold typed in Hty. by destruct (truthy (e_type el)).
Qed.

(** *** The reconciler's map and the inserted nodes *)

(** Every database id in [clientIdToDbId] is the id handed to an
    inserted element with that client id. *)
Lemma element_maps_lookup elements : ∀ next maps cid d,
  clientIdToDbId (element_maps next elements maps) !! cid = Some d →
  clientIdToDbId maps !! cid = Some d
  ∨ ∃ j el, filter typed elements !! j = Some el
            ∧ String (e_id el) = cid ∧ d = next + Z.of_nat j.
Proof.
  induction elements as [|el rest IH]; intros next maps cid d Hl; [by left|].
  cbn [element_maps] in Hl. unfold typed at 1.
  destruct (truthy (e_type el)) eqn:Hty; simpl in Hl.
  - rewrite filter_cons_True by (unfold typed; by rewrite Hty).
    apply IH in Hl as [Hl|(j & el' & Hj & Hcid & Hd)].
    + simpl in Hl. destruct (decide (String (e_id el) = cid)) as [Heq|Hne].
      * rewrite Heq, lookup_insert_eq in Hl. injection Hl as <-.
        right. exists 0%nat, el. split_and!; [done|done|lia].
      * rewrite lookup_insert_ne in Hl by done. by left.
    + right. exists (S j), el'. split_and!; [done|done|lia].
  - rewrite filter_cons_False by (unfold typed; rewrite Hty; simpl; tauto).
    by apply IH.
Qed.

(** Every inserted element is in [clientIdToDbId] under its client id. *)
Lemma element_maps_has elements : ∀ next maps cid,
  is_Some (clientIdToDbId maps !! cid)
  ∨ (∃ el, el ∈ filter typed elements ∧ String (e_id el) = cid) →
  is_Some (clientIdToDbId (element_maps next elements maps) !! cid).
Proof.
  induction elements as [|el rest IH]; intros next maps cid Hc.
  - simpl. destruct Hc as [Hc|(el & Hin & _)]; [done|]. by apply elem_of_nil in Hin.
  - cbn [element_maps]. destruct (truthy (e_type el)) eqn:Hty; simpl.
    + apply IH. simpl. destruct Hc as [Hc|(el' & Hin & Hcid)].
      * left. destruct (decide (String (e_id el) = cid)) as [->|Hne].
        -- rewrite lookup_insert_eq. by eexists.
        -- by rewrite lookup_insert_ne.
      * rewrite filter_cons_True in Hin by (unfold typed; by rewrite Hty).
        apply elem_of_cons in Hin as [->|Hin].
        -- left. rewrite Hcid, lookup_insert_eq. by eexists.
        -- right. by exists el'.
    + apply IH. destruct Hc as [Hc|(el' & Hin & Hcid)]; [by left|].
      rewrite filter_cons_False in Hin by (unfold typed; rewrite Hty; simpl; tauto).
      right. by exists el'.
Qed.

(** An id found in [clientIdToDbId] names a row of the canvas. *)
Lemma mapped_id_has_row c next elements cid d :
  clientIdToDbId (element_maps next elements (mkMaps ∅ ∅)) !! cid = Some d →
  ∃ row, row ∈ numbered_element_rows c next elements
         ∧ el_id row = d ∧ el_canvasId row = c
         ∧ el_style row !! "clientId" = Some (AStr cid).
Proof.
  intros Hl. apply element_maps_lookup in Hl as [Hl|(j & el & Hj & Hcid & ->)];
    [simpl in Hl; by rewrite lookup_empty in Hl|].
  exists (element_row c el (next + Z.of_nat j)). split_and!; try done.
  - unfold numbered_element_rows. apply list_elem_of_lookup. exists j.
    by rewrite list_lookup_imap, Hj.
  - rewrite <- Hcid. apply element_row_stamps.
Qed.

(** *** Unresolved connections are filtered *)

Lemma resolveClientId_leads maps id r :
  resolveClientId maps id = Some r →
  is_Some (clientIdToDbId maps !! r) → leads_to_node maps id.
Proof.
  unfold resolveClientId, leads_to_node. case_bool_decide as Hdir.
  - intros [= <-] _. by left.
  - intros Hal Hr. right. by exists r.
Qed.

Lemma fromStyle_candidate original style idKey clientKey s :
  fromStyle style idKey clientKey = Some s →
  s ∈ candidates original style idKey clientKey.
Proof.
  unfold fromStyle, candidates. destruct style as [style|]; [|done].
  destruct (truthy (prop style clientKey)).
  - intros [= <-]. apply list_elem_of_further, elem_of_app. right. apply list_elem_of_here.
  - destruct (truthy (prop style idKey)); [|done].
    intros [= <-]. apply list_elem_of_further, elem_of_app. left. apply list_elem_of_here.
Qed.

(** If the endpoint left by the preprocessing loop is in
    [clientIdToDbId], one of the endpoint's candidates led there. *)
Lemma resolve_endpoint_found maps original style idKey clientKey :
  is_Some (clientIdToDbId maps
             !! String (resolve_endpoint maps original (fromStyle style idKey clientKey))) →
  ∃ id, id ∈ candidates original style idKey clientKey ∧ leads_to_node maps id.
Proof.
  intros Hfound.
  assert (is_Some (clientIdToDbId maps !! String original) →
          ∃ id, id ∈ candidates original style idKey clientKey ∧ leads_to_node maps id)
    as Hdirect.
  { intros Hd. exists (String original). split; [apply list_elem_of_here | by left]. }
  unfold resolve_endpoint in Hfound.
  destruct (unresolved _); [|by apply Hdirect].
  destruct (fromStyle style idKey clientKey) as [fromSt|] eqn:Hst; [|by apply Hdirect].
  destruct (resolveClientId maps fromSt) as [r|] eqn:Hres; [|by apply Hdirect].
  destruct (String.eqb r ""); [by apply Hdirect|]. simpl in Hfound.
  exists fromSt. split; [by eapply fromStyle_candidate|].
  by eapply resolveClientId_leads.
Qed.

Lemma valid_connection_resolves maps conn :
  valid_connection maps (preprocess maps conn) = true → resolves maps conn.
Proof.
  unfold valid_connection, preprocess.
  destruct (negb (truthy (c_source conn)) || negb (truthy (c_target conn))) eqn:Hf.
  - intros Hv. apply andb_true_iff in Hv as [Hv _].
    apply andb_true_iff in Hv as [Hv _]. apply andb_true_iff in Hv as [Hs Ht].
    rewrite Hs, Ht in Hf. done.
  - simpl. intros Hv. apply andb_true_iff in Hv as [Hv Ht].
    apply andb_true_iff in Hv as [_ Hs].
    apply bool_decide_eq_true in Hs, Ht.
    split; by apply resolve_endpoint_found.
Qed.

Lemma persisted_rows_canvas c maps next (conns : list Edge) row :
  row ∈ imap (persisted_row c maps next) conns → cn_canvasId row = c.
Proof.
  intros Hin. apply list_elem_of_lookup in Hin as [i Hi].
  rewrite list_lookup_imap in Hi. destruct (conns !! i); by simplify_eq/=.
Qed.

(** The endpoints of a persisted row are element rows of the canvas. *)
Lemma persisted_row_endpoints c next nextc elements edges row :
  let maps := element_maps next elements (mkMaps ∅ ∅) in
  row ∈ imap (persisted_row c maps nextc) (persisted maps edges) →
  ∃ source_el target_el,
    source_el ∈ numbered_element_rows c next elements
    ∧ target_el ∈ numbered_element_rows c next elements
    ∧ el_canvasId source_el = c ∧ el_canvasId target_el = c
    ∧ cn_sourceId row = Some (el_id source_el)
    ∧ cn_targetId row = Some (el_id target_el).
Proof.
  intros maps Hin. apply list_elem_of_lookup in Hin as [i Hi].
  rewrite list_lookup_imap in Hi.
  destruct (persisted maps edges !! i) as [conn|] eqn:Hconn; simpl in Hi; [|done].
  injection Hi as <-.
  apply list_elem_of_lookup_2, list_elem_of_filter in Hconn as [Hins _].
  unfold insertable in Hins.
  destruct (clientIdToDbId maps !! String (c_source conn)) as [s|] eqn:Hs; [|done].
  destruct (clientIdToDbId maps !! String (c_target conn)) as [t|] eqn:Ht; [|done].
  destruct (mapped_id_has_row c _ _ _ _ Hs) as (srow & Hsin & Hsid & Hsc & _).
  destruct (mapped_id_has_row c _ _ _ _ Ht) as (trow & Htin & Htid & Htc & _).
  exists srow, trow. unfold persisted_row. simpl. rewrite Hs, Ht. simpl.
  split_and!; try done; by f_equal.
Qed.

(** C2 — A connection with an endpoint that leads to no inserted node,
    neither by its own identifier nor by the identifiers embedded in
    its style, directly or through the alias map, does not pass the
    validity filter of [replaceCanvasState] and is not among the
    persisted connections.  Whatever the database answers, the
    connections the call adds are rows of persisted connections, and
    each has as source and target the database ids of element rows of
    the same canvas present after the call.  On a healthy database the
    call succeeds whatever was dropped, and the connections stored for
    the canvas are exactly the rows of the persisted connections. *)
Theorem dangling_edges_dropped db c elements edges :
  let maps := element_maps (next_element_id db) elements (mkMaps ∅ ∅) in
  let rows := imap (persisted_row c maps (next_connection_id db)) (persisted maps edges) in
  let after := replaceCanvasState c elements edges db in
  (∀ conn, conn ∈ edges → ¬ resolves maps conn →
           (preprocess maps conn ∉ persisted maps edges)
           ∧ valid_connection maps (preprocess maps conn) = false)
  ∧ (∃ kept k,
       connections after.2 = kept ++ take k rows
       ∧ (kept = connections db
          ∨ kept = filter (λ r, cn_canvasId r ≠ c) (connections db))
       ∧ ∀ row, row ∈ take k rows →
                ∃ source_el target_el,
                  source_el ∈ canvas_elements after.2
                  ∧ target_el ∈ canvas_elements after.2
                  ∧ el_canvasId source_el = c ∧ el_canvasId target_el = c
                  ∧ cn_sourceId row = Some (el_id source_el)
                  ∧ cn_targetId row = Some (el_id target_el))
  ∧ (healthy db →
     after.1 = Some true
     ∧ filter (λ r, cn_canvasId r = c) (connections after.2) = rows).
Proof.
  intros maps rows after. split; [|split].
  - intros conn Hin Hnot.
    assert (valid_connection maps (preprocess maps conn) = false) as Hinv.
    { destruct (valid_connection maps (preprocess maps conn)) eqn:Hv; [|done].
      by destruct Hnot; apply valid_connection_resolves. }
    split; [|done]. unfold persisted. intros Hp.
    apply list_elem_of_filter in Hp as [_ Hp].
    apply list_elem_of_filter in Hp as [Hv _]. by rewrite Hinv in Hv.
  - destruct (replaceCanvasState_any c elements edges db) as (kept & k & Hcn & Hkept & Hel).
    exists kept, k. fold maps rows after in Hcn, Hel. split; [done|]. split; [done|].
    intros row Hin. destruct Hel as [->|Hel]; [by rewrite take_0 in Hin; apply elem_of_nil in Hin|].
    apply elem_of_take in Hin as (i & Hi & _). apply list_elem_of_lookup_2 in Hi.
    destruct (persisted_row_endpoints c _ _ elements edges row Hi)
      as (srow & trow & Hs & Ht & Hrest).
    exists srow, trow. rewrite Hel.
    split; [apply elem_of_app; by right|]. split; [apply elem_of_app; by right|]. done.
  - intros Hh.
    destruct (replaceCanvasState_healthy c elements edges db Hh)
      as (db' & Hrun & _ & _ & Hcn & _).
    subst after. rewrite Hrun. simpl. split; [done|].
    rewrite Hcn. apply filter_canvas_connections.
    intros row. apply persisted_rows_canvas.
Qed.

(** *** Visibility *)

(** C10 — [updateCanvasVisibility] with one of the three accepted
    values issues one statement; when that statement runs, every canvas
    row with the given id gets the visibility, the legacy flag
    [isPublic] equal to "the visibility is public" and the current time
    as [updatedAt], all in that statement, every other row is untouched,
    and rows that had a consistent flag keep one; when the statement
    throws, no row changes. With any other value the call throws before
    any statement and the database is untouched. *)
Theorem visibility_keeps_isPublic id visibility db :
  (visibility ∈ visibilities →
   let r := updateCanvasVisibility id visibility db in
   (fails db (queries db) = true → r.1 = None ∧ canvases r.2 = canvases db)
   ∧ (fails db (queries db) = false →
      canvases r.2
      = (λ row, if bool_decide (cv_id row = id)
                then mkCanvas (cv_id row) (cv_name row) (cv_userId row) (clock db)
                              visibility (bool_decide (visibility = "public"))
                else row) <$> canvases db
      ∧ (∀ row, row ∈ canvases r.2 → cv_id row = id →
                cv_visibility row = visibility
                ∧ public_flag_consistent row
                ∧ cv_updatedAt row = clock db)
      ∧ (Forall public_flag_consistent (canvases db) →
         Forall public_flag_consistent (canvases r.2))
      ∧ ∃ updated, r.1 = Some updated))
  ∧ (visibility ∉ visibilities → updateCanvasVisibility id visibility db = (None, db)).
Proof.
  split.
  - intros Hin r. subst r. unfold updateCanvasVisibility.
    rewrite bool_decide_eq_true_2 by done. simpl.
    unfold bind, statement. split.
    + intros ->. done.
    + intros ->. simpl.
      assert (∀ row, bool_decide (cv_id row = id) = true → id = cv_id row) as Hid
        by (intros row Hb; by apply bool_decide_eq_true in Hb).
      split_and!.
      * apply list_fmap_ext. intros i row _. unfold apply_patch. simpl.
        by case_bool_decide.
      * intros row Hrow Hrid. apply list_elem_of_fmap in Hrow as (row0 & -> & _).
        case_bool_decide as Hb; [done|].
        unfold apply_patch in Hrid. simpl in Hrid. done.
      * intros Hall. apply Forall_fmap. eapply Forall_impl; [exact Hall|].
        intros row Hrow. simpl. by case_bool_decide.
      * by eexists.
  - intros Hnot. unfold updateCanvasVisibility.
    by rewrite bool_decide_eq_false_2.
Qed.

End StorageFacts.

(** ** The canvas state endpoints *)

Module RoutesFacts.
Import Js Storage Routes StorageFacts.

(** *** Text of truthy values *)

Lemma pretty_N_go_nonempty x : ∀ s, s ≠ "" → pretty_N_go x s ≠ "".
Proof.
  induction (N.lt_wf_0 x) as [x _ IH]. intros s Hs.
  destruct (decide (x = 0)%N) as [->|Hx]; [by rewrite pretty_N_go_0|].
  rewrite pretty_N_go_step by lia. apply IH; [|done].
  apply N.div_lt; lia.
Qed.

Lemma pretty_positive_nonempty p : pretty (N.pos p) ≠ "".
Proof.
  unfold pretty, pretty_N. rewrite decide_False by done.
  rewrite pretty_N_go_step by lia. by apply pretty_N_go_nonempty.
Qed.

Lemma pretty_Z_nonempty (z : Z) : pretty z ≠ "".
Proof.
  destruct z as [|p|p]; [done| |].
  - apply pretty_positive_nonempty.
  - unfold pretty, pretty_Z. done.
Qed.

Lemma truthy_String_nonempty v : truthy v = true → String v ≠ "".
Proof.
  destruct v as [| |[|]|z|s]; simpl; try done.
  - intros _. apply pretty_Z_nonempty.
  - intros Hs Heq. subst s. done.
Qed.

Lemma truthy_AStr s : s ≠ "" → truthy (AStr s) = true.
Proof.
  intros Hs. simpl. destruct (String.eqb s "") eqn:Heq; [|done].
  apply String.eqb_eq in Heq. done.
Qed.

Lemma missing_AStr s : s ≠ "" → s ≠ "undefined" → missing (AStr s) = false.
Proof.
  intros Hs Hu. unfold missing. rewrite truthy_AStr by done. simpl.
  apply bool_decide_eq_false_2. congruence.
Qed.


(** *** Connections fit for the round trip pass the reconciler unchanged *)

Section ready.
Variables (next : Z) (elements : list Element).
Hypothesis Hnext : 0 < next.
Hypothesis Htyped : Forall (λ el, typed el) elements.

Let maps := element_maps next elements (mkMaps ∅ ∅).

Lemma filter_typed_all : filter typed elements = elements.
Proof.
  apply ListFacts.filter_all. intros el Hel.
  by apply (proj1 (Forall_forall _ _) Htyped).
Qed.

Lemma named_node_mapped v :
  names_node elements v →
  ∃ d, clientIdToDbId maps !! String v = Some d ∧ truthyZ d = true.
Proof.
  intros (el & Hel & Hid).
  destruct (element_maps_has elements next (mkMaps ∅ ∅) (String v)) as [d Hd].
  { right. exists el. by rewrite filter_typed_all. }
  exists d. split; [done|].
  apply element_maps_lookup in Hd as [Hd|(j & el' & _ & _ & ->)].
  - simpl in Hd. by rewrite lookup_empty in Hd.
  - unfold truthyZ. apply negb_true_iff, Z.eqb_neq. lia.
Qed.

Lemma resolve_endpoint_direct v styleId :
  truthy v = true → names_node elements v → resolve_endpoint maps v styleId = v.
Proof.
  intros Htr Hname. destruct (named_node_mapped v Hname) as (d & Hd & _).
  unfold resolve_endpoint, resolveClientId.
  rewrite bool_decide_eq_true_2 by (by rewrite Hd). simpl.
  destruct (String.eqb (String v) "") eqn:Heq; [|done].
  apply String.eqb_eq in Heq. by apply truthy_String_nonempty in Htr.
Qed.

Lemma preprocess_ready conn :
  roundtrip_ready elements conn → preprocess maps conn = conn.
Proof.
  intros (Hs & Ht & _ & _ & Hns & Hnt & _). unfold preprocess.
  rewrite Hs, Ht. simpl. rewrite !resolve_endpoint_direct by done.
  by destruct conn.
Qed.

Lemma valid_ready conn :
  roundtrip_ready elements conn →
  valid_connection maps conn = true ∧ insertable maps conn = true.
Proof.
  intros (Hs & Ht & _ & _ & Hns & Hnt & _).
  destruct (named_node_mapped _ Hns) as (ds & Hds & Htds).
  destruct (named_node_mapped _ Hnt) as (dt & Hdt & Htdt).
  unfold valid_connection, insertable. rewrite Hs, Ht, Hds, Hdt, Htds, Htdt. simpl.
  done.
Qed.

Lemma persisted_ready edges :
  Forall (roundtrip_ready elements) edges → persisted maps edges = edges.
Proof.
  intros Hall. unfold persisted.
  assert (preprocess maps <$> edges = edges) as ->.
  { rewrite <- (list_fmap_id edges) at 2. apply list_fmap_ext.
    intros i conn Hi. apply preprocess_ready.
    eapply (proj1 (Forall_forall _ _) Hall), list_elem_of_lookup_2, Hi. }
  assert (filter (valid_connection maps) edges = edges) as ->.
  { apply ListFacts.filter_all. intros conn Hc.
    apply (proj1 (Forall_forall _ _) Hall) in Hc.
    destruct (valid_ready conn Hc) as [Hv Hi]. by rewrite Hv. }
  apply ListFacts.filter_all. intros conn Hc.
  apply (proj1 (Forall_forall _ _) Hall) in Hc.
  destruct (valid_ready conn Hc) as [Hv Hi]. by rewrite Hi.
Qed.

End ready.

(** *** Reading back what the replacement wrote *)

Lemma insert_by_id_head r l :
  (∀ r', head l = Some r' → cn_id r ≤ cn_id r') → insert_by_id r l = r :: l.
Proof.
  destruct l as [|r' l]; [done|]. intros Hle. simpl.
  by rewrite (proj2 (Z.leb_le _ _) (Hle r' eq_refl)).
Qed.

(** Rows numbered in increasing order are already in [ORDER BY id]. *)
Lemma order_by_id_rows c maps (edges : list Edge) : ∀ next,
  order_by_id (imap (persisted_row c maps next) edges)
  = imap (persisted_row c maps next) edges.
Proof.
  induction edges as [|conn rest IH]; intros next; [done|].
  rewrite imap_cons. unfold order_by_id. cbn [foldr].
  assert (imap (persisted_row c maps next ∘ S) rest
          = imap (persisted_row c maps (next + 1)) rest) as Hshift.
  { apply imap_ext. intros i x _. unfold persisted_row. simpl. f_equal. lia. }
  rewrite Hshift. fold (order_by_id (imap (persisted_row c maps (next + 1)) rest)).
  rewrite IH. apply insert_by_id_head. intros r' Hhead.
  destruct rest as [|conn' rest']; [done|]. rewrite imap_cons in Hhead.
  injection Hhead as <-. unfold persisted_row. simpl. lia.
Qed.

Lemma stored_style_key c conn s t id key v :
  key = "sourceClientId" ∧ v = c_source conn
  ∨ key = "targetClientId" ∧ v = c_target conn →
  style_agrees key v (c_style conn) →
  cn_style (connection_row c conn s t id) !! key = Some (AStr (String v)).
Proof.
  intros Hkey Hagree. unfold connection_row. simpl.
  apply json_roundtrip_lookup; [|done]. unfold spread, style_agrees in *.
  destruct (c_style conn) as [style|]; simpl in *.
  - destruct (style !! key) as [x|] eqn:Hx.
    + subst x. by apply lookup_union_Some_l.
    + rewrite lookup_union_r by done.
      destruct Hkey as [[-> ->]|[-> ->]].
      * apply lookup_insert_eq.
      * rewrite lookup_insert_ne by done. apply lookup_insert_eq.
  - rewrite lookup_union_r by apply lookup_empty.
    destruct Hkey as [[-> ->]|[-> ->]].
    + apply lookup_insert_eq.
    + rewrite lookup_insert_ne by done. apply lookup_insert_eq.
Qed.

Lemma first_truthy_hit (o : Obj) k rest s :
  o !! k = Some (AStr s) → s ≠ "" → first_truthy o (k :: rest) = Some s.
Proof.
  intros Hk Hs. simpl. unfold has_key, prop. rewrite Hk. simpl.
  destruct (String.eqb s "") eqn:Heq; [|done].
  apply String.eqb_eq in Heq. done.
Qed.

(** An endpoint found in the connection's own style is final. *)
Lemma endpoint_settled idMap (style : Obj) keys joined ref s :
  first_truthy style keys = Some s → s ≠ "" → s ≠ "undefined" →
  endpoint idMap style keys joined ref = AStr s.
Proof.
  intros Hft Hs Hu. unfold endpoint. rewrite Hft. simpl.
  pose proof (missing_AStr s Hs Hu) as Hm.
  destruct joined as [el|]; rewrite ?Hm; simpl; destruct ref as [id|]; by rewrite ?Hm.
Qed.

Lemma edge_out_ready elements idMap c maps next i conn sj tj :
  roundtrip_ready elements conn →
  ∃ o, edge_out idMap (mkJoined (persisted_row c maps next i conn) sj tj) = Some o
       ∧ o_source o = String (c_source conn)
       ∧ o_target o = String (c_target conn).
Proof.
  intros (Hs & Ht & Hus & Hut & _ & _ & Has & Hat).
  pose proof (truthy_String_nonempty _ Hs) as Hes.
  pose proof (truthy_String_nonempty _ Ht) as Het.
  unfold edge_out. cbn [j_conn j_source_el j_target_el].
  rewrite (endpoint_settled _ _ _ _ _ (String (c_source conn))); [| |done|done].
  2:{ apply first_truthy_hit; [|done]. unfold persisted_row.
      apply stored_style_key; [by left | done]. }
  rewrite (endpoint_settled _ _ _ _ _ (String (c_target conn))); [| |done|done].
  2:{ apply first_truthy_hit; [|done]. unfold persisted_row.
      apply stored_style_key; [by right | done]. }
  rewrite !missing_AStr by done. simpl. eexists. split; [reflexivity|]. done.
Qed.

(** The row a [LEFT JOIN] on a mapped id finds is the node stamped with
    the client id. *)
Lemma join_finds c next elements cid d :
  clientIdToDbId (element_maps next elements (mkMaps ∅ ∅)) !! cid = Some d →
  ∃ row, join_element (numbered_element_rows c next elements) (Some d) = Some row
         ∧ el_id row = d
         ∧ prop (el_style row) "clientId" = AStr cid.
Proof.
  intros Hl. apply element_maps_lookup in Hl as [Hl|(j & el & Hj & Hcid & ->)];
    [simpl in Hl; by rewrite lookup_empty in Hl|].
  set (rows := numbered_element_rows c next elements).
  assert (rows !! j = Some (element_row c el (next + Z.of_nat j))) as Hrow.
  { unfold rows, numbered_element_rows. by rewrite list_lookup_imap, Hj. }
  unfold join_element. simpl.
  destruct (list_find (λ r, el_id r = next + Z.of_nat j) rows) as [[i row]|] eqn:Hfind.
  - simpl. apply list_find_Some in Hfind as (Hi & Hid & _).
    unfold rows, numbered_element_rows in Hi. rewrite list_lookup_imap in Hi.
    destruct (filter typed elements !! i) as [el'|] eqn:Hi'; simpl in Hi; [|done].
    injection Hi as <-. simpl in Hid.
    assert (i = j) as -> by lia. rewrite Hj in Hi'. injection Hi' as <-.
    exists (element_row c el (next + Z.of_nat j)). split_and!; [done|done|].
    destruct (element_row_stamps c el (next + Z.of_nat j)) as (_ & _ & Hst).
    unfold prop. by rewrite Hst, Hcid.
  - apply list_find_None in Hfind.
    apply list_elem_of_lookup_2 in Hrow.
    by apply (proj1 (Forall_forall _ _) Hfind) in Hrow.
Qed.

Lemma node_stamp c el d :
  prop (n_style (node_out (element_row c el d))) "clientId" = AStr (String (e_id el)).
Proof.
  destruct (element_row_stamps c el d) as (_ & _ & Hst).
  unfold node_out, prop. cbn [n_style]. by rewrite Hst.
Qed.

(** The two query results of a read that follows a replacement of
    well-formed nodes and round-trip-ready connections. *)
Lemma read_after_replace db db' c elements edges :
  healthy db → 0 < next_element_id db →
  Forall (λ el, typed el) elements →
  Forall (roundtrip_ready elements) edges →
  replaceCanvasState c elements edges db = (Some true, db') →
  let maps := element_maps (next_element_id db) elements (mkMaps ∅ ∅) in
  let rows := numbered_element_rows c (next_element_id db) elements in
  select_elements c db' = rows
  ∧ select_connections c db'
    = (λ r, mkJoined r (join_element rows (cn_sourceId r))
                       (join_element rows (cn_targetId r)))
      <$> imap (persisted_row c maps (next_connection_id db)) edges.
Proof.
  intros Hh Hnext Hty Hready Hrun maps rows.
  destruct (replaceCanvasState_healthy c elements edges db Hh)
    as (db'' & Hrun' & _ & Hel & Hcn & _).
  rewrite Hrun in Hrun'. injection Hrun' as <-.
  assert (select_elements c db' = rows) as Hsel.
  { unfold select_elements. rewrite Hel. apply filter_canvas_elements.
    intros row. apply numbered_element_rows_canvas. }
  split; [done|]. unfold select_connections. rewrite Hsel. f_equal.
  rewrite Hcn. unfold maps. rewrite (persisted_ready _ _ Hnext Hty edges Hready).
  rewrite filter_canvas_connections by (intros row; apply persisted_rows_canvas).
  apply order_by_id_rows.
Qed.

(** C1 (amended) — On a healthy database whose ids are positive, for a
    node list whose elements all carry a node kind and an edge list
    whose every source and target is truthy, is not the text
    [undefined], names an element of the node list, and is not
    contradicted by a [sourceClientId] or [targetClientId] in the
    edge's style: [replaceCanvasState] succeeds, and the read that
    follows returns one node per submitted element, stamped with its
    ephemeral identifier and carrying the durable id the store gave it,
    and one edge per submitted edge, in order, with the same source and
    target ephemeral identifiers; the durable ids stored for each edge
    are those of the node rows stamped with these identifiers. *)
Theorem replace_then_read_roundtrip db c elements edges :
  healthy db → 0 < next_element_id db →
  Forall (λ el, typed el) elements →
  Forall (roundtrip_ready elements) edges →
  ∃ db',
    replaceCanvasState c elements edges db = (Some true, db')
    ∧ read_identities (canvas_state c db') = submitted_identities elements edges
    ∧ n_id <$> (canvas_state c db').1
      = imap (λ i _, pretty (next_element_id db + Z.of_nat i)) elements
    ∧ Forall (λ j, ∃ o source_el target_el,
                edge_out (elementIdMap (select_elements c db')) j = Some o
                ∧ j_source_el j = Some source_el ∧ j_target_el j = Some target_el
                ∧ cn_sourceId (j_conn j) = Some (el_id source_el)
                ∧ cn_targetId (j_conn j) = Some (el_id target_el)
                ∧ prop (el_style source_el) "clientId" = AStr (o_source o)
                ∧ prop (el_style target_el) "clientId" = AStr (o_target o))
             (select_connections c db').
Proof.
  intros Hh Hnext Hty Hready.
  destruct (replaceCanvasState_healthy c elements edges db Hh) as (db' & Hrun & _).
  exists db'. split; [done|].
  destruct (read_after_replace db db' c elements edges Hh Hnext Hty Hready Hrun)
    as [Hsel Hconn].
  set (maps := element_maps (next_element_id db) elements (mkMaps ∅ ∅)) in *.
  set (rows := numbered_element_rows c (next_element_id db) elements) in *.
  assert (∀ i conn, edges !! i = Some conn → roundtrip_ready elements conn) as Hr.
  { intros i conn Hi. eapply (proj1 (Forall_forall _ _) Hready), list_elem_of_lookup_2, Hi. }
  assert (rows = imap (λ i el, element_row c el (next_element_id db + Z.of_nat i)) elements)
    as Hrows.
  { unfold rows, numbered_element_rows. by rewrite filter_typed_all. }
  unfold canvas_state, read_identities, submitted_identities. simpl.
  rewrite Hsel, Hconn. split_and!.
  - f_equal.
    + rewrite Hrows. apply list_eq. intros i.
      rewrite !list_lookup_fmap, list_lookup_imap.
      destruct (elements !! i) as [el|]; simpl; [|done]. f_equal.
      apply (node_stamp c el (next_element_id db + Z.of_nat i)).
    + apply ListFacts.omap_pointwise.
      apply Forall2_same_length_lookup_2; [by rewrite length_fmap, length_imap|].
      intros i j conn Hj Hi.
      rewrite list_lookup_fmap, list_lookup_imap, Hi in Hj. simpl in Hj.
      injection Hj as <-.
      destruct (edge_out_ready elements (elementIdMap rows) c maps
                  (next_connection_id db) i conn
                  (join_element rows
                     (cn_sourceId (persisted_row c maps (next_connection_id db) i conn)))
                  (join_element rows
                     (cn_targetId (persisted_row c maps (next_connection_id db) i conn)))
                  (Hr i conn Hi)) as (o & Ho & Hos & Hot).
      exists o. split; [exact Ho|]. by rewrite Hos, Hot.
  - rewrite Hrows. apply list_eq. intros i.
    rewrite !list_lookup_fmap, !list_lookup_imap.
    by destruct (elements !! i).
  - apply Forall_lookup_2. intros i j Hj.
    rewrite list_lookup_fmap, list_lookup_imap in Hj.
    destruct (edges !! i) as [conn|] eqn:Hi; simpl in Hj; [|done].
    injection Hj as <-.
    pose proof (Hr i conn Hi) as Hready_conn.
    destruct Hready_conn as (_ & _ & _ & _ & Hns & Hnt & _).
    destruct (named_node_mapped _ _ Hnext Hty _ Hns) as (ds & Hds & _).
    destruct (named_node_mapped _ _ Hnext Hty _ Hnt) as (dt & Hdt & _).
    destruct (join_finds c _ _ _ _ Hds) as (srow & Hsj & Hsid & Hsst).
    destruct (join_finds c _ _ _ _ Hdt) as (trow & Htj & Htid & Htst).
    destruct (edge_out_ready elements (elementIdMap rows) c maps
                (next_connection_id db) i conn
                (join_element rows
                   (cn_sourceId (persisted_row c maps (next_connection_id db) i conn)))
                (join_element rows
                   (cn_targetId (persisted_row c maps (next_connection_id db) i conn)))
                (Hr i conn Hi)) as (o & Ho & Hos & Hot).
    assert (cn_sourceId (persisted_row c maps (next_connection_id db) i conn) = Some ds)
      as Hcs by (unfold persisted_row, maps; simpl; by rewrite Hds).
    assert (cn_targetId (persisted_row c maps (next_connection_id db) i conn) = Some dt)
      as Hct by (unfold persisted_row, maps; simpl; by rewrite Hdt).
    fold rows in Hsj, Htj.
    set (row := persisted_row c maps (next_connection_id db) i conn) in *.
    exists o, srow, trow. split; [exact Ho|].
    split; [change (join_element rows (cn_sourceId row) = Some srow); by rewrite Hcs|].
    split; [change (join_element rows (cn_targetId row) = Some trow); by rewrite Hct|].
    split; [change (cn_sourceId row = Some (el_id srow)); by rewrite Hcs, Hsid|].
    split; [change (cn_targetId row = Some (el_id trow)); by rewrite Hct, Htid|].
    split; [by rewrite Hos | by rewrite Hot].
Qed.

(** [replaceCanvasState] never throws: it reports. *)
Lemma replaceCanvasState_reports id elements edges db :
  ∃ b, (replaceCanvasState id elements edges db).1 = Some b.
Proof.
  unfold replaceCanvasState, catch.
  destruct (bind _ _ db) as [[b|] db']; simpl; by eexists.
Qed.

(** The save, branch by branch. *)
Lemma save_or_fallback_eq id elements edges db :
  save_or_fallback id elements edges db
  = match replaceCanvasState id elements edges db with
    | (Some true, db1) => (Some (mkResponse 200 (BSaved true)), db1)
    | (_, db1) =>
        if fails db1 (queries db1)
        then (Some (mkResponse 500 (BMessage "Database error")), bump db1)
        else (Some (mkResponse 207 (BPartial true)),
              (update_canvases id (mkPatch None None None (Some (clock db1)))
                               (bump db1)).2)
    end.
Proof.
  unfold save_or_fallback, catch, bind at 1.
  destruct (replaceCanvasState id elements edges db) as [[[|]|] db1]; simpl; [done|..];
    unfold throw, updateCanvas, bind, statement;
    by destruct (fails db1 (queries db1)).
Qed.

(** The three outcomes of the save. *)
Lemma save_or_fallback_cases id elements edges db :
  let r := replaceCanvasState id elements edges db in
  let out := save_or_fallback id elements edges db in
  (r.1 = Some true → out = (Some (mkResponse 200 (BSaved true)), r.2))
  ∧ (r.1 ≠ Some true → fails r.2 (queries r.2) = false →
     out.1 = Some (mkResponse 207 (BPartial true))
     ∧ canvases out.2
       = (λ row, if bool_decide (cv_id row = id)
                 then apply_patch (mkPatch None None None (Some (clock r.2))) row
                 else row) <$> canvases r.2
     ∧ canvas_elements out.2 = canvas_elements r.2
     ∧ connections out.2 = connections r.2)
  ∧ (r.1 ≠ Some true → fails r.2 (queries r.2) = true →
     out.1 = Some (mkResponse 500 (BMessage "Database error"))
     ∧ canvases out.2 = canvases r.2
     ∧ canvas_elements out.2 = canvas_elements r.2
     ∧ connections out.2 = connections r.2).
Proof.
  intros r out. subst r out. rewrite save_or_fallback_eq.
  destruct (replaceCanvasState id elements edges db) as [[[|]|] db1]; simpl.
  - split_and!; done.
  - split_and!; [done| |]; intros _ ->; done.
  - split_and!; [done| |]; intros _ ->; done.
Qed.

(** A request that passes every check of the handler is answered by
    the save and its fallback, on the stamped elements and connections. *)
Lemma putCanvasState_saves req id canvas isCollab elements connections db db1 db2 :
  req_authenticated req = true → req_param_id req = Some id →
  getCanvas id db = (Some (Some canvas), db1) →
  isCollaborator id (req_user_id req) db1 = (Some isCollab, db2) →
  negb (bool_decide (cv_userId canvas = Some (req_user_id req)))
    && negb (req_user_isAdmin req) && negb isCollab = false →
  req_elements req = Some elements → req_connections req = Some connections →
  putCanvasState req db
  = save_or_fallback id (enhance_element <$> elements)
                     (enhance_connection <$> connections) db2.
Proof.
  intros Hauth Hid Hcanvas Hcollab Hperm Hels Hcon.
  unfold putCanvasState, catch. rewrite Hauth, Hid. simpl.
  erewrite StorageFacts.bind_Some by exact Hcanvas. simpl.
  erewrite StorageFacts.bind_Some by exact Hcollab.
  rewrite Hperm, Hels, Hcon, save_or_fallback_eq.
  destruct (replaceCanvasState _ _ _ db2) as [[[|]|] db3]; simpl; try done;
    by destruct (fails db3 (queries db3)).
Qed.

(** C7 (amended) — When [replaceCanvasState] reports failure (it never
    throws), the save handler issues one more statement that writes
    only the canvas timestamp; if that statement runs, the answer is
    HTTP 207 with [partial: true] and the timestamp is the only thing
    written; if it throws as well, the answer is HTTP 500. The answer is
    HTTP 200 with [success: true] exactly when [replaceCanvasState]
    reported success. *)
Theorem save_failure_reported id elements edges db :
  let r := replaceCanvasState id elements edges db in
  let out := save_or_fallback id elements edges db in
  (∃ b, r.1 = Some b)
  ∧ (r.1 = Some true ↔ out.1 = Some (mkResponse 200 (BSaved true)))
  ∧ (r.1 ≠ Some true →
     if fails r.2 (queries r.2)
     then out.1 = Some (mkResponse 500 (BMessage "Database error"))
          ∧ canvases out.2 = canvases r.2
     else out.1 = Some (mkResponse 207 (BPartial true))
          ∧ canvases out.2
            = (λ row, if bool_decide (cv_id row = id)
                      then apply_patch (mkPatch None None None (Some (clock r.2))) row
                      else row) <$> canvases r.2
          ∧ canvas_elements out.2 = canvas_elements r.2
          ∧ connections out.2 = connections r.2).
Proof.
  intros r out.
  destruct (save_or_fallback_cases id elements edges db) as (Hok & Hpart & Hfail).
  fold r in Hok, Hpart, Hfail. fold out in Hok, Hpart, Hfail.
  split; [apply replaceCanvasState_reports|]. split.
  - split.
    + intros Hr. by rewrite (Hok Hr).
    + intros Hout. destruct (decide (r.1 = Some true)) as [Hr|Hr]; [done|].
      destruct (fails r.2 (queries r.2)) eqn:Hf.
      * destruct (Hfail Hr eq_refl) as [Hout' _]. congruence.
      * destruct (Hpart Hr eq_refl) as [Hout' _]. congruence.
  - intros Hr. destruct (fails r.2 (queries r.2)) eqn:Hf.
    + destruct (Hfail Hr eq_refl) as (H1 & H2 & _). by split.
    + by apply Hpart.
Qed.

End RoutesFacts.

(** ** Canvases: who may read, save, delete and publish *)

Module CanvasesFacts.
Import Js Storage Routes Canvases StorageFacts.

(** *** Reading without writing *)

Lemma read_only_refl db : read_only db db.
Proof. by split. Qed.

Lemma read_only_trans db1 db2 db3 :
  read_only db1 db2 → read_only db2 db3 → read_only db1 db3.
Proof. intros [] []. split; congruence. Qed.

Lemma read_only_bump db : read_only db (bump db).
Proof. by split. Qed.

Lemma read_only_healthy db db' : read_only db db' → healthy db → healthy db'.
Proof. intros [] Hh n. by rewrite ro_fails0. Qed.

Lemma never_writes_ret {A} (a : A) : never_writes (ret a).
Proof. intros db. apply read_only_refl. Qed.

Lemma never_writes_throw {A} : never_writes (@throw A).
Proof. intros db. apply read_only_refl. Qed.

Lemma never_writes_bind {A B} (m : M A) (f : A → M B) :
  never_writes m → (∀ a, never_writes (f a)) → never_writes (bind m f).
Proof.
  intros Hm Hf db. unfold bind. specialize (Hm db).
  destruct (m db) as [[a|] db1]; simpl in *; [|done].
  eapply read_only_trans; [exact Hm|apply Hf].
Qed.

Lemma never_writes_catch {A} (m handler : M A) :
  never_writes m → never_writes handler → never_writes (catch m handler).
Proof.
  intros Hm Hh db. unfold catch. specialize (Hm db).
  destruct (m db) as [[a|] db1]; simpl in *; [done|].
  eapply read_only_trans; [exact Hm|apply Hh].
Qed.

(** A [SELECT]. *)
Lemma never_writes_select {A} (query : Db → A) :
  never_writes (statement (λ db, (query db, db))).
Proof.
  intros db. unfold statement. destruct (fails db (queries db)); apply read_only_bump.
Qed.

Lemma never_throws_catch {A} (m handler : M A) :
  never_throws handler → never_throws (catch m handler).
Proof.
  intros Hh db. unfold catch. destruct (m db) as [[a|] db1]; simpl; [by eexists|apply Hh].
Qed.

Lemma never_throws_ret {A} (a : A) : never_throws (ret a).
Proof. intros db. by eexists. Qed.

Lemma never_writes_getCanvas id : never_writes (getCanvas id).
Proof. apply never_writes_select. Qed.

Lemma never_writes_isCollaborator c u : never_writes (isCollaborator c u).
Proof. apply never_writes_catch; [apply never_writes_select|apply never_writes_ret]. Qed.

Lemma never_writes_userHasAccessToCanvas u c : never_writes (userHasAccessToCanvas u c).
Proof.
  apply never_writes_catch; [|apply never_writes_ret].
  apply never_writes_bind; [apply never_writes_getCanvas|].
  intros [canvas|]; [|apply never_writes_ret].
  case_bool_decide; [apply never_writes_ret|].
  destruct (_ || _); [apply never_writes_ret|apply never_writes_isCollaborator].
Qed.

(** *** What the reads answer *)

Lemma getCanvas_cases id db :
  getCanvas id db = (None, bump db)
  ∨ getCanvas id db = (Some (find_canvas id db), bump db).
Proof.
  unfold getCanvas.
  match goal with
  | |- context [statement ?run db] => destruct (statement_cases run db) as [->| ->]
  end; [by left|by right].
Qed.

Lemma getCanvas_healthy id db :
  healthy db → getCanvas id db = (Some (find_canvas id db), bump db).
Proof. intros Hh. unfold getCanvas. by rewrite statement_healthy. Qed.

Lemma isCollaborator_cases c u db :
  isCollaborator c u db = (Some false, bump db)
  ∨ isCollaborator c u db = (Some (bool_decide ((c, u) ∈ collaborators db)), bump db).
Proof.
  unfold isCollaborator, catch.
  match goal with
  | |- context [statement ?run db] => destruct (statement_cases run db) as [->| ->]
  end; [by left|by right].
Qed.

Lemma isCollaborator_healthy c u db :
  healthy db →
  isCollaborator c u db = (Some (bool_decide ((c, u) ∈ collaborators db)), bump db).
Proof. intros Hh. unfold isCollaborator, catch. by rewrite statement_healthy. Qed.

Lemma find_canvas_id id db canvas : find_canvas id db = Some canvas → cv_id canvas = id.
Proof.
  unfold find_canvas. destruct (list_find _ _) as [[i r]|] eqn:Hf; [|done].
  simpl. intros [= <-]. by apply list_find_Some in Hf as (_ & ? & _).
Qed.

Lemma find_canvas_elem id db canvas : find_canvas id db = Some canvas → canvas ∈ canvases db.
Proof.
  unfold find_canvas. destruct (list_find _ _) as [[i r]|] eqn:Hf; [|done].
  simpl. intros [= <-]. apply list_find_Some in Hf as (Hi & _).
  by eapply list_elem_of_lookup_2.
Qed.

Lemma find_canvas_None id db :
  find_canvas id db = None ↔ filter (λ r, cv_id r = id) (canvases db) = [].
Proof.
  unfold find_canvas. split.
  - destruct (list_find _ _) as [[i r]|] eqn:Hf; [done|]. intros _.
    apply ListFacts.filter_none. intros r Hin Hr.
    apply list_find_None in Hf. by eapply (proj1 (Forall_forall _ _) Hf).
  - intros Hnil. destruct (list_find _ _) as [[i r]|] eqn:Hf; [|done].
    apply list_find_Some in Hf as (Hi & Hr & _).
    assert (r ∈ filter (λ r, cv_id r = id) (canvases db)) as Hin
      by (apply list_elem_of_filter; split; [done|by eapply list_elem_of_lookup_2]).
    rewrite Hnil in Hin. by apply elem_of_nil in Hin.
Qed.

Lemma userHasAccessToCanvas_healthy u c db :
  healthy db →
  (userHasAccessToCanvas u c db).1
  = Some (match find_canvas c db with
          | Some canvas => may_view u canvas db
          | None => false
          end).
Proof.
  intros Hh. unfold userHasAccessToCanvas, catch, bind.
  rewrite getCanvas_healthy by done. simpl.
  destruct (find_canvas c db) as [canvas|] eqn:Hfind; simpl; [|done].
  pose proof (find_canvas_id _ _ _ Hfind) as Hid.
  unfold may_view. case_bool_decide; simpl; [done|].
  destruct (String.eqb _ _ || _) eqn:Hpub; simpl; [done|].
  rewrite isCollaborator_healthy by (intros n; apply Hh). simpl. by rewrite Hid.
Qed.

Lemma userHasAccessToCanvas_grounds u c db :
  (userHasAccessToCanvas u c db).1 = Some true →
  ∃ canvas, find_canvas c db = Some canvas ∧ may_view u canvas db = true.
Proof.
  unfold userHasAccessToCanvas, catch, bind.
  destruct (getCanvas_cases c db) as [->| ->]; simpl; [done|].
  destruct (find_canvas c db) as [canvas|] eqn:Hfind; simpl; [|done].
  pose proof (find_canvas_id _ _ _ Hfind) as Hid.
  intros Hgrant. exists canvas. split; [done|]. revert Hgrant.
  unfold may_view. case_bool_decide; simpl; [done|].
  destruct (String.eqb _ _ || _) eqn:Hpub; simpl; [done|].
  destruct (isCollaborator_cases c u (bump db)) as [->| ->]; simpl; [done|].
  intros [= Hc]. by rewrite Hid.
Qed.

Lemma never_throws_userHasAccessToCanvas u c : never_throws (userHasAccessToCanvas u c).
Proof. apply never_throws_catch, never_throws_ret. Qed.

(** X9 — [userHasAccessToCanvas(userId, canvasId)] never throws and
    never writes. Whatever the database answers, it grants access only
    when the canvas exists and the user owns it, the canvas is public
    (by [visibility] or by [isPublic]), or the user is a collaborator of
    it; when no statement fails it grants access exactly then. *)
Theorem access_decision u c db :
  let r := userHasAccessToCanvas u c db in
  (∃ b, r.1 = Some b)
  ∧ read_only db r.2
  ∧ (r.1 = Some true →
     ∃ canvas, find_canvas c db = Some canvas ∧ may_view u canvas db = true)
  ∧ (healthy db →
     r.1 = Some (match find_canvas c db with
                 | Some canvas => may_view u canvas db
                 | None => false
                 end)).
Proof.
  intros r. split_and!.
  - apply never_throws_userHasAccessToCanvas.
  - apply never_writes_userHasAccessToCanvas.
  - apply userHasAccessToCanvas_grounds.
  - apply userHasAccessToCanvas_healthy.
Qed.

(** *** Deleting a canvas *)

Lemma filter_idem {A} (P : A → Prop) `{!∀ x, Decision (P x)} (l : list A) :
  filter P (filter P l) = filter P l.
Proof. apply ListFacts.filter_all. intros x Hx. by apply list_elem_of_filter in Hx as [? _]. Qed.

Lemma filter_opposite {A} (P : A → Prop) `{!∀ x, Decision (P x)} (l : list A) :
  filter P (filter (λ x, ¬ P x) l) = [].
Proof.
  apply ListFacts.filter_none. intros x Hx. by apply list_elem_of_filter in Hx as [? _].
Qed.

Lemma find_canvas_head id db :
  find_canvas id db = head (filter (λ r, cv_id r = id) (canvases db)).
Proof.
  unfold find_canvas. induction (canvases db) as [|r l IH]; [done|].
  cbn [list_find]. destruct (decide (cv_id r = id)) as [Heq|Hne].
  - by rewrite filter_cons_True.
  - rewrite filter_cons_False by done.
    rewrite <- IH. by destruct (list_find _ l) as [[? ?]|].
Qed.

(** Whatever the database answers, the rows of the other canvases stay. *)
Lemma deleteCanvas_elsewhere id db : elsewhere id (deleteCanvas id db).2 = elsewhere id db.
Proof.
  unfold deleteCanvas, deleteCanvasElementsByCanvasId, deleteConnectionsByCanvasId,
    catch, bind, ret.
  repeat match goal with
         | |- context [statement ?run ?d] =>
             destruct (statement_cases run d) as [->| ->]; simpl
         end;
    unfold elsewhere; simpl; by rewrite ?filter_idem.
Qed.

Lemma deleteCanvas_healthy id db :
  healthy db →
  (deleteCanvas id db).1 = Some (bool_decide (is_Some (find_canvas id db)))
  ∧ tables (deleteCanvas id db).2 = elsewhere id db
  ∧ fails (deleteCanvas id db).2 = fails db.
Proof.
  intros Hh.
  unfold deleteCanvas, deleteCanvasElementsByCanvasId, deleteConnectionsByCanvasId,
    catch, bind, ret.
  repeat (rewrite statement_healthy by (intros n; apply Hh); simpl).
  split_and!; [|done..]. f_equal. rewrite find_canvas_head.
  apply bool_decide_ext. destruct (filter _ (canvases db)); simpl.
  - split; [done|by intros [? ?]].
  - split; [by eexists|done].
Qed.

(** X10 — [deleteCanvas(id)] touches the rows of canvas [id] only,
    whatever the database answers. When no statement fails it reports
    whether the canvas existed, and afterwards the four tables hold
    exactly the rows of the other canvases: [getCanvas(id)] finds
    nothing, the canvas has no element and no connection, and
    [userHasAccessToCanvas] denies everybody. *)
Theorem deleteCanvas_cascades id db :
  let r := deleteCanvas id db in
  elsewhere id r.2 = elsewhere id db
  ∧ (healthy db →
     r.1 = Some (bool_decide (is_Some (find_canvas id db)))
     ∧ tables r.2 = elsewhere id db
     ∧ (getCanvas id r.2).1 = Some None
     ∧ (getCanvasElementsByCanvasId id r.2).1 = Some []
     ∧ (getConnectionsByCanvasId id r.2).1 = Some []
     ∧ ∀ u, (userHasAccessToCanvas u id r.2).1 = Some false).
Proof.
  intros r. split; [apply deleteCanvas_elsewhere|]. intros Hh.
  destruct (deleteCanvas_healthy id db Hh) as (Hres & Htab & Hf).
  fold r in Hres, Htab, Hf.
  assert (healthy r.2) as Hh2 by (intros n; rewrite Hf; apply Hh).
  injection Htab as Hcv Hel Hcn Hco.
  assert (find_canvas id r.2 = None) as Hnone.
  { apply find_canvas_None. rewrite Hcv. apply (filter_opposite (λ r, cv_id r = id)). }
  split_and!; [done|unfold tables, elsewhere; congruence|..].
  - by rewrite getCanvas_healthy, Hnone.
  - unfold getCanvasElementsByCanvasId, catch. rewrite statement_healthy by done. simpl.
    unfold select_elements. simpl. rewrite Hel.
    by rewrite (filter_opposite (λ r, el_canvasId r = id)).
  - unfold getConnectionsByCanvasId, catch. rewrite statement_healthy by done. simpl.
    unfold select_connections. simpl. rewrite Hcn.
    by rewrite (filter_opposite (λ r, cn_canvasId r = id)).
  - intros u. by rewrite userHasAccessToCanvas_healthy, Hnone.
Qed.


Lemma read_only_elsewhere id db db' : read_only db db' → elsewhere id db' = elsewhere id db.
Proof. intros []. unfold elsewhere. congruence. Qed.

(** X11 — [DELETE /api/canvases/:id] always answers, and leaves the
    rows of the other canvases alone. A requester who is not
    authenticated, names no canvas that exists, or is neither its owner
    nor an admin changes no table and is not answered with success;
    when no statement fails, the owner or an admin is answered with
    success and the rows of the canvas are gone from the four
    tables. *)
Theorem delete_only_by_owner req db :
  let r := deleteCanvasById req db in
  (∃ reply, r.1 = Some reply)
  ∧ (∀ id, req_param_id req = Some id → elsewhere id r.2 = elsewhere id db)
  ∧ (may_manage req db = false → read_only db r.2 ∧ r.1 ≠ Some Success)
  ∧ (healthy db → may_manage req db = true →
     r.1 = Some Success
     ∧ ∀ id, req_param_id req = Some id → tables r.2 = elsewhere id db).
Proof.
  intros r. split; [apply never_throws_catch, never_throws_ret|].
  unfold r, deleteCanvasById, may_manage, catch, bind.
  destruct (req_authenticated req); simpl;
    [|split_and!; [intros; apply read_only_elsewhere, read_only_refl
                  |intros _; split; [apply read_only_refl|done]|done]].
  destruct (req_param_id req) as [id|]; simpl;
    [|split_and!; [done|intros _; split; [apply read_only_refl|done]|done]].
  split_and!.
  - intros ? [= <-].
    destruct (getCanvas_cases id db) as [->| ->]; simpl;
      [apply read_only_elsewhere, read_only_bump|].
    destruct (find_canvas id db) as [canvas|]; simpl;
      [|apply read_only_elsewhere, read_only_bump].
    destruct (not_owner_nor_admin req canvas); simpl;
      [apply read_only_elsewhere, read_only_bump|].
    pose proof (deleteCanvas_elsewhere id (bump db)) as Hel.
    destruct (deleteCanvas id (bump db)) as [[[|]|] db']; simpl in *;
      rewrite Hel; apply read_only_elsewhere, read_only_bump.
  - destruct (getCanvas_cases id db) as [->| ->]; simpl;
      [intros _; split; [apply read_only_bump|done]|].
    destruct (find_canvas id db) as [canvas|]; simpl;
      [|intros _; split; [apply read_only_bump|done]].
    destruct (not_owner_nor_admin req canvas); simpl; [|done].
    intros _; split; [apply read_only_bump|done].
  - intros Hh. rewrite getCanvas_healthy by done. simpl.
    destruct (find_canvas id db) as [canvas|] eqn:Hfind; simpl; [|done].
    destruct (not_owner_nor_admin req canvas); simpl; [done|]. intros _.
    assert (healthy (bump db)) as Hhb by (intros n; apply Hh).
    destruct (deleteCanvas_healthy id (bump db) Hhb) as (Hres & Htab & _).
    assert (find_canvas id (bump db) = Some canvas) as Hfb by done.
    rewrite Hfb, bool_decide_eq_true_2 in Hres by (by eexists).
    destruct (deleteCanvas id (bump db)) as [res db']; simpl in *. subst res. simpl.
    split; [done|]. by intros ? [= <-].
Qed.

(** *** Changing the visibility *)

Lemma updateCanvasVisibility_healthy id v db :
  healthy db → v ∈ ["private"; "collaborative"; "public"] →
  updateCanvasVisibility id v db
  = (Some (apply_patch (mkPatch None (Some v) (Some (bool_decide (v = "public")))
                                (Some (clock db)))
             <$> find_canvas id db),
     with_canvases
       (fmap (λ r, if bool_decide (cv_id r = id)
                   then apply_patch (mkPatch None (Some v)
                                       (Some (bool_decide (v = "public")))
                                       (Some (clock db))) r
                   else r)) (bump db)).
Proof.
  intros Hh Hv. unfold updateCanvasVisibility.
  rewrite bool_decide_eq_true_2 by done. simpl. unfold bind.
  rewrite statement_healthy by done. simpl. unfold ret. f_equal.
  rewrite find_canvas_head. by destruct (filter _ (canvases db)).
Qed.

Lemma filter_other_patched id (f : CanvasRow → CanvasRow) (l : list CanvasRow) :
  (∀ r, cv_id (f r) = cv_id r) →
  filter (λ r, cv_id r ≠ id) ((λ r, if bool_decide (cv_id r = id) then f r else r) <$> l)
  = filter (λ r, cv_id r ≠ id) l.
Proof.
  intros Hf. induction l as [|r l IH]; [done|]. rewrite fmap_cons.
  destruct (decide (cv_id r = id)) as [Heq|Hne].
  - rewrite bool_decide_eq_true_2 by done.
    rewrite !filter_cons_False by (rewrite ?Hf; tauto). done.
  - rewrite bool_decide_eq_false_2 by done.
    rewrite !filter_cons_True by done. by rewrite IH.
Qed.

(** Whatever the database answers, [updateCanvasVisibility] writes to
    the rows of that canvas only. *)
Lemma updateCanvasVisibility_elsewhere id v db :
  elsewhere id (updateCanvasVisibility id v db).2 = elsewhere id db.
Proof.
  unfold updateCanvasVisibility. destruct (negb _); [done|]. unfold bind.
  match goal with
  | |- context [statement ?run db] => destruct (statement_cases run db) as [->| ->]
  end; simpl; [done|].
  unfold elsewhere. simpl. by rewrite filter_other_patched.
Qed.

(** X12 — [PUT /api/canvases/:id/visibility] always answers, and
    leaves the rows of the other canvases alone. A requester who is
    not authenticated, names no canvas that exists, or is neither its
    owner nor an admin changes no table and is not answered with a
    canvas; a body whose [visibility] is not one of the three strings
    is answered with status 400 before any statement is issued; when
    no statement fails, the owner or an admin who sends one of the
    three is answered with the stored canvas, which carries the
    visibility and the matching [isPublic]. *)
Theorem visibility_only_by_owner req visibility db :
  let r := putCanvasVisibility req visibility db in
  (∃ reply, r.1 = Some reply)
  ∧ (∀ id, req_param_id req = Some id → elsewhere id r.2 = elsewhere id db)
  ∧ (may_manage req db = false →
     read_only db r.2 ∧ ∀ canvas, r.1 ≠ Some (CanvasJson canvas))
  ∧ (req_authenticated req = true → is_Some (req_param_id req) →
     accepted_visibility visibility = false →
     r.2 = db ∧ ∃ reply, r.1 = Some reply ∧ reply_status reply = 400)
  ∧ (healthy db → may_manage req db = true →
     ∀ v, visibility = AStr v → v ∈ visibilities →
     ∃ canvas, r.1 = Some (CanvasJson canvas)
               ∧ cv_visibility canvas = v
               ∧ cv_isPublic canvas = bool_decide (v = "public")
               ∧ Some (cv_id canvas) = req_param_id req
               ∧ canvas ∈ canvases r.2).
Proof.
  intros r. split; [apply never_throws_catch, never_throws_ret|].
  unfold r, putCanvasVisibility, may_manage, catch, bind.
  destruct (req_authenticated req); simpl;
    [|split_and!; [intros; apply read_only_elsewhere, read_only_refl
                  |intros _; split; [apply read_only_refl|done]|done|done]].
  destruct (req_param_id req) as [id|]; simpl;
    [|split_and!; [done|intros _; split; [apply read_only_refl|done]
                  |by intros _ [? ?]|done]].
  destruct (negb (truthy visibility) || negb (accepted_visibility visibility)) eqn:Hbad;
    simpl.
  { split_and!.
    - intros. apply read_only_elsewhere, read_only_refl.
    - intros _. split; [apply read_only_refl|done].
    - intros _ _ _. split; [done|by eexists].
    - intros _ _ v -> Hv. simpl in Hbad.
      rewrite bool_decide_eq_true_2 in Hbad by done. rewrite orb_false_r in Hbad.
      apply negb_true_iff, negb_false_iff, String.eqb_eq in Hbad. subst v.
      assert (bool_decide ("" ∈ visibilities) = false) as Hno
        by (vm_compute; reflexivity).
      by apply bool_decide_eq_false in Hno. }
  apply orb_false_iff in Hbad as [_ Hacc]. apply negb_false_iff in Hacc.
  split_and!.
  - intros ? [= <-].
    destruct (getCanvas_cases id db) as [->| ->]; simpl;
      [apply read_only_elsewhere, read_only_bump|].
    destruct (find_canvas id db) as [canvas|]; simpl;
      [|apply read_only_elsewhere, read_only_bump].
    destruct (not_owner_nor_admin req canvas); simpl;
      [apply read_only_elsewhere, read_only_bump|].
    pose proof (updateCanvasVisibility_elsewhere id (String visibility) (bump db)) as Hel.
    destruct (updateCanvasVisibility id (String visibility) (bump db))
      as [[[updated|]|] db']; simpl in *;
      rewrite Hel; apply read_only_elsewhere, read_only_bump.
  - destruct (getCanvas_cases id db) as [->| ->]; simpl;
      [intros _; split; [apply read_only_bump|done]|].
    destruct (find_canvas id db) as [canvas|]; simpl;
      [|intros _; split; [apply read_only_bump|done]].
    destruct (not_owner_nor_admin req canvas); simpl; [|done].
    intros _; split; [apply read_only_bump|done].
  - intros _ _ Hno. by rewrite Hno in Hacc.
  - intros Hh. rewrite getCanvas_healthy by done. simpl.
    destruct (find_canvas id db) as [canvas|] eqn:Hfind; simpl; [|done].
    destruct (not_owner_nor_admin req canvas); simpl; [done|].
    intros _ v -> Hv. simpl.
    assert (healthy (bump db)) as Hhb by (intros n; apply Hh).
    rewrite (updateCanvasVisibility_healthy id v (bump db) Hhb Hv).
    assert (find_canvas id (bump db) = Some canvas) as -> by done. simpl.
    eexists. split; [reflexivity|]. simpl.
    pose proof (find_canvas_id _ _ _ Hfind) as Hid.
    split_and!; [done|done|simpl; by rewrite Hid|].
    apply list_elem_of_fmap. exists canvas. split.
    + simpl. by rewrite (bool_decide_eq_true_2 (cv_id canvas = id)).
    + by eapply find_canvas_elem.
Qed.

(** *** Reading one canvas *)

(** X13 — [GET /api/canvases/:id] always answers and never writes. It
    hands out a canvas only to an authenticated requester, and only
    the stored canvas of the requested id, when the requester owns it,
    it is public, the requester is a collaborator, or the requester is
    an admin; when no statement fails, the answer is 401, 400, 404, 403
    or the canvas, decided in this order. *)
Theorem canvas_served_to_viewers req db :
  let r := getCanvasById req db in
  (∃ reply, r.1 = Some reply)
  ∧ read_only db r.2
  ∧ (∀ canvas, r.1 = Some (CanvasJson canvas) →
       req_authenticated req = true
       ∧ req_param_id req = Some (cv_id canvas)
       ∧ find_canvas (cv_id canvas) db = Some canvas
       ∧ may_view (req_user_id req) canvas db || req_user_isAdmin req = true)
  ∧ (healthy db → r.1 = Some (getCanvasById_answer req db)).
Proof.
  intros r. split; [apply never_throws_catch, never_throws_ret|]. split_and!.
  - apply never_writes_catch; [|apply never_writes_ret].
    destruct (negb _); [apply never_writes_ret|].
    destruct (req_param_id req) as [id|]; [|apply never_writes_ret].
    apply never_writes_bind; [apply never_writes_getCanvas|].
    intros [canvas|]; [|apply never_writes_ret].
    apply never_writes_bind; [apply never_writes_userHasAccessToCanvas|].
    intros b. destruct (_ && _); apply never_writes_ret.
  - intros canvas. unfold r, getCanvasById, catch, bind.
    destruct (req_authenticated req); simpl; [|done].
    destruct (req_param_id req) as [id|]; simpl; [|done].
    destruct (getCanvas_cases id db) as [->| ->]; simpl; [done|].
    destruct (find_canvas id db) as [found|] eqn:Hfind; simpl; [|done].
    pose proof (userHasAccessToCanvas_grounds (req_user_id req) id (bump db)) as Hg.
    destruct (userHasAccessToCanvas (req_user_id req) id (bump db))
      as [[hasAccess|] db'] eqn:Hacc; simpl in *; [|done].
    destruct (negb hasAccess && negb (req_user_isAdmin req)) eqn:Hdeny; simpl; [done|].
    intros [= <-]. pose proof (find_canvas_id _ _ _ Hfind) as Hid.
    rewrite Hid. split_and!; try done.
    destruct hasAccess; simpl in Hdeny.
    + destruct (Hg eq_refl) as (canvas' & Hf' & Hview).
      assert (canvas' = found) as -> by (unfold find_canvas in *; simpl in *; congruence).
      unfold may_view in *. simpl in Hview. by rewrite Hview.
    + apply negb_false_iff in Hdeny. rewrite Hdeny. apply orb_true_r.
  - intros Hh. unfold r, getCanvasById, getCanvasById_answer, catch, bind.
    destruct (req_authenticated req); simpl; [|done].
    destruct (req_param_id req) as [id|]; simpl; [|done].
    rewrite getCanvas_healthy by done. simpl.
    destruct (find_canvas id db) as [found|] eqn:Hfind; simpl; [|done].
    assert (healthy (bump db)) as Hhb by (intros n; apply Hh).
    pose proof (userHasAccessToCanvas_healthy (req_user_id req) id (bump db) Hhb) as Hacc.
    assert (find_canvas id (bump db) = Some found) as Hfb by done.
    rewrite Hfb in Hacc.
    destruct (userHasAccessToCanvas (req_user_id req) id (bump db)) as [res db'].
    simpl in Hacc. subst res. simpl.
    assert (may_view (req_user_id req) found (bump db)
            = may_view (req_user_id req) found db) as -> by done.
    by destruct (negb _ && negb _).
Qed.


(** *** Writes stay on one canvas *)

Lemma writes_only_ret id {A} (a : A) : writes_only id (ret a).
Proof. by intros db. Qed.

Lemma writes_only_throw id {A} : writes_only id (@throw A).
Proof. by intros db. Qed.

Lemma writes_only_bind id {A B} (m : M A) (f : A → M B) :
  writes_only id m → (∀ a, writes_only id (f a)) → writes_only id (bind m f).
Proof.
  intros Hm Hf db. unfold bind. specialize (Hm db).
  destruct (m db) as [[a|] db1]; simpl in *; [|done]. by rewrite Hf.
Qed.

Lemma writes_only_catch id {A} (m handler : M A) :
  writes_only id m → writes_only id handler → writes_only id (catch m handler).
Proof.
  intros Hm Hh db. unfold catch. specialize (Hm db).
  destruct (m db) as [[a|] db1]; simpl in *; [done|]. by rewrite Hh.
Qed.

Lemma writes_only_statement id {A} (run : Db → A * Db) :
  (∀ db, elsewhere id (run db).2 = elsewhere id db) → writes_only id (statement run).
Proof.
  intros Hrun db. destruct (statement_cases run db) as [->| ->]; simpl; [done|].
  by rewrite Hrun.
Qed.

Lemma writes_only_never_writes id {A} (m : M A) : never_writes m → writes_only id m.
Proof. intros Hm db. apply read_only_elsewhere, Hm. Qed.

Lemma filter_other_app {A} (P : A → Prop) `{!∀ x, Decision (P x)} (l : list A) x :
  ¬ P x → filter P (l ++ [x]) = filter P l.
Proof.
  intros Hx. rewrite filter_app, filter_cons_False by done. simpl. apply app_nil_r.
Qed.

Lemma writes_only_insert_elements id elements : ∀ maps,
  writes_only id (insert_elements id elements maps).
Proof.
  induction elements as [|el rest IH]; intros maps; [apply writes_only_ret|].
  cbn [insert_elements]. destruct (negb _); [apply IH|].
  apply writes_only_bind; [|intros; apply IH].
  apply writes_only_statement. intros db. unfold elsewhere. simpl.
  by rewrite filter_other_app by (simpl; tauto).
Qed.

Lemma writes_only_insert_connections id maps valid :
  writes_only id (insert_connections id maps valid).
Proof.
  induction valid as [|conn rest IH]; [apply writes_only_ret|].
  cbn [insert_connections].
  destruct (clientIdToDbId maps !! _) as [s|]; [|apply IH].
  destruct (clientIdToDbId maps !! _) as [t|]; [|apply IH].
  destruct (_ || _); [apply IH|].
  apply writes_only_bind; [|intros; apply IH].
  apply writes_only_statement. intros db. unfold elsewhere. simpl.
  by rewrite filter_other_app by (simpl; tauto).
Qed.

Lemma update_canvases_elsewhere id p db :
  elsewhere id (update_canvases id p db).2 = elsewhere id db.
Proof. unfold elsewhere. simpl. by rewrite filter_other_patched. Qed.

Lemma writes_only_updateCanvas id p : writes_only id (updateCanvas id p).
Proof.
  apply writes_only_bind; [|intros; apply writes_only_ret].
  apply writes_only_statement. intros db. apply update_canvases_elsewhere.
Qed.

Lemma writes_only_replaceCanvasState id elements edges :
  writes_only id (replaceCanvasState id elements edges).
Proof.
  apply writes_only_catch; [|apply writes_only_ret].
  apply writes_only_bind.
  { apply writes_only_statement. intros db. unfold elsewhere. simpl.
    by rewrite filter_idem. }
  intros _. apply writes_only_bind.
  { apply writes_only_statement. intros db. unfold elsewhere. simpl.
    by rewrite filter_idem. }
  intros _. apply writes_only_bind; [apply writes_only_insert_elements|].
  intros maps. apply writes_only_bind; [apply writes_only_insert_connections|].
  intros _. apply writes_only_bind; [|intros; apply writes_only_ret].
  intros db. destruct (statement_cases
                         (update_canvases id (mkPatch None None None (Some (clock db))))
                         db) as [->| ->]; simpl; [done|].
  exact (update_canvases_elsewhere id _ (bump db)).
Qed.

Lemma writes_only_save_or_fallback id elements edges :
  writes_only id (save_or_fallback id elements edges).
Proof.
  apply writes_only_catch.
  - apply writes_only_bind; [apply writes_only_replaceCanvasState|].
    intros [|]; [apply writes_only_ret|apply writes_only_throw].
  - apply writes_only_catch; [|apply writes_only_ret].
    apply writes_only_bind; [|intros; apply writes_only_ret].
    intros db. apply writes_only_updateCanvas.
Qed.

(** X14 — a save writes to its canvas only: whatever the database
    answers and whatever is submitted, [replaceCanvasState(id, ...)]
    and the handler of [PUT /api/canvases/:id/state] leave the canvases,
    elements, connections and collaborators of every other canvas as
    they were. *)
Theorem save_leaves_other_canvases req id db :
  req_param_id req = Some id →
  (∀ elements edges,
     elsewhere id (replaceCanvasState id elements edges db).2 = elsewhere id db)
  ∧ elsewhere id (putCanvasState req db).2 = elsewhere id db.
Proof.
  intros Hid. split; [intros; apply writes_only_replaceCanvasState|].
  revert db. change (writes_only id (putCanvasState req)).
  apply writes_only_catch; [|apply writes_only_ret].
  destruct (negb _); [apply writes_only_ret|]. rewrite Hid.
  apply writes_only_bind; [apply writes_only_never_writes, never_writes_getCanvas|].
  intros [canvas|]; [|apply writes_only_ret].
  apply writes_only_bind; [apply writes_only_never_writes, never_writes_isCollaborator|].
  intros isCollab. destruct (_ && _); [apply writes_only_ret|].
  destruct (req_elements req); [|apply writes_only_ret].
  destruct (req_connections req); [|apply writes_only_ret].
  apply writes_only_save_or_fallback.
Qed.

(** *** The state handlers and who they serve *)

Lemma never_writes_getCanvasState req : never_writes (getCanvasState req).
Proof.
  apply never_writes_catch; [|apply never_writes_ret].
  destruct (negb _); [apply never_writes_ret|].
  destruct (req_param_id req) as [id|]; [|apply never_writes_ret].
  apply never_writes_bind; [apply never_writes_getCanvas|].
  intros [canvas|]; [|apply never_writes_ret].
  apply never_writes_bind; [apply never_writes_userHasAccessToCanvas|].
  intros b. destruct (_ && _); [apply never_writes_ret|].
  apply never_writes_bind; [apply never_writes_select|]. intros els.
  apply never_writes_bind; [apply never_writes_select|]. intros conns.
  apply never_writes_ret.
Qed.

Lemma getCanvasState_healthy req db id canvas :
  healthy db →
  req_authenticated req = true → req_param_id req = Some id →
  find_canvas id db = Some canvas →
  (getCanvasState req db).1
  = Some (if may_view (req_user_id req) canvas db || req_user_isAdmin req
          then mkResponse 200 (BState (canvas_state id db).1 (canvas_state id db).2)
          else mkResponse 403
                 (BMessage "You don't have permission to access this whiteboard")).
Proof.
  intros Hh Hauth Hid Hfind.
  unfold getCanvasState, catch, bind. rewrite Hauth, Hid. simpl.
  rewrite getCanvas_healthy by done. simpl. rewrite Hfind.
  assert (healthy (bump db)) as Hhb by (intros n; apply Hh).
  pose proof (userHasAccessToCanvas_healthy (req_user_id req) id (bump db) Hhb) as Hacc.
  pose proof (never_writes_userHasAccessToCanvas (req_user_id req) id (bump db)) as Hro.
  assert (find_canvas id (bump db) = Some canvas) as Hfb by done.
  rewrite Hfb in Hacc.
  destruct (userHasAccessToCanvas (req_user_id req) id (bump db)) as [res db1].
  simpl in Hacc, Hro. subst res. simpl.
  assert (may_view (req_user_id req) canvas (bump db)
          = may_view (req_user_id req) canvas db) as -> by done.
  assert (healthy db1) as Hh1 by (by apply (read_only_healthy (bump db))).
  destruct (may_view _ _ _); simpl.
  + rewrite statement_healthy by done. simpl.
    rewrite statement_healthy by (intros n; apply Hh1). simpl.
    destruct Hro. unfold canvas_state, select_connections, select_elements. simpl.
    by rewrite ro_elements0, ro_connections0.
  + destruct (req_user_isAdmin req); simpl; [|done].
    rewrite statement_healthy by done. simpl.
    rewrite statement_healthy by (intros n; apply Hh1). simpl.
    destruct Hro. unfold canvas_state, select_connections, select_elements. simpl.
    by rewrite ro_elements0, ro_connections0.
Qed.

(** X15 — [GET /api/canvases/:id/state] always answers and never
    writes. It hands out a state only with status 200, only to an
    authenticated requester who may view the requested canvas or is an
    admin, and the state is the one computed from the stored rows of
    that canvas; when no statement fails, such a requester gets it,
    and any other authenticated requester of an existing canvas is
    answered with status 403. *)
Theorem state_read_guarded req db :
  let r := getCanvasState req db in
  (∃ resp, r.1 = Some resp)
  ∧ read_only db r.2
  ∧ (∀ code nodes edges, r.1 = Some (mkResponse code (BState nodes edges)) →
       req_authenticated req = true
       ∧ ∃ id canvas,
           req_param_id req = Some id ∧ find_canvas id db = Some canvas
           ∧ may_view (req_user_id req) canvas db || req_user_isAdmin req = true
           ∧ code = 200 ∧ (nodes, edges) = canvas_state id db)
  ∧ (healthy db → ∀ id canvas,
       req_authenticated req = true → req_param_id req = Some id →
       find_canvas id db = Some canvas →
       if may_view (req_user_id req) canvas db || req_user_isAdmin req
       then r.1 = Some (mkResponse 200 (BState (canvas_state id db).1 (canvas_state id db).2))
       else ∃ resp, r.1 = Some resp ∧ status resp = 403).
Proof.
  intros r. split; [apply never_throws_catch, never_throws_ret|].
  split; [apply never_writes_getCanvasState|]. split.
  - intros code nodes edges. unfold r, getCanvasState, catch, bind.
    destruct (req_authenticated req); simpl; [|done].
    destruct (req_param_id req) as [id|]; simpl; [|done].
    destruct (getCanvas_cases id db) as [->| ->]; simpl; [done|].
    destruct (find_canvas id db) as [found|] eqn:Hfind; simpl; [|done].
    pose proof (userHasAccessToCanvas_grounds (req_user_id req) id (bump db)) as Hg.
    pose proof (never_writes_userHasAccessToCanvas (req_user_id req) id (bump db)) as Hro.
    destruct (userHasAccessToCanvas (req_user_id req) id (bump db))
      as [[hasAccess|] db1] eqn:Hacc; simpl in *; [|done].
    destruct (negb hasAccess && negb (req_user_isAdmin req)) eqn:Hdeny; simpl; [done|].
    destruct (statement_cases (λ d, (select_elements id d, d)) db1) as [->| ->];
      simpl; [done|].
    destruct (statement_cases (λ d, (select_connections id d, d)) (bump db1)) as [->| ->];
      simpl; [done|].
    intros [= <- <- <-]. split; [done|]. exists id, found. split_and!; try done.
    + destruct hasAccess; simpl in Hdeny.
      * destruct (Hg eq_refl) as (canvas' & Hf' & Hview).
        assert (canvas' = found) as -> by (unfold find_canvas in *; simpl in *; congruence).
        unfold may_view in *. simpl in Hview. by rewrite Hview.
      * apply negb_false_iff in Hdeny. rewrite Hdeny. apply orb_true_r.
    + destruct Hro. unfold canvas_state, select_connections, select_elements. simpl.
      by rewrite ro_elements0, ro_connections0.
  - intros Hh id canvas Hauth Hid Hfind. unfold r.
    rewrite (getCanvasState_healthy req db id canvas) by done.
    destruct (_ || _); [done|by eexists].
Qed.

(** X16 — [PUT /api/canvases/:id/state] always answers. A requester
    who is not authenticated, names no canvas that exists, or is
    neither owner, admin nor collaborator of it, and a body without an
    [elements] array or without a [connections] array, change no table
    and are answered with neither 200 nor 207. Viewing does not imply
    saving: when no statement fails, a requester who may view the
    canvas (say, because it is public) and is neither owner, admin nor
    collaborator reads the state with status 200 and is refused the
    save with status 403. *)
Theorem state_save_guarded req db :
  let r := putCanvasState req db in
  (∃ resp, r.1 = Some resp)
  ∧ (may_save_state req db = false
     ∨ req_elements req = None ∨ req_connections req = None →
     read_only db r.2
     ∧ ∀ resp, r.1 = Some resp → status resp ≠ 200 ∧ status resp ≠ 207)
  ∧ (healthy db → ∀ id canvas,
       req_authenticated req = true → req_param_id req = Some id →
       find_canvas id db = Some canvas →
       may_view (req_user_id req) canvas db = true →
       may_save req canvas db = false →
       (getCanvasState req db).1
       = Some (mkResponse 200 (BState (canvas_state id db).1 (canvas_state id db).2))
       ∧ ∃ resp, r.1 = Some resp ∧ status resp = 403).
Proof.
  intros r. split; [apply never_throws_catch, never_throws_ret|]. split.
  - unfold r, putCanvasState, may_save_state, catch, bind.
    destruct (req_authenticated req); simpl;
      [|intros _; split; [apply read_only_refl|by intros ? [= <-]]].
    destruct (req_param_id req) as [id|]; simpl;
      [|intros _; split; [apply read_only_refl|by intros ? [= <-]]].
    destruct (getCanvas_cases id db) as [->| ->]; simpl;
      [intros _; split; [apply read_only_bump|by intros ? [= <-]]|].
    destruct (find_canvas id db) as [canvas|] eqn:Hfind; simpl;
      [|intros _; split; [apply read_only_bump|by intros ? [= <-]]].
    pose proof (find_canvas_id _ _ _ Hfind) as Hid.
    assert (read_only db (bump (bump db))) as Hbb
      by (eapply read_only_trans; apply read_only_bump).
    unfold may_save.
    destruct (isCollaborator_cases id (req_user_id req) (bump db)) as [->| ->]; simpl.
    + destruct (negb (bool_decide _) && negb (req_user_isAdmin req) && true) eqn:Hdeny;
        simpl; [intros _; split; [by apply Hbb|by intros ? [= <-]]|].
      destruct (req_elements req); simpl;
        [|intros _; split; [by apply Hbb|by intros ? [= <-]]].
      destruct (req_connections req); simpl;
        [|intros _; split; [by apply Hbb|by intros ? [= <-]]].
      intros [Hno|[?|?]]; [|done..]. exfalso.
      rewrite andb_true_r in Hdeny. apply andb_false_iff in Hdeny.
      apply orb_false_iff in Hno as [Hno _]. apply orb_false_iff in Hno as [Ho Ha].
      rewrite Ho, Ha in Hdeny. by destruct Hdeny.
    + rewrite Hid.
      destruct (negb (bool_decide _) && negb (req_user_isAdmin req) && negb _) eqn:Hdeny;
        simpl; [intros _; split; [by apply Hbb|by intros ? [= <-]]|].
      destruct (req_elements req); simpl;
        [|intros _; split; [by apply Hbb|by intros ? [= <-]]].
      destruct (req_connections req); simpl;
        [|intros _; split; [by apply Hbb|by intros ? [= <-]]].
      intros [Hno|[?|?]]; [|done..]. exfalso.
      apply orb_false_iff in Hno as [Hno Hc]. apply orb_false_iff in Hno as [Ho Ha].
      change (collaborators (bump db)) with (collaborators db) in Hdeny.
      by rewrite Ho, Ha, Hc in Hdeny.
  - intros Hh id canvas Hauth Hid Hfind Hview Hsave. split.
    + by rewrite (getCanvasState_healthy req db id canvas), Hview.
    + unfold r, putCanvasState, catch, bind. rewrite Hauth, Hid. simpl.
      rewrite getCanvas_healthy by done. simpl. rewrite Hfind.
      rewrite isCollaborator_healthy by (intros n; apply Hh). simpl.
      pose proof (find_canvas_id _ _ _ Hfind) as Hcid.
      unfold may_save in Hsave. rewrite Hcid in Hsave.
      apply orb_false_iff in Hsave as [Hsave Hc]. apply orb_false_iff in Hsave as [Ho Ha].
      change (collaborators (bump db)) with (collaborators db).
      rewrite Ho, Ha, Hc. simpl. by eexists.
Qed.

(** *** Visibility and access *)

Lemma find_canvas_patched id (f : CanvasRow → CanvasRow) db :
  (∀ r, cv_id (f r) = cv_id r) →
  find_canvas id
    (with_canvases (fmap (λ r, if bool_decide (cv_id r = id) then f r else r)) db)
  = f <$> find_canvas id db.
Proof.
  intros Hid. rewrite !find_canvas_head. simpl.
  induction (canvases db) as [|r l IH]; [done|]. rewrite fmap_cons.
  case_bool_decide as Hr.
  - rewrite !filter_cons_True by (by rewrite ?Hid). done.
  - by rewrite !filter_cons_False by done.
Qed.

(** X19 — the visibility decides who may view: after
    [updateCanvasVisibility(id, v)] ran without a failing statement on
    an existing canvas, [userHasAccessToCanvas(u, id)] grants access
    exactly to the owner, to the collaborators and, when [v] is
    [public], to everybody. In particular a canvas that was public is
    closed to strangers again by any other visibility. *)
Theorem visibility_governs_access id v db canvas u :
  healthy db → v ∈ visibilities → find_canvas id db = Some canvas →
  let db' := (updateCanvasVisibility id v db).2 in
  (userHasAccessToCanvas u id db').1
  = Some (bool_decide (cv_userId canvas = Some u)
          || bool_decide (v = "public")
          || bool_decide ((id, u) ∈ collaborators db)).
Proof.
  intros Hh Hv Hfind db'. unfold db'.
  rewrite updateCanvasVisibility_healthy by done. simpl.
  rewrite userHasAccessToCanvas_healthy by (intros n; apply Hh).
  rewrite find_canvas_patched by done.
  assert (find_canvas id (bump db) = Some canvas) as -> by done. simpl.
  pose proof (find_canvas_id _ _ _ Hfind) as Hid.
  unfold may_view. simpl. rewrite Hid. do 2 f_equal.
  destruct (String.eqb_spec v "public") as [->|Hne]; case_bool_decide; try done;
    by destruct (bool_decide (cv_userId canvas = Some u)).
Qed.

End CanvasesFacts.

(** ** The properties on concrete scenarios *)

Module Checks.
Import Js Realtime Storage Routes Scenarios RealtimeFacts StorageFacts RoutesFacts.

Ltac by_computation :=
  unfold JsMap.wf; apply (bool_decide_unpack _); vm_compute; exact I.

(** *** Facts about the scenarios *)

Lemma two_joined_first :
  sockets (run initial two_joined) !! 1%nat
  = Some (mkSocket WS_OPEN (Some true) (Some 7) (Some 5) (Some "ada") false false false).
Proof. vm_compute. reflexivity. Qed.

Lemma two_joined_second :
  sockets (run initial two_joined) !! 2%nat
  = Some (mkSocket WS_OPEN (Some true) (Some 8) (Some 5) (Some "ada") false false false).
Proof. vm_compute. reflexivity. Qed.

Lemma two_joined_registry :
  connectionsOf 5 (run initial two_joined) = [(7, 1%nat); (8, 2%nat)].
Proof. vm_compute. reflexivity. Qed.

Lemma two_joined_only_first v :
  v ≠ 7 → JsMap.get v (connectionsOf 5 (run initial two_joined)) ≠ Some 1%nat.
Proof.
  intros Hv. rewrite two_joined_registry. simpl.
  rewrite decide_False by done. by case_decide.
Qed.

Lemma two_joined_only_second v :
  v ≠ 8 → JsMap.get v (connectionsOf 5 (run initial two_joined)) ≠ Some 2%nat.
Proof.
  intros Hv. rewrite two_joined_registry. simpl.
  case_decide; [done|]. by rewrite decide_False.
Qed.

Lemma shared_socket_first :
  sockets (run initial shared_socket) !! 1%nat
  = Some (mkSocket WS_OPEN (Some true) (Some 8) (Some 5) (Some "ada") false false false).
Proof. vm_compute. reflexivity. Qed.

(** *** Fan-out *)

(** Users 7 and 8 are on canvas 5; a cursor move of user 7 is fanned
    out. On a canvas where socket 1 holds the entries of users 7 and 8,
    a fan-out that excludes user 8 still hands socket 1 one copy. *)
Lemma broadcast_fanout_witness :
  let w := run initial two_joined in
  let w' := broadcastToCanvas 5 cursor_moved (Some 7) w in
  let v := run initial shared_socket in
  let v' := broadcastToCanvas 5 cursor_moved (Some 8) v in
  JsMap.wf (connectionsOf 5 w)
  ∧ fanout_delivery w 5 cursor_moved 7 w'
  ∧ stringify_count (new_events w w') = 1%nat
  ∧ fanout_cleanup w 5 cursor_moved 7 w'
  ∧ JsMap.wf (connectionsOf 5 v)
  ∧ JsMap.get 8 (connectionsOf 5 v) = Some 1%nat
  ∧ sends_to 1 (Stringified cursor_moved) (new_events v v') = 1%nat.
Proof.
  intros w w' v v'.
  assert (JsMap.wf (connectionsOf 5 w)) as Hwf by by_computation.
  assert (JsMap.wf (connectionsOf 5 v)) as Hwfv by by_computation.
  destruct (broadcast_fanout w 5 cursor_moved 7 Hwf) as (Hd & _ & Hc & Hcl).
  destruct (broadcast_fanout v 5 cursor_moved 8 Hwfv) as (_ & Hcopies & _).
  split; [exact Hwf|]. split; [exact Hd|]. split; [exact Hc|]. split; [exact Hcl|].
  split; [exact Hwfv|]. split; [vm_compute; reflexivity|].
  etrans; [exact (Hcopies 1%nat)|]. vm_compute. reflexivity.
Defined.

(** The fan-out contract as specified fails: a broadcast to a canvas
    without any registration returns before serialising, so the message
    is serialised zero times, not once. *)
Lemma empty_canvas_not_serialised : ¬ fanout_as_specified.
Proof.
  intros Hspec.
  assert (JsMap.wf (connectionsOf 5 initial)) as Hwf by by_computation.
  destruct (Hspec initial 5 cursor_moved 7 Hwf) as (_ & Hcount & _).
  vm_compute in Hcount. discriminate Hcount.
Qed.

(** *** Registration *)




(** The close event of the evicted socket then runs the fast path of
    the [close] handler, which deletes whatever socket is registered for
    the pair: the newer registration goes too. *)
Lemma evicted_close_unregisters_successor :
  let w := run initial (one_joined_one_new
                          ++ [Message 2%nat (Parsed (envelope "join-canvas" 5 7));
                              CloseEvent 1%nat]) in
  connectionsOf 5 w = [] ∧ (readyState <$> sockets w !! 2%nat) = Some WS_OPEN.
Proof. vm_compute. done. Qed.

(** *** Session handler *)

(** Socket 1, joined as user 7 of canvas 5, sends [join-canvas] again.
    On a canvas where socket 1 holds the entries of users 7 and 8, its
    [join-canvas] as user 8 hands it one [user-joined] of its own. *)
Lemma join_canvas_announces_witness :
  let w := run initial two_joined in
  let data := envelope "join-canvas" 5 7 in
  let w' := onMessage 1%nat (Parsed data) w in
  let joined := mkMsg "user-joined" (PUser 7 (Some "ada")) 5 7 (Some "ada") in
  let v := run initial shared_socket in
  let v' := onMessage 1%nat (Parsed (envelope "join-canvas" 5 8)) v in
  registry_wf w
  ∧ JsMap.get 7 (connectionsOf 5 w) = Some 1%nat
  ∧ JsMap.get 7 (connectionsOf 5 w') = Some 1%nat
  ∧ sends_to 1 (Stringified (mkMsg "active-users" (PActiveUsers [8]) 5 0 (Some "server")))
             (new_events w w') = 1%nat
  ∧ sends_to 1 (Stringified joined) (new_events w w') = 0%nat
  ∧ sends_to 2 (Stringified joined) (new_events w w') = 1%nat
  ∧ JsMap.get 8 (connectionsOf 5 v) = Some 1%nat
  ∧ sends_to 1 (Stringified (mkMsg "user-joined" (PUser 8 (Some "ada")) 5 8 (Some "ada")))
             (new_events v v') = 1%nat.
Proof.
  intros w data w' joined v v'.
  assert (JsMap.get 7 (connectionsOf 5 w) = Some 1%nat) as Hget by (vm_compute; reflexivity).
  assert (JsMap.get 8 (connectionsOf 5 w) = Some 2%nat) as Hget2 by (vm_compute; reflexivity).
  assert (JsMap.get 8 (connectionsOf 5 v) = Some 1%nat) as Hgetv by (vm_compute; reflexivity).
  assert (7 ≠ 0) as H7 by lia.
  assert (8 ≠ 0) as H8 by lia.
  assert (5 ≠ 0) as H5 by lia.
  assert (8 ≠ 7) as H87 by lia.
  destruct (join_canvas_announces w 1%nat _ data 5 7 (registry_wf_run two_joined)
              two_joined_first eq_refl eq_refl eq_refl H5 eq_refl H7 Hget)
    as (Hreg & Hau & _ & Hself & Hothers).
  destruct (join_canvas_announces v 1%nat _ (envelope "join-canvas" 5 8) 5 8
              (registry_wf_run shared_socket) shared_socket_first eq_refl eq_refl eq_refl
              H5 eq_refl H8 Hgetv)
    as (_ & _ & Hcopies & _).
  split; [exact (registry_wf_run two_joined)|]. split; [exact Hget|]. split; [exact Hreg|].
  split; [exact Hau|]. split; [exact (Hself two_joined_only_first)|].
  split; [exact (Hothers 8 2%nat _ H87 Hget2 two_joined_second eq_refl
                   two_joined_only_second)|].
  split; [exact Hgetv|].
  etrans; [exact (Hcopies 1%nat)|]. vm_compute. reflexivity.
Defined.

(** The join contract fails for the kind [join]: the handler has no
    case for it, the frame is acknowledged and otherwise ignored, so the
    sender gets no [active-users] reply. *)
Lemma join_kind_not_handled : ¬ join_contract "join".
Proof.
  intros Hspec.
  pose proof (registry_wf_run two_joined) as Hwf.
  assert (∀ v, v ≠ 7 → JsMap.get v (connectionsOf 5 (run initial two_joined))
                       ≠ Some 1%nat) as Honly.
  { intros v Hv. change (connectionsOf 5 (run initial two_joined))
      with [(7, 1%nat); (8, 2%nat)].
    simpl. rewrite decide_False by done. by case_decide. }
  destruct (Hspec (run initial two_joined) 1%nat
              (mkSocket WS_OPEN (Some true) (Some 7) (Some 5) (Some "ada")
                        false false false)
              (envelope "join" 5 7) 5 7 Hwf eq_refl eq_refl eq_refl eq_refl
              ltac:(lia) eq_refl ltac:(lia) eq_refl Honly) as (_ & Hau & _).
  vm_compute in Hau. discriminate Hau.
Qed.

(** A frame without [type] arrives on the open socket 1. *)
Lemma malformed_envelope_rejected_witness :
  let w := run initial one_connected in
  let message := Parsed (mkEnvelope None "{}" (Some 5) (Some 7) (Some "ada")) in
  let w' := onMessage 1%nat message w in
  rejected message = true
  ∧ sockets w' = sockets w
  ∧ canvasConnections w' = canvasConnections w
  ∧ ∃ m, msg_type m = "error"
         ∧ new_events w w' = [EvStringify m; EvSend 1 (Stringified m) true].
Proof.
  intros w message w'.
  assert (rejected message = true) as Hrej by reflexivity.
  destruct (malformed_envelope_rejected w 1%nat
              (mkSocket WS_OPEN (Some true) None None None false false false)
              message eq_refl eq_refl Hrej) as (Hs & _ & Hr & Hm).
  split; [exact Hrej|]. split; [exact Hs|]. split; [exact Hr | exact Hm].
Defined.

(** Not every frame short of the minimal shape is rejected: a frame
    that carries a kind, a canvasId and a userId but no username passes
    the validation, and the sender is registered, so the registry
    changes. *)
Lemma missing_username_accepted :
  ¬ rejection_contract (λ message, ¬ carries_minimal_shape message).
Proof.
  intros Hspec.
  destruct (Hspec (run initial one_connected) 1%nat
              (mkSocket WS_OPEN (Some true) None None None false false false)
              (Parsed (anonymous_envelope "join-canvas" 5 7)) eq_refl eq_refl)
    as (_ & _ & Hreg & _).
  - simpl. intros (_ & _ & _ & [x Hx]). discriminate Hx.
  - vm_compute in Hreg. discriminate Hreg.
Qed.

(** *** Liveness *)











(** *** Replacement and read *)

Lemma healthy_never : healthy (empty_canvas_db never).
Proof. intros n. reflexivity. Qed.

Lemma text_nodes_typed : Forall (λ el, typed el) [text_node "a"; text_node "b"].
Proof. repeat constructor. Qed.

Lemma plain_edge_ready :
  Forall (roundtrip_ready [text_node "a"; text_node "b"]) [plain_edge "a" "b"].
Proof.
  repeat constructor; try done.
  - exists (text_node "a"). split; [apply list_elem_of_here | done].
  - exists (text_node "b").
    split; [apply list_elem_of_further, list_elem_of_here | done].
Qed.

(** Nodes [a] and [b] and the edge from [a] to [b]. *)
Lemma replace_then_read_roundtrip_witness :
  healthy (empty_canvas_db never)
  ∧ 0 < next_element_id (empty_canvas_db never)
  ∧ Forall (λ el, typed el) [text_node "a"; text_node "b"]
  ∧ Forall (roundtrip_ready [text_node "a"; text_node "b"]) [plain_edge "a" "b"]
  ∧ ∃ db',
      replaceCanvasState 1 [text_node "a"; text_node "b"] [plain_edge "a" "b"]
                         (empty_canvas_db never) = (Some true, db')
      ∧ read_identities (canvas_state 1 db') = ([AStr "a"; AStr "b"], [("a", "b")])
      ∧ n_id <$> (canvas_state 1 db').1 = ["1"; "2"].
Proof.
  assert (0 < next_element_id (empty_canvas_db never)) as Hpos by (simpl; lia).
  destruct (replace_then_read_roundtrip (empty_canvas_db never) 1
              [text_node "a"; text_node "b"] [plain_edge "a" "b"]
              healthy_never Hpos text_nodes_typed plain_edge_ready)
    as (db' & Hrun & Hid & Hids & _).
  split; [exact healthy_never|]. split; [exact Hpos|].
  split; [exact text_nodes_typed|]. split; [exact plain_edge_ready|].
  exists db'. split; [exact Hrun|]. split; [exact Hid | exact Hids].
Defined.

(** The round trip as specified fails: the only element has no node
    kind, so it is skipped, the edge that names it is filtered, and the
    read returns neither the node nor the edge. *)
Lemma kindless_node_not_returned : ¬ roundtrip_as_specified.
Proof.
  intros Hspec.
  destruct (Hspec (empty_canvas_db never) 1 [kindless_node "a"] [plain_edge "a" "a"]
              healthy_never) as (db' & Hrun & Hid).
  - simpl. lia.
  - repeat constructor; exists (kindless_node "a");
      (split; [apply list_elem_of_here | done]).
  - vm_compute in Hrun. injection Hrun as <-.
    vm_compute in Hid. discriminate Hid.
Qed.

(** Two more ways out of the round trip: an edge whose style carries an
    older [sourceClientId] is read back with that identifier, and an
    edge between nodes called [undefined] is stored but not returned. *)
Lemma roundtrip_side_conditions :
  (let r := replaceCanvasState 1 [text_node "a"; text_node "b"]
                               [restyled_edge "a" "b" "zzz"] (empty_canvas_db never) in
   r.1 = Some true ∧ (read_identities (canvas_state 1 r.2)).2 = [("zzz", "b")])
  ∧ (let r := replaceCanvasState 1 [text_node "undefined"]
                                 [plain_edge "undefined" "undefined"]
                                 (empty_canvas_db never) in
     r.1 = Some true ∧ length (connections r.2) = 1%nat
     ∧ (read_identities (canvas_state 1 r.2)).2 = []).
Proof. vm_compute. done. Qed.

(** Through the handler the stale identifier is overwritten before the
    replacement, and the read returns the submitted endpoints. *)
Lemma put_overwrites_stale_stamp :
  let req := mkRequest true (Some 1) 7 false
                       (Some [text_node "a"; text_node "b"])
                       (Some [restyled_edge "a" "b" "zzz"]) in
  let r := putCanvasState req (empty_canvas_db never) in
  r.1 = Some (mkResponse 200 (BSaved true))
  ∧ (read_identities (canvas_state 1 r.2)).2 = [("a", "b")].
Proof. vm_compute. done. Qed.

(** Node [a] and an edge from [a] to a node nobody submitted. *)
Lemma ghost_unresolved :
  ¬ resolves (element_maps 1 [text_node "a"] (mkMaps ∅ ∅)) (plain_edge "a" "ghost").
Proof.
  intros [_ (id & Hin & Hlead)]. cbn in Hin.
  apply list_elem_of_singleton in Hin as ->.
  destruct Hlead as [[d Hd]|(r & Hr & _)]; vm_compute in *; discriminate.
Qed.

Lemma dangling_edges_dropped_witness :
  let after := replaceCanvasState 1 [text_node "a"] [plain_edge "a" "ghost"]
                                  (empty_canvas_db never) in
  after.1 = Some true
  ∧ filter (λ r, cn_canvasId r = 1) (connections after.2) = []
  ∧ valid_connection (element_maps 1 [text_node "a"] (mkMaps ∅ ∅))
      (preprocess (element_maps 1 [text_node "a"] (mkMaps ∅ ∅)) (plain_edge "a" "ghost"))
    = false.
Proof.
  destruct (dangling_edges_dropped (empty_canvas_db never) 1 [text_node "a"]
              [plain_edge "a" "ghost"]) as (Hdrop & _ & Hok).
  destruct (Hok healthy_never) as [Hrun Hrows].
  destruct (Hdrop (plain_edge "a" "ghost") (list_elem_of_here _ _) ghost_unresolved)
    as [_ Hinvalid].
  split; [exact Hrun|]. split; [|exact Hinvalid].
  rewrite Hrows. vm_compute. reflexivity.
Defined.

(** A kindless node between two text nodes, one of them without payload. *)
Lemma untyped_elements_skipped_witness :
  healthy (empty_canvas_db never)
  ∧ ∃ db',
      replaceCanvasState 1 [text_node "a"; kindless_node "x"; bare_node "b"] []
                         (empty_canvas_db never) = (Some true, db')
      ∧ (λ r, (el_id r, prop (el_content r) "clientId"))
          <$> filter (λ r, el_canvasId r = 1) (canvas_elements db')
        = [(1, AStr "a"); (2, AStr "b")].
Proof.
  destruct (untyped_elements_skipped (empty_canvas_db never) 1
              [text_node "a"; kindless_node "x"; bare_node "b"] [] healthy_never)
    as (db' & Hrun & Hrows & _).
  split; [exact healthy_never|]. exists db'. split; [exact Hrun|].
  rewrite Hrows. vm_compute. reflexivity.
Defined.

(** Elements without a content payload are not skipped: an element
    with a node kind and no content payload is inserted. *)
Lemma payloadless_node_inserted : ¬ skip_contract carries_payload_and_kind.
Proof.
  intros Hspec.
  destruct (Hspec (empty_canvas_db never) 1 [bare_node "b"] [] healthy_never)
    as (db' & Hrun & Hrows).
  vm_compute in Hrun. injection Hrun as <-.
  vm_compute in Hrows. discriminate Hrows.
Qed.

(** *** Save handler and visibility *)

(** The first statement of the replacement fails, the fallback runs. *)
Lemma save_failure_reported_witness :
  let db := empty_canvas_db first_only in
  (replaceCanvasState 1 [text_node "a"] [] db).1 = Some false
  ∧ (save_or_fallback 1 [text_node "a"] [] db).1 = Some (mkResponse 207 (BPartial true))
  ∧ cv_updatedAt <$> canvases (save_or_fallback 1 [text_node "a"] [] db).2 = [1000].
Proof.
  intros db.
  assert ((replaceCanvasState 1 [text_node "a"] [] db).1 = Some false) as Hr
    by (vm_compute; reflexivity).
  destruct (save_failure_reported 1 [text_node "a"] [] db) as (_ & _ & Hfail).
  assert ((replaceCanvasState 1 [text_node "a"] [] db).1 ≠ Some true) as Hne
    by (rewrite Hr; discriminate).
  specialize (Hfail Hne).
  change (fails (replaceCanvasState 1 [text_node "a"] [] db).2
                (queries (replaceCanvasState 1 [text_node "a"] [] db).2))
    with false in Hfail.
  destruct Hfail as (Hout & Hcv & _).
  split; [exact Hr|]. split; [exact Hout|]. rewrite Hcv. vm_compute. reflexivity.
Defined.

(** A failed replacement is not always answered with the
    partial-failure status: when every statement fails, the fallback
    throws as well and the answer is HTTP 500, not 207. *)
Lemma fallback_can_fail : ¬ failure_always_partial.
Proof.
  intros Hspec.
  pose proof (Hspec 1 [text_node "a"] [] (empty_canvas_db always)) as H.
  destruct (replaceCanvasState 1 [text_node "a"] [] (empty_canvas_db always))
    as [r db1] eqn:Hr.
  specialize (H r db1 eq_refl).
  vm_compute in Hr. injection Hr as <- <-.
  assert (Some false ≠ Some true) as Hne by discriminate.
  specialize (H Hne). vm_compute in H. discriminate H.
Qed.

(** Canvas 1 is made public. *)
Lemma visibility_keeps_isPublic_witness :
  let db := empty_canvas_db never in
  let r := updateCanvasVisibility 1 "public" db in
  "public" ∈ visibilities
  ∧ canvases r.2 = [mkCanvas 1 "sketch" (Some 7) 1000 "public" true]
  ∧ Forall public_flag_consistent (canvases r.2).
Proof.
  intros db r.
  assert ("public" ∈ visibilities) as Hin
    by (apply (bool_decide_unpack _); vm_compute; exact I).
  destruct (visibility_keeps_isPublic 1 "public" db) as [Hvalid _].
  destruct (Hvalid Hin) as [_ Hruns].
  destruct (Hruns eq_refl) as (Hrows & _ & Hinv & _).
  split; [exact Hin|]. split.
  - fold r in Hrows. rewrite Hrows. vm_compute. reflexivity.
  - apply Hinv. repeat constructor.
Defined.

Import Canvases SessionFacts CanvasesFacts.

(** *** The session handler, frame by frame *)

(** User 7, joined with socket 1, sends an update of canvas 5. *)
Lemma update_relayed_to_others_witness :
  let w := run initial two_joined in
  let w' := onMessage 1%nat (Parsed (envelope "canvas-update" 5 7)) w in
  let relay := mkMsg "canvas-update" (PClient "{}") 5 7 (Some "ada") in
  registry_wf w
  ∧ JsMap.get 7 (connectionsOf 5 w) = Some 1%nat
  ∧ sends_to 1 (Stringified relay) (new_events w w') = 0%nat
  ∧ sends_to 2 (Stringified relay) (new_events w w') = 1%nat
  ∧ JsMap.get 7 (connectionsOf 5 w') = Some 1%nat.
Proof.
  intros w w' relay.
  pose proof (registry_wf_run two_joined) as Hwf. fold w in Hwf.
  assert (JsMap.get 7 (connectionsOf 5 w) = Some 1%nat) as Hget by (vm_compute; reflexivity).
  assert (JsMap.get 8 (connectionsOf 5 w) = Some 2%nat) as Hget2 by (vm_compute; reflexivity).
  destruct (update_relayed_to_others w 1%nat _ (envelope "canvas-update" 5 7) 5 7
              "canvas-update" Hwf two_joined_first eq_refl eq_refl (or_introl eq_refl)
              eq_refl ltac:(lia) eq_refl ltac:(lia) Hget)
    as (_ & _ & Hself & Hothers & _ & Hstays & _).
  split; [exact Hwf|]. split; [exact Hget|].
  split; [exact (Hself two_joined_only_first)|].
  split; [|exact Hstays].
  exact (Hothers 8 2%nat _ ltac:(lia) Hget2 two_joined_second eq_refl two_joined_only_second).
Defined.

(** User 7, joined with socket 1, leaves canvas 5. *)
Lemma leave_canvas_unregisters_witness :
  let w := run initial two_joined in
  let w' := onMessage 1%nat (Parsed (envelope "leave-canvas" 5 7)) w in
  let left := mkMsg "user-left" (PUser 7 (Some "ada")) 5 7 (Some "ada") in
  registry_wf w
  ∧ JsMap.get 7 (connectionsOf 5 w) = Some 1%nat
  ∧ sends_to 2 (Stringified left) (new_events w w') = 1%nat
  ∧ connectionsOf 5 w' = [(8, 2%nat)]
  ∧ JsMap.get 7 (connectionsOf 5 w') = None.
Proof.
  intros w w' left.
  pose proof (registry_wf_run two_joined) as Hwf. fold w in Hwf.
  assert (JsMap.get 7 (connectionsOf 5 w) = Some 1%nat) as Hget by (vm_compute; reflexivity).
  assert (JsMap.get 8 (connectionsOf 5 w) = Some 2%nat) as Hget2 by (vm_compute; reflexivity).
  destruct (leave_canvas_unregisters w 1%nat _ (envelope "leave-canvas" 5 7) 5 7
              Hwf two_joined_first eq_refl eq_refl
              eq_refl ltac:(lia) eq_refl ltac:(lia) Hget)
    as (_ & _ & _ & Hothers & Hreg & Hgone & _).
  split; [exact Hwf|]. split; [exact Hget|].
  split; [exact (Hothers 8 2%nat _ ltac:(lia) Hget2 two_joined_second eq_refl
                   two_joined_only_second)|].
  split; [|exact Hgone].
  etrans; [exact Hreg|]. vm_compute. reflexivity.
Defined.

(** User 7, joined with socket 1, sends a frame of the kind [heartbeat]. *)
Lemma other_kinds_only_acknowledged_witness :
  let w := run initial two_joined in
  let w' := onMessage 1%nat (Parsed (envelope "heartbeat" 5 7)) w in
  let ack := mkMsg "connection-acknowledged" (PAcknowledged [7; 8]) 5 7 (Some "ada") in
  ¬ fanned_out "heartbeat"
  ∧ new_events w w' = [EvStringify ack; EvSend 1 (Stringified ack) true]
  ∧ canvasConnections w' = canvasConnections w.
Proof.
  intros w w' ack.
  assert (¬ fanned_out "heartbeat") as Hnot.
  { intros H. apply (bool_decide_pack _) in H. vm_compute in H. exact H. }
  assert ("heartbeat" ≠ "") as Hne by discriminate.
  assert (JsMap.get 7 (connectionsOf 5 w) = Some 1%nat) as Hget by (vm_compute; reflexivity).
  destruct (other_kinds_only_acknowledged w 1%nat _ (envelope "heartbeat" 5 7) 5 7
              "heartbeat" two_joined_first eq_refl eq_refl Hne Hnot
              eq_refl ltac:(lia) eq_refl ltac:(lia) Hget)
    as (Hev & Hreg & _).
  split; [exact Hnot|]. split; [exact Hev | exact Hreg].
Defined.

(** Socket 1 never joined; its first frame is a cursor position. *)
Lemma accepted_frame_registers_witness :
  let w := run initial one_connected in
  let w' := onMessage 1%nat (Parsed (envelope "cursor-position" 5 7)) w in
  registry_wf w
  ∧ connectionsOf 5 w = []
  ∧ JsMap.get 7 (connectionsOf 5 w') = Some 1%nat
  ∧ registrations 5 7 w' = [(7, 1%nat)].
Proof.
  intros w w'.
  pose proof (registry_wf_run one_connected) as Hwf. fold w in Hwf.
  assert ("cursor-position" ≠ "") as Hne by discriminate.
  assert ("cursor-position" ≠ "leave-canvas") as Hnl by discriminate.
  assert (sockets w !! 1%nat
          = Some (mkSocket WS_OPEN (Some true) None None None false false false)) as Hk
    by (vm_compute; reflexivity).
  destruct (accepted_frame_registers w 1%nat _ (envelope "cursor-position" 5 7) 5 7
              "cursor-position" Hwf Hk eq_refl eq_refl Hne Hnl
              eq_refl ltac:(lia) eq_refl ltac:(lia)) as [Hget Hone].
  split; [exact Hwf|]. split; [vm_compute; reflexivity|].
  split; [exact Hget | exact Hone].
Defined.

(** Socket 1 was probed once, and answers with a pong. *)
Lemma pong_survives_probe_witness :
  let w := run initial one_probed in
  let w1 := heartbeat 1%nat w in
  clients_wf w
  ∧ alive_of w 1%nat = Some false
  ∧ alive_of w1 1%nat = Some true
  ∧ EvPing 1 true ∈ new_events w1 (pingInterval w1)
  ∧ EvTerminate 1 ∉ new_events w1 (pingInterval w1).
Proof.
  intros w w1.
  pose proof (clients_wf_run one_probed) as Hwf. fold w in Hwf.
  assert (1%nat ∈ clients w) as Hin by (vm_compute; apply list_elem_of_here).
  assert (sockets w !! 1%nat
          = Some (mkSocket WS_OPEN (Some false) None None None false false false)) as Hk
    by (vm_compute; reflexivity).
  destruct (pong_survives_probe w 1%nat _ Hwf Hin Hk eq_refl) as (Halive & Hping & Hterm).
  split; [exact Hwf|]. split; [vm_compute; reflexivity|].
  split; [exact Halive|]. split; [exact Hping | exact Hterm].
Defined.

(** A third socket connects while two users are on canvas 5. *)
Lemma connection_greeted_witness :
  let w := run initial two_joined in
  let w' := onConnection 3%nat false false false w in
  registry_wf w
  ∧ sockets w !! 3%nat = None
  ∧ clients w' = [1%nat; 2%nat; 3%nat]
  ∧ canvasConnections w' = canvasConnections w
  ∧ ∀ c u, JsMap.get u (connectionsOf c w') ≠ Some 3%nat.
Proof.
  intros w w'.
  pose proof (registry_wf_run two_joined) as Hwf. fold w in Hwf.
  assert (sockets w !! 3%nat = None) as Hnone by (vm_compute; reflexivity).
  destruct (connection_greeted w 3%nat false false false Hwf Hnone)
    as (_ & Hclients & Hreg & _ & Hfree).
  split; [exact Hwf|]. split; [exact Hnone|].
  split; [|split; [exact Hreg | exact Hfree]].
  etrans; [exact Hclients|]. vm_compute. reflexivity.
Defined.

(** The connection of user 7 on canvas 5 closes. *)
Lemma close_notifies_canvas_witness :
  let w := run initial two_joined in
  let w' := closeEvent 1%nat w in
  let left := mkMsg "user-left" (PUserId 7) 5 7 (Some "ada") in
  registry_wf w
  ∧ is_Some (JsMap.get 7 (connectionsOf 5 w))
  ∧ sends_to 1 (Stringified left) (new_events w w') = 0%nat
  ∧ sends_to 2 (Stringified left) (new_events w w') = 1%nat
  ∧ connectionsOf 5 w' = [(8, 2%nat)].
Proof.
  intros w w' left.
  pose proof (registry_wf_run two_joined) as Hwf. fold w in Hwf.
  assert (is_Some (JsMap.get 7 (connectionsOf 5 w))) as Hget
    by (exists 1%nat; vm_compute; reflexivity).
  assert (JsMap.get 8 (connectionsOf 5 w) = Some 2%nat) as Hget2 by (vm_compute; reflexivity).
  destruct (close_notifies_canvas w 1%nat _ 7 5 Hwf two_joined_first eq_refl eq_refl
              ltac:(lia) ltac:(lia) Hget)
    as (_ & Hself & _ & Hothers & Hreg & _).
  split; [exact Hwf|]. split; [exact Hget|].
  split; [exact (Hself _)|].
  split; [exact (Hothers 8 2%nat _ ltac:(lia) ltac:(lia) Hget2 two_joined_second eq_refl
                   two_joined_only_second)|].
  etrans; [exact Hreg|]. vm_compute. reflexivity.
Defined.

(** Socket 1 gets registered for (5, 7): the event was its own frame. *)
Lemma registration_needs_own_frame_witness :
  let w := run initial one_connected in
  let i := Message 1%nat (Parsed (envelope "join-canvas" 5 7)) in
  registry_wf w
  ∧ JsMap.get 7 (connectionsOf 5 (step w i)) = Some 1%nat
  ∧ (JsMap.get 7 (connectionsOf 5 w) = Some 1%nat
     ∨ ∃ data, i = Message 1%nat (Parsed data)
               ∧ in_canvasId data = Some 5 ∧ in_userId data = Some 7).
Proof.
  intros w i.
  pose proof (registry_wf_run one_connected) as Hwf. fold w in Hwf.
  assert (JsMap.get 7 (connectionsOf 5 (step w i)) = Some 1%nat) as Hget
    by (vm_compute; reflexivity).
  split; [exact Hwf|]. split; [exact Hget|].
  exact (registration_needs_own_frame w i 5 7 1%nat Hwf Hget).
Defined.

(** User 7 is on canvas 5 with socket 1; user 8 joins with socket 2. *)
Lemma first_join_announced_witness :
  let w := run initial one_joined_one_new in
  let w' := onMessage 2%nat (Parsed (envelope "join-canvas" 5 8)) w in
  let joined := mkMsg "user-joined" (PUser 8 (Some "ada")) 5 8 (Some "ada") in
  registry_wf w
  ∧ JsMap.get 8 (connectionsOf 5 w) = None
  ∧ sends_to 2 (Stringified (mkMsg "active-users" (PActiveUsers [7]) 5 0 (Some "server")))
             (new_events w w') = 1%nat
  ∧ sends_to 1 (Stringified joined) (new_events w w') = 1%nat
  ∧ connectionsOf 5 w' = [(7, 1%nat); (8, 2%nat)].
Proof.
  intros w w' joined.
  pose proof (registry_wf_run one_joined_one_new) as Hwf. fold w in Hwf.
  assert (sockets w !! 1%nat
          = Some (mkSocket WS_OPEN (Some true) (Some 7) (Some 5) (Some "ada")
                           false false false)) as Hk1 by (vm_compute; reflexivity).
  assert (sockets w !! 2%nat
          = Some (mkSocket WS_OPEN (Some true) None None None false false false)) as Hk2
    by (vm_compute; reflexivity).
  assert (JsMap.get 8 (connectionsOf 5 w) = None) as Hfree by (vm_compute; reflexivity).
  assert (JsMap.get 7 (connectionsOf 5 w) = Some 1%nat) as Hget by (vm_compute; reflexivity).
  assert (∀ v, v ≠ 7 → JsMap.get v (connectionsOf 5 w) ≠ Some 1%nat) as Honly.
  { intros v Hv. change (connectionsOf 5 w) with [(7, 1%nat)]. simpl.
    by rewrite decide_False. }
  destruct (first_join_announced w 2%nat _ (envelope "join-canvas" 5 8) 5 8
              Hwf Hk2 eq_refl eq_refl eq_refl ltac:(lia) eq_refl ltac:(lia) Hfree)
    as (Hev & Hothers & Hreg & _).
  split; [exact Hwf|]. split; [exact Hfree|]. split; [|split].
  - etrans; [exact (f_equal (sends_to 2 _) Hev)|]. vm_compute. reflexivity.
  - exact (Hothers 7 1%nat _ Hget Hk1 eq_refl Honly).
  - etrans; [exact Hreg|]. vm_compute. reflexivity.
Defined.

(** Socket 1 is still registered on canvas 5 when it closes, but the
    pair it spoke for last, (6, 7), is registered no more. *)
Lemma close_fallback_clears_witness :
  let w := run initial moved_on in
  registry_wf w
  ∧ connectionsOf 5 w = [(7, 1%nat)]
  ∧ (ws_canvasId <$> sockets w !! 1%nat) = Some (Some 6)
  ∧ unregistered 1%nat (closeEvent 1%nat w).
Proof.
  intros w.
  pose proof (registry_wf_run moved_on) as Hwf. fold w in Hwf.
  assert (sockets w !! 1%nat
          = Some (mkSocket WS_OPEN (Some true) (Some 7) (Some 6) (Some "ada")
                           false false false)) as Hk by (vm_compute; reflexivity).
  assert (¬ stored_pair_registered
              (mkSocket WS_OPEN (Some true) (Some 7) (Some 6) (Some "ada")
                        false false false) w) as Hnot.
  { intros (u & c & [= <-] & [= <-] & _ & _ & [t Ht]). vm_compute in Ht. discriminate Ht. }
  destruct (close_fallback_clears w 1%nat _ Hwf Hk Hnot) as [Hclear _].
  split; [exact Hwf|]. split; [vm_compute; reflexivity|].
  split; [vm_compute; reflexivity | exact Hclear].
Defined.

Lemma two_joined_first_deliverable : deliverable 1%nat (run initial two_joined).
Proof.
  exists (mkSocket WS_OPEN (Some true) (Some 7) (Some 5) (Some "ada") false false false).
  split; [exact two_joined_first|]. split; reflexivity.
Qed.

Lemma two_joined_first_one_pair c u :
  JsMap.get u (connectionsOf c (run initial two_joined)) = Some 1%nat → c = 5 ∧ u = 7.
Proof.
  unfold connectionsOf.
  change (canvasConnections (run initial two_joined))
    with [(5, [(7, 1%nat); (8, 2%nat)])].
  simpl. case_decide as Hc; [subst c; simpl|done].
  case_decide as Hu; [by subst u|]. by case_decide.
Qed.

Lemma two_joined_second_other :
  ¬ speaks_for 5 7 (run initial two_joined) (CloseEvent 2%nat).
Proof.
  intros (k & Hk & _ & Hu). rewrite two_joined_second in Hk.
  injection Hk as <-. discriminate Hu.
Qed.

(** Users 7 and 8 are on canvas 5; the connection of user 8 closes,
    user 7 stays registered. *)
Lemma registration_survives_witness :
  let w := run initial two_joined in
  registry_wf w
  ∧ JsMap.get 7 (connectionsOf 5 w) = Some 1%nat
  ∧ deliverable 1%nat w
  ∧ ¬ speaks_for 5 7 w (CloseEvent 2%nat)
  ∧ JsMap.get 7 (connectionsOf 5 (step w (CloseEvent 2%nat))) = Some 1%nat.
Proof.
  intros w.
  assert (JsMap.get 7 (connectionsOf 5 w) = Some 1%nat) as Hget by (vm_compute; reflexivity).
  assert (CloseEvent 2%nat ≠ CloseEvent 1%nat) as Hne by discriminate.
  split; [exact (registry_wf_run two_joined)|]. split; [exact Hget|].
  split; [exact two_joined_first_deliverable|].
  split; [exact two_joined_second_other|].
  exact (registration_survives w (CloseEvent 2%nat) 5 7 1%nat (registry_wf_run two_joined)
           Hget two_joined_first_deliverable two_joined_first_one_pair Hne
           two_joined_second_other).
Defined.

(** *** Canvases: who may read, save, delete and publish *)

Lemma healthy_shared : healthy (shared_db never).
Proof. intros n. reflexivity. Qed.

(** The collaborator of the private canvas 1 has access, a stranger has
    none. *)
Lemma access_decision_witness :
  let db := shared_db never in
  healthy db
  ∧ (userHasAccessToCanvas 8 1 db).1 = Some true
  ∧ (∃ canvas, find_canvas 1 db = Some canvas ∧ may_view 8 canvas db = true)
  ∧ (userHasAccessToCanvas 5 1 db).1 = Some false.
Proof.
  intros db.
  destruct (access_decision 8 1 db) as (_ & _ & Hgrounds & Hexact).
  destruct (access_decision 5 1 db) as (_ & _ & _ & Hstranger).
  split; [exact healthy_shared|].
  split; [exact (Hexact healthy_shared)|].
  split; [exact (Hgrounds (Hexact healthy_shared))|].
  exact (Hstranger healthy_shared).
Defined.

(** Canvas 1 is deleted; the rows of canvas 2 stay. *)
Lemma deleteCanvas_cascades_witness :
  let db := shared_db never in
  let r := deleteCanvas 1 db in
  healthy db
  ∧ r.1 = Some true
  ∧ tables r.2
    = ([mkCanvas 2 "atlas" (Some 9) 0 "public" true],
       [mkElementRow 2 2 "text" "textElement" ∅ ∅ ∅ ∅ ""], [], [])
  ∧ (userHasAccessToCanvas 8 1 r.2).1 = Some false.
Proof.
  intros db r.
  destruct (deleteCanvas_cascades 1 db) as (_ & Hok).
  destruct (Hok healthy_shared) as (Hres & Htab & _ & _ & _ & Hdenied).
  split; [exact healthy_shared|]. split; [exact Hres|].
  split; [exact Htab | exact (Hdenied 8)].
Defined.

(** The collaborator of canvas 1 may not delete it; its owner may. *)
Lemma delete_only_by_owner_witness :
  let db := shared_db never in
  healthy db
  ∧ may_manage (request 8 1) db = false
  ∧ read_only db (deleteCanvasById (request 8 1) db).2
  ∧ may_manage (request 7 1) db = true
  ∧ (deleteCanvasById (request 7 1) db).1 = Some Success
  ∧ tables (deleteCanvasById (request 7 1) db).2 = elsewhere 1 db.
Proof.
  intros db.
  destruct (delete_only_by_owner (request 8 1) db) as (_ & _ & Hno & _).
  destruct (delete_only_by_owner (request 7 1) db) as (_ & _ & _ & Hyes).
  destruct (Hno eq_refl) as [Hro _].
  destruct (Hyes healthy_shared eq_refl) as [Hok Hgone].
  split; [exact healthy_shared|]. split; [reflexivity|]. split; [exact Hro|].
  split; [reflexivity|]. split; [exact Hok | exact (Hgone 1 eq_refl)].
Defined.

(** The owner of canvas 1 makes it public. *)
Lemma visibility_only_by_owner_witness :
  let db := shared_db never in
  let r := putCanvasVisibility (request 7 1) (AStr "public") db in
  healthy db
  ∧ may_manage (request 7 1) db = true
  ∧ "public" ∈ visibilities
  ∧ ∃ canvas, r.1 = Some (CanvasJson canvas)
              ∧ cv_visibility canvas = "public"
              ∧ cv_isPublic canvas = true
              ∧ canvas ∈ canvases r.2.
Proof.
  intros db r.
  assert ("public" ∈ visibilities) as Hin
    by (apply (bool_decide_unpack _); vm_compute; exact I).
  destruct (visibility_only_by_owner (request 7 1) (AStr "public") db)
    as (_ & _ & _ & _ & Hyes).
  destruct (Hyes healthy_shared eq_refl "public" eq_refl Hin)
    as (canvas & Hr & Hv & Hp & _ & Hstored).
  split; [exact healthy_shared|]. split; [reflexivity|]. split; [exact Hin|].
  exists canvas. split; [exact Hr|]. split; [exact Hv|]. split; [exact Hp | exact Hstored].
Defined.

(** The collaborator of the private canvas 1 reads it. *)
Lemma canvas_served_to_viewers_witness :
  let db := shared_db never in
  let r := getCanvasById (request 8 1) db in
  healthy db
  ∧ r.1 = Some (CanvasJson (mkCanvas 1 "sketch" (Some 7) 0 "private" false))
  ∧ may_view 8 (mkCanvas 1 "sketch" (Some 7) 0 "private" false) db || false = true.
Proof.
  intros db r.
  destruct (canvas_served_to_viewers (request 8 1) db) as (_ & _ & Honly & Hexact).
  pose proof (Hexact healthy_shared) as Hr.
  destruct (Honly _ Hr) as (_ & _ & _ & Hview).
  split; [exact healthy_shared|]. split; [exact Hr | exact Hview].
Defined.

(** A save of canvas 1 whose first statement fails: the element of
    canvas 2 is still there. *)
Lemma save_leaves_other_canvases_witness :
  let db := shared_db first_only in
  let req := save_request 7 1 in
  req_param_id req = Some 1
  ∧ elsewhere 1 (putCanvasState req db).2 = elsewhere 1 db
  ∧ elsewhere 1 (replaceCanvasState 1 [text_node "a"] [] db).2 = elsewhere 1 db.
Proof.
  intros db req.
  destruct (save_leaves_other_canvases req 1 db eq_refl) as [Hstore Hhandler].
  split; [reflexivity|]. split; [exact Hhandler | exact (Hstore _ _)].
Defined.

(** A stranger reads the state of the public canvas 2. *)
Lemma state_read_guarded_witness :
  let db := shared_db never in
  let r := getCanvasState (request 5 2) db in
  healthy db
  ∧ r.1 = Some (mkResponse 200 (BState (canvas_state 2 db).1 (canvas_state 2 db).2))
  ∧ ∃ resp, (getCanvasState (request 5 1) db).1 = Some resp ∧ status resp = 403.
Proof.
  intros db r.
  destruct (state_read_guarded (request 5 2) db) as (_ & _ & _ & Hpublic).
  destruct (state_read_guarded (request 5 1) db) as (_ & _ & _ & Hprivate).
  split; [exact healthy_shared|]. split.
  - exact (Hpublic healthy_shared 2 (mkCanvas 2 "atlas" (Some 9) 0 "public" true)
             eq_refl eq_refl eq_refl).
  - exact (Hprivate healthy_shared 1 (mkCanvas 1 "sketch" (Some 7) 0 "private" false)
             eq_refl eq_refl eq_refl).
Defined.

(** A stranger reads the state of the public canvas 2, and may not
    save it. *)
Lemma state_save_guarded_witness :
  let db := shared_db never in
  let canvas := mkCanvas 2 "atlas" (Some 9) 0 "public" true in
  healthy db
  ∧ may_view 5 canvas db = true
  ∧ may_save (save_request 5 2) canvas db = false
  ∧ (getCanvasState (save_request 5 2) db).1
    = Some (mkResponse 200 (BState (canvas_state 2 db).1 (canvas_state 2 db).2))
  ∧ (∃ resp, (putCanvasState (save_request 5 2) db).1 = Some resp ∧ status resp = 403)
  ∧ may_save_state (save_request 5 2) db = false
  ∧ read_only db (putCanvasState (save_request 5 2) db).2.
Proof.
  intros db canvas.
  destruct (state_save_guarded (save_request 5 2) db) as (_ & Hrefused & Hview_only).
  destruct (Hview_only healthy_shared 2 canvas eq_refl eq_refl eq_refl eq_refl eq_refl)
    as [Hread Hsave].
  destruct (Hrefused (or_introl eq_refl)) as [Hro _].
  split; [exact healthy_shared|]. split; [reflexivity|]. split; [reflexivity|].
  split; [exact Hread|]. split; [exact Hsave|]. split; [reflexivity | exact Hro].
Defined.

(** The public canvas 2 is made private: the stranger 5 is denied, the
    owner 9 is not. *)
Lemma visibility_governs_access_witness :
  let db := shared_db never in
  let db' := (updateCanvasVisibility 2 "private" db).2 in
  healthy db
  ∧ "private" ∈ visibilities
  ∧ (userHasAccessToCanvas 5 2 db).1 = Some true
  ∧ (userHasAccessToCanvas 5 2 db').1 = Some false
  ∧ (userHasAccessToCanvas 9 2 db').1 = Some true.
Proof.
  intros db db'.
  assert ("private" ∈ visibilities) as Hin
    by (apply (bool_decide_unpack _); vm_compute; exact I).
  split; [exact healthy_shared|]. split; [exact Hin|].
  split; [vm_compute; reflexivity|]. split.
  - exact (visibility_governs_access 2 "private" db
             (mkCanvas 2 "atlas" (Some 9) 0 "public" true) 5 healthy_shared Hin eq_refl).
  - exact (visibility_governs_access 2 "private" db
             (mkCanvas 2 "atlas" (Some 9) 0 "public" true) 9 healthy_shared Hin eq_refl).
Defined.

End Checks.
